(** * policy-hub: the delivery operations of
      [.github/actions/policy-operations/index.js]

    The action is one class, [PolicyOperations], whose methods are the
    operations of the release workflow: detection of the changed policy
    folders, the local delivery check, the probe of the registry, the
    publishing request and the update of the delivery state.  They are
    embedded here as functions over an explicit environment (action inputs,
    git, the registry, the clock) and an explicit store (the state files,
    the outputs set, the requests sent), in an error monad for JavaScript
    exceptions.

    What the embedding leaves to its parameters:
    - the text of a response body comes with what [JSON.parse] makes of
      it, and a state file with the object it holds;
    - a write of the state file that fails comes with what it leaves of
      the file, which [fs.writeFile] empties before it writes;
    - [path.resolve], [encodeURIComponent] and [localeCompare] are fields
      of a [Runtime], of which nothing is assumed: what a statement needs
      of [localeCompare] is a hypothesis on the strings it compares;
    - [core.info] and [core.warning] only print, and are left out;
    - [validatePolicy] and [publishPolicy] (with [preparePolicyPayload])
      read the policy folder; [run] takes them as arguments and
      [publishToApi] takes the payload object.

    The workflow file that chains the operations and moves
    [.state/baseline.sha] is not part of the sources; the baseline
    decision is modelled from the specification, in [Reconciler]. *)

From Stdlib Require Import ZArith String Ascii List OrderedTypeEx.
From stdpp Require Import base tactics option list strings pretty gmap sorting.

Local Open Scope string_scope.
Set Warnings "-register-all,-clear-no-such-hyp".

(** ** JavaScript values *)

(** The values the action handles: what [JSON.parse] returns, and
    [undefined].  Numbers are status codes and counts, integers. *)
Inductive JsVal : Type :=
  | JUndefined
  | JNull
  | JBool (b : bool)
  | JNum (n : Z)
  | JStr (s : string)
  | JArr (items : list JsVal)
  | JObj (props : list (string * JsVal)).

(** The exceptions that occur, with their [message]. *)
Inductive JsError : Type :=
  | Error (msg : string)
  | TypeError (msg : string)
  | ReferenceError (msg : string)
  | SyntaxError (msg : string).

Definition message (e : JsError) : string :=
  match e with
  | Error m | TypeError m | ReferenceError m | SyntaxError m => m
  end.

Inductive Result (A : Type) : Type :=
  | Ok (a : A)
  | Throw (e : JsError).
Arguments Ok {A} a.
Arguments Throw {A} e.

(** ToBoolean: [if (v)], [!v], [v || w]. *)
Definition truthy (v : JsVal) : bool :=
  match v with
  | JUndefined | JNull => false
  | JBool b => b
  | JNum n => negb (n =? 0)%Z
  | JStr s => negb (String.eqb s "")
  | JArr _ | JObj _ => true
  end.

(** [a || b] *)
Definition js_or (a b : JsVal) : JsVal := if truthy a then a else b.

(** Own property of an object literal or of a parsed JSON object: the
    first binding of the key. *)
Fixpoint assoc (k : string) (props : list (string * JsVal)) : option JsVal :=
  match props with
  | [] => None
  | (k', v) :: rest => if String.eqb k k' then Some v else assoc k rest
  end.

(** [v.k] for a data property [k] that no prototype defines
    ([message], [deliveredAt], [commitSha]): reading it from [null] or
    [undefined] is a TypeError, from any other value without the own
    property it is [undefined]. *)
Definition get_prop (v : JsVal) (k : string) : Result JsVal :=
  match v with
  | JUndefined =>
      Throw (TypeError ("Cannot read properties of undefined (reading '" +:+ k +:+ "')"))
  | JNull =>
      Throw (TypeError ("Cannot read properties of null (reading '" +:+ k +:+ "')"))
  | JObj props => Ok (default JUndefined (assoc k props))
  | _ => Ok JUndefined
  end.

(** ToString, as a template literal applies it. *)
Fixpoint js_to_string (v : JsVal) : string :=
  match v with
  | JUndefined => "undefined"
  | JNull => "null"
  | JBool true => "true"
  | JBool false => "false"
  | JNum n => pretty n
  | JStr s => s
  | JArr items =>
      String.concat ","
        (map (fun x => match x with
                       | JUndefined | JNull => ""
                       | _ => js_to_string x
                       end) items)
  | JObj _ => "[object Object]"
  end.

(** ** Strings *)

(** The double quote character. *)
Definition quote : string := String "034" EmptyString.

(** [s.split(sep)] for a one-character separator: never empty, the empty
    string splits into one empty part. *)
Fixpoint split (sep : ascii) (s : string) : list string :=
  match s with
  | EmptyString => [EmptyString]
  | String c rest =>
      if Ascii.eqb c sep then EmptyString :: split sep rest
      else match split sep rest with
           | part :: parts => String c part :: parts
           | [] => [String c EmptyString]
           end
  end.

(** [\d] *)
Definition is_digit (c : ascii) : bool :=
  let n := nat_of_ascii c in (48 <=? n)%nat && (n <=? 57)%nat.

(** [\d+] at the head of [s], then the rest of the pattern [k] on what
    follows.  The repetition is greedy and what follows it in the pattern
    is never a digit, so there is nothing to backtrack. *)
Fixpoint digits_star (k : string -> bool) (s : string) : bool :=
  match s with
  | String c rest => if is_digit c then digits_star k rest else k s
  | EmptyString => k s
  end.

Definition digits_plus (k : string -> bool) (s : string) : bool :=
  match s with
  | String c rest => is_digit c && digits_star k rest
  | EmptyString => false
  end.

(** A literal character of the pattern. *)
Definition lit (c : ascii) (k : string -> bool) (s : string) : bool :=
  match s with
  | String c' rest => Ascii.eqb c' c && k rest
  | EmptyString => false
  end.

(** [$] without the [m] flag: the end of the input. *)
Definition at_end (s : string) : bool :=
  match s with EmptyString => true | _ => false end.

(** [/^v\d+\.\d+\.\d+$/] *)
Definition version_pattern : string -> bool :=
  lit "v" (digits_plus (lit "." (digits_plus (lit "." (digits_plus at_end))))).

(** [isValidPolicyPath(filePath)] *)
Definition isValidPolicyPath (filePath : string) : bool :=
  let parts := split "/" filePath in
  (3 <=? length parts)%nat &&
  bool_decide (parts !! 0%nat = Some "policies") &&
  match parts !! 2%nat with
  | Some v => version_pattern v
  | None => false
  end.

(** [extractPolicyFolder(filePath)], [None] for [null]. *)
Definition extractPolicyFolder (filePath : string) : option string :=
  let parts := split "/" filePath in
  if (3 <=? length parts)%nat && bool_decide (parts !! 0%nat = Some "policies")
  then Some (default "" (parts !! 0%nat) +:+ "/" +:+
             default "" (parts !! 1%nat) +:+ "/" +:+
             default "" (parts !! 2%nat))
  else None.

(** ** The runtime *)

(** Library functions of Node that the action calls and whose results it
    only passes on or compares: [path.resolve], [encodeURIComponent] and
    [String.prototype.localeCompare] (by the sign of its result). *)
Class Runtime := {
  path_resolve : string -> string -> string;
  encodeURIComponent : string -> string;
  localeCompare : string -> string -> comparison;
}.

(** ** Environment and store *)

(** A text with what [JSON.parse] makes of it: the value, or the
    SyntaxError thrown. *)
Record Body := {
  text : string;
  json : Result JsVal;
}.

(** A request handed to [makeRequest]: the method, the URL, the bearer
    token, and for a POST the idempotency key and the object whose JSON
    text is the body. *)
Record Request := {
  method : string;
  url : string;
  authorization : string;
  idempotencyKey : option JsVal;
  payload : option JsVal;
}.

(** How [makeRequest] settles: with the response, or rejected with an
    error (connection failure, timeout). *)
Inductive HttpOutcome : Type :=
  | Response (statusCode : Z) (body : Body)
  | Rejected (msg : string).

(** The delivery state file: unreadable (the read fails other than by
    ENOENT, or the text is not JSON) or holding the JSON object of delivery
    records, by policy path, as the action writes it.  A path with no file
    is ENOENT. *)
Inductive StateFile : Type :=
  | Unreadable (msg : string)
  | Holds (records : gmap string JsVal).

(** What a write that fails leaves at the path.  When [fs.mkdir] or the
    opening of the file fails, nothing has changed.  [fs.writeFile] opens
    the file for writing, which empties it, before it writes: when it
    fails after that, the file holds a part of the text, possibly none,
    which is not JSON ([msg] is what [JSON.parse] says of it), or, when
    only the closing fails, the whole text. *)
Inductive Leftover : Type :=
  | Untouched
  | Truncated (msg : string)
  | Written.

(** A write that fails: the message of the error thrown, and what is left
    of the file. *)
Record WriteFailure := {
  write_message : string;
  leaves : Leftover;
}.

Record Env := {
  inputs : gmap string string;          (* core.getInput *)
  GITHUB_SHA : string;                  (* process.env.GITHUB_SHA, empty when unset *)
  chdir_error : string -> option string; (* process.chdir throws this *)
  git : list string -> Result string;   (* execGit: trimmed stdout, or the failure *)
  write_error : string -> option WriteFailure; (* fs.mkdir / fs.writeFile fails *)
  registry : Request -> HttpOutcome;
  now : string;                         (* new Date().toISOString() *)
}.

(** The value of an output: a string, or the JSON text of a value. *)
Inductive OutputValue : Type :=
  | Plain (s : string)
  | Json (v : JsVal).

Record Store := {
  files : gmap string StateFile;
  outputs : list (string * OutputValue);   (* core.setOutput, in order *)
  sent : list Request;                     (* requests issued, in order *)
  failed : option string;                  (* core.setFailed *)
}.

(** Computations of the action: they read the environment, change the
    store, and return or throw. *)
Definition M (A : Type) : Type := Env -> Store -> Result A * Store.

Definition ret {A} (a : A) : M A := fun _ st => (Ok a, st).
Definition throw {A} (e : JsError) : M A := fun _ st => (Throw e, st).
Definition bind {A B} (m : M A) (k : A -> M B) : M B :=
  fun env st =>
    match m env st with
    | (Ok a, st') => k a env st'
    | (Throw e, st') => (Throw e, st')
    end.
(** [try { m } catch (error) { h error }] *)
Definition try_catch {A} (m : M A) (h : JsError -> M A) : M A :=
  fun env st =>
    match m env st with
    | (Ok a, st') => (Ok a, st')
    | (Throw e, st') => h e env st'
    end.
Definition ask {A} (f : Env -> A) : M A := fun env st => (Ok (f env), st).
Definition lift {A} (r : Result A) : M A := fun _ st => (r, st).

#[global] Instance M_ret : MRet M := @ret.
#[global] Instance M_bind : MBind M := fun A B k m => bind m k.

(** [core.getInput(name, { required })]: the value supplied, the empty
    string when none is; a required input that is empty throws.  The
    values of [inputs] are taken as the toolkit hands them out, trimmed. *)
Definition getInput (name : string) (required : bool) : M string :=
  fun env st =>
    let val := default "" (inputs env !! name) in
    if required && String.eqb val ""
    then (Throw (Error ("Input required and not supplied: " +:+ name)), st)
    else (Ok val, st).

(** [core.setOutput(name, value)] *)
Definition setOutput (name : string) (value : OutputValue) : M unit :=
  fun _ st =>
    (Ok tt, {| files := files st;
               outputs := outputs st ++ [(name, value)];
               sent := sent st;
               failed := failed st |}).

(** [core.setFailed(message)] *)
Definition setFailed (msg : string) : M unit :=
  fun _ st =>
    (Ok tt, {| files := files st; outputs := outputs st; sent := sent st;
               failed := Some msg |}).

(** [process.chdir(dir)] *)
Definition chdir (dir : string) : M unit :=
  fun env st =>
    match chdir_error env dir with
    | Some msg => (Throw (Error msg), st)
    | None => (Ok tt, st)
    end.

(** [execGit(args)] *)
Definition execGit (args : list string) : M string :=
  fun env st => (git env args, st).

(** The TypeError with which [http.request] refuses a header whose
    value is [undefined]. *)
Definition invalid_header (name : string) : JsError :=
  TypeError ("Invalid value " +:+ quote +:+ "undefined" +:+ quote +:+
             " for header " +:+ quote +:+ name +:+ quote).

(** [makeRequest(url, options, body)].  [http.request] throws for a
    header whose value is [undefined], inside the executor of the promise:
    the promise is rejected with that error and nothing is sent. *)
Definition makeRequest (req : Request) : M (Z * Body) :=
  fun env st =>
    match idempotencyKey req with
    | Some JUndefined => (Throw (invalid_header "X-Idempotency-Key"), st)
    | _ =>
        let st' := {| files := files st; outputs := outputs st;
                      sent := sent st ++ [req]; failed := failed st |} in
        match registry env req with
        | Response code body => (Ok (code, body), st')
        | Rejected msg => (Throw (Error msg), st')
        end
    end.

(** [JSON.parse(text)] *)
Definition JSON_parse (b : Body) : Result JsVal := json b.

(** [readDeliveryState(stateFilePath)] *)
Definition readDeliveryState (stateFilePath : string) : M (gmap string JsVal) :=
  fun _ st =>
    match files st !! stateFilePath with
    | None => (Ok ∅, st)
    | Some (Holds records) => (Ok records, st)
    | Some (Unreadable msg) =>
        (Throw (Error ("Failed to read delivery state: " +:+ msg)), st)
    end.

(** The files after a write of [state] to [file] that failed. *)
Definition left_by (failure : WriteFailure) (file : string)
    (state : gmap string JsVal) (before : gmap string StateFile)
    : gmap string StateFile :=
  match leaves failure with
  | Untouched => before
  | Truncated msg => <[file := Unreadable msg]> before
  | Written => <[file := Holds state]> before
  end.

(** [writeDeliveryState(stateFilePath, state)] *)
Definition writeDeliveryState (stateFilePath : string)
    (state : gmap string JsVal) : M unit :=
  fun env st =>
    match write_error env stateFilePath with
    | Some failure =>
        (Throw (Error (write_message failure)),
         {| files := left_by failure stateFilePath state (files st);
            outputs := outputs st;
            sent := sent st;
            failed := failed st |})
    | None =>
        (Ok tt, {| files := <[stateFilePath := Holds state]> (files st);
                   outputs := outputs st;
                   sent := sent st;
                   failed := failed st |})
    end.

(** [object[key] = value], for an object that [JSON.parse] or [{}] made
    and a [value] that is an object: the own property [key] is set.  The
    key [__proto__] is the exception when the object has no own property
    of that name: the assignment then reaches the setter inherited from
    [Object.prototype], which makes [value] the prototype of the object
    and gives it no property, so that [JSON.stringify] writes the object
    as it was. *)
Definition assign (object : gmap string JsVal) (key : string) (value : JsVal)
    : gmap string JsVal :=
  if String.eqb key "__proto__" && bool_decide (object !! key = None) then object
  else <[key := value]> object.

(** ** The operations *)

(** An entry of the detection result. *)
Record Policy := {
  path : string;
  name : string;
  version : string;
}.

Definition policy_json (p : Policy) : JsVal :=
  JObj [("path", JStr (path p)); ("name", JStr (name p)); ("version", JStr (version p))].

(** What [detectChangedPolicies] returns: [{ policies, count }]. *)
Record Detection := {
  policies : list Policy;
  count : nat;
}.

(** [setDetectionOutputs(policies, count)] *)
Definition setDetectionOutputs (ps : list Policy) (n : nat) : M Detection :=
  let matrixConfig := JObj [("include", JArr (map policy_json ps))] in
  setOutput "changed-policies" (Json (JArr (map policy_json ps))) ;;
  setOutput "changed-policies-matrix" (Json matrixConfig) ;;
  setOutput "policy-count" (Plain (pretty n)) ;;
  mret {| policies := ps; count := n |}.

(** [set.add(x)] on a [Set], kept in insertion order. *)
Definition set_add (x : string) (set : list string) : list string :=
  if bool_decide (x ∈ set) then set else set ++ [x].

(** The body of the loop over the changed files. *)
Definition collectStep (set : list string) (file : string) : list string :=
  if isValidPolicyPath file then
    match extractPolicyFolder file with
    | Some folder => if String.eqb folder "" then set else set_add folder set
    | None => set
    end
  else set.

(** The loop over the changed files that fills [policyFolders]. *)
Definition collectFolders (changedFiles : list string) : list string :=
  foldl collectStep [] changedFiles.

(** The loop that builds [policies] from the folders. *)
Definition folderPolicy (folder : string) : Policy :=
  let parts := split "/" folder in
  {| path := folder;
     name := default "" (parts !! 1%nat);
     version := default "" (parts !! 2%nat) |}.

(** [deliveryState[key]], [undefined] when the key is absent.  Keys are
    policy paths; the names that every object inherits ([constructor] and
    the like) are not, and are not modelled. *)
Definition lookup_record (deliveryState : gmap string JsVal) (key : string) : JsVal :=
  default JUndefined (deliveryState !! key).

Section Operations.
Context {rt : Runtime}.

(** The comparison function given to [newPolicies.sort]. *)
Definition comparePolicies (a b : Policy) : comparison :=
  if bool_decide (name a ≠ name b) then localeCompare (name a) (name b)
  else localeCompare (version a) (version b).

(** [Array.prototype.sort] is stable; with a consistent comparison
    function its result is the stable sorted arrangement, which
    insertion from the right computes. *)
Fixpoint insert_sorted (x : Policy) (l : list Policy) : list Policy :=
  match l with
  | [] => [x]
  | y :: rest =>
      match comparePolicies x y with
      | Gt => y :: insert_sorted x rest
      | _ => x :: l
      end
  end.

Definition sort (l : list Policy) : list Policy := foldr insert_sorted [] l.

(** [detectChangedPolicies()] *)
Definition detectChangedPolicies (workspace : string) : M Detection :=
  baselineSha ← getInput "baseline-sha" true;
  chdir workspace ;;
  try_catch (execGit ["cat-file"; "-e"; baselineSha])
    (fun _ => throw (Error ("Baseline SHA " +:+ baselineSha +:+
                             " does not exist in repository"))) ;;
  diffOutput ← execGit ["diff"; "--name-only"; baselineSha +:+ "..HEAD"];
  if String.eqb diffOutput "" then setDetectionOutputs [] 0
  else
    let changedFiles :=
      filter (fun line => line ≠ "") (split "010" diffOutput) in
    let policyFolders := collectFolders changedFiles in
    if bool_decide (length policyFolders = 0%nat) then setDetectionOutputs [] 0
    else
      let policies := map folderPolicy policyFolders in
      stateFileInput ← getInput "state-file" false;
      let stateFile :=
        if String.eqb stateFileInput "" then ".state/delivered.json"
        else stateFileInput in
      let stateFilePath := path_resolve workspace stateFile in
      deliveryState ← readDeliveryState stateFilePath;
      let newPolicies :=
        filter (fun policy => truthy (lookup_record deliveryState (path policy)) = false)
               policies in
      let sorted := sort newPolicies in
      setDetectionOutputs sorted (length sorted).

(** What [shouldDeliver] returns.  [lastDeliveredAt] is absent from the
    object of the first branch, [undefined] here. *)
Record DeliveryDecision := {
  shouldDeliver_ : bool;
  reason : string;
  decision_message : string;
  lastDeliveredAt : JsVal;
}.

(** [shouldDeliver(policyPath, deliveryState)] *)
Definition shouldDeliver (policyPath : string)
    (deliveryState : gmap string JsVal) : Result DeliveryDecision :=
  let record := lookup_record deliveryState policyPath in
  if negb (truthy record) then
    Ok {| shouldDeliver_ := true;
          reason := "never-delivered";
          decision_message := "Policy version has never been delivered";
          lastDeliveredAt := JUndefined |}
  else
    match get_prop record "deliveredAt" with
    | Ok deliveredAt =>
        Ok {| shouldDeliver_ := false;
              reason := "version-immutable";
              decision_message :=
                "Policy version already delivered and is immutable (delivered at "
                +:+ js_to_string deliveredAt +:+ ")";
              lastDeliveredAt := deliveredAt |}
    | Throw e => Throw e
    end.

(** [checkDeliveryStatus()] *)
Definition checkDeliveryStatus (workspace : string) : M DeliveryDecision :=
  policyPath ← getInput "policy-path" true;
  stateFile ← getInput "state-file" true;
  let stateFilePath := path_resolve workspace stateFile in
  deliveryState ← readDeliveryState stateFilePath;
  decision ← lift (shouldDeliver policyPath deliveryState);
  setOutput "should-deliver"
    (Plain (if shouldDeliver_ decision then "true" else "false")) ;;
  setOutput "delivery-reason" (Plain (reason decision)) ;;
  mret decision.

(** [updatePolicyRecord(state, policyPath, releaseTag)]: the assignment
    [state[policyPath] = { deliveredAt, release }], at time [time]. *)
Definition updatePolicyRecord (state : gmap string JsVal)
    (policyPath releaseTag time : string) : gmap string JsVal :=
  assign state policyPath
    (JObj [("deliveredAt", JStr time); ("release", JStr releaseTag)]).

(** What [updateDeliveryState] would return: [{ updated, previousSha }]. *)
Record StateUpdate := {
  updated : bool;
  previousSha : JsVal;
}.

(** [updateDeliveryState()].  [previousSha] is declared nowhere: the
    return statement throws a ReferenceError. *)
Definition updateDeliveryState (workspace : string) : M StateUpdate :=
  policyPath ← getInput "policy-path" true;
  releaseTag ← getInput "release-tag" true;
  stateFile ← getInput "state-file" true;
  let stateFilePath := path_resolve workspace stateFile in
  state ← readDeliveryState stateFilePath;
  time ← ask now;
  let state := updatePolicyRecord state policyPath releaseTag time in
  writeDeliveryState stateFilePath state ;;
  setOutput "state-updated" (Plain "true") ;;
  throw (ReferenceError "previousSha is not defined").

(** What [checkPolicyExistsInApi] returns: [{ exists, data }]. *)
Record Existence := {
  exists_ : bool;
  existing : JsVal;
}.

(** [checkPolicyExistsInApi(apiUrl, apiKey, policyName, policyVersion)] *)
Definition checkPolicyExistsInApi (apiUrl apiKey policyName policyVersion : string)
    : M Existence :=
  try_catch
    (let url := apiUrl +:+ "/policies/" +:+ encodeURIComponent policyName
                +:+ "/" +:+ encodeURIComponent policyVersion in
     '(statusCode, body) ← makeRequest
        {| method := "GET"; url := url; authorization := apiKey;
           idempotencyKey := None; payload := None |};
     if (statusCode =? 200)%Z then
       data ← lift (JSON_parse body);
       mret {| exists_ := true; existing := data |}
     else if (statusCode =? 404)%Z then
       mret {| exists_ := false; existing := JUndefined |}
     else
       throw (Error ("API returned unexpected status " +:+ pretty statusCode
                     +:+ ": " +:+ text body)))
    (fun error =>
       throw (Error ("Failed to check policy existence: " +:+ message error))).

(** [updateStateForExistingPolicy(stateFilePath, policyPath)] *)
Definition updateStateForExistingPolicy (stateFilePath policyPath : string) : M unit :=
  try_catch
    (deliveryState ← readDeliveryState stateFilePath;
     time ← ask now;
     let deliveryState :=
       assign deliveryState policyPath
         (JObj [("deliveredAt", JStr time);
                ("release", JStr "api-existing");
                ("note", JStr "Policy exists in API - marked as delivered")]) in
     writeDeliveryState stateFilePath deliveryState)
    (fun _ => mret tt).

(** What [checkApiExistence] returns. *)
Record ApiCheck := {
  apiAvailable : bool;
  policyExists : bool;
  shouldSkip : bool;
}.

(** [checkApiExistence()] *)
Definition checkApiExistence (workspace : string) : M ApiCheck :=
  policyName ← getInput "policy-name" true;
  policyVersion ← getInput "policy-version" true;
  policySha ← getInput "policy-sha" true;
  apiUrl ← getInput "api-url" true;
  apiKey ← getInput "api-key" true;
  stateFile ← getInput "state-file" true;
  try_catch
    (existsResult ← checkPolicyExistsInApi apiUrl apiKey policyName policyVersion;
     if exists_ existsResult then
       let stateFilePath := path_resolve workspace stateFile in
       policyPath ← getInput "policy-path" false;
       updateStateForExistingPolicy stateFilePath policyPath ;;
       setOutput "api-available" (Plain "true") ;;
       setOutput "policy-exists-in-api" (Plain "true") ;;
       setOutput "should-skip" (Plain "true") ;;
       setOutput "check-result" (Plain "exists-in-api") ;;
       mret {| apiAvailable := true; policyExists := true; shouldSkip := true |}
     else
       setOutput "api-available" (Plain "true") ;;
       setOutput "policy-exists-in-api" (Plain "false") ;;
       setOutput "should-skip" (Plain "false") ;;
       setOutput "check-result" (Plain "not-in-api") ;;
       mret {| apiAvailable := true; policyExists := false; shouldSkip := false |})
    (fun error =>
       setOutput "api-available" (Plain "false") ;;
       setOutput "policy-exists-in-api" (Plain "false") ;;
       setOutput "should-skip" (Plain "false") ;;
       setOutput "check-result" (Plain "check-failed") ;;
       mret {| apiAvailable := false; policyExists := false; shouldSkip := false |}).

(** What [publishToApi] returns: [{ success, statusCode, message, data }]
    or, from the catch, [{ success, message, error }]. *)
Record PublishResult := {
  success : bool;
  status : option Z;
  publish_message : JsVal;
  data : option JsVal;
  error : option JsError;
}.

(** [publishToApi(apiUrl, apiKey, payload)], for the payload object that
    [preparePolicyPayload] builds, given by its properties. *)
Definition publishToApi (apiUrl apiKey : string)
    (payloadProps : list (string * JsVal)) : M PublishResult :=
  let url := apiUrl +:+ "/policies" in
  sha ← ask GITHUB_SHA;
  let key :=
    js_or (JStr sha) (default JUndefined (assoc "commitSha" payloadProps)) in
  try_catch
    ('(statusCode, body) ← makeRequest
        {| method := "POST"; url := url; authorization := apiKey;
           idempotencyKey := Some key; payload := Some (JObj payloadProps) |};
     let responseData :=
       match JSON_parse body with
       | Ok v => v
       | Throw _ => JObj [("message", JStr (text body))]
       end in
     if (200 <=? statusCode)%Z && (statusCode <? 300)%Z then
       msg ← lift (get_prop responseData "message");
       mret {| success := true;
               status := Some statusCode;
               publish_message := js_or msg (JStr "Policy published successfully");
               data := Some responseData;
               error := None |}
     else if (statusCode =? 409)%Z then
       mret {| success := true;
               status := Some statusCode;
               publish_message := JStr "Policy already published (idempotent)";
               data := Some responseData;
               error := None |}
     else
       msg ← lift (get_prop responseData "message");
       mret {| success := false;
               status := Some statusCode;
               publish_message :=
                 js_or msg (JStr ("API returned status " +:+ pretty statusCode));
               data := Some responseData;
               error := None |})
    (fun e =>
       mret {| success := false;
               status := None;
               publish_message := JStr (message e);
               data := None;
               error := Some e |}).

(** [run()], the entry point: it selects the operation by the
    [operation] input and turns any exception into a failure of the
    action.  [validatePolicy] and [publishPolicy], which read the policy
    folder, are taken as given. *)
Definition run (validatePolicy publishPolicy : string -> M unit) : M unit :=
  try_catch
    (operation ← getInput "operation" true;
     workspace ← getInput "workspace" true;
     (if String.eqb operation "detect" then
        detectChangedPolicies workspace ;; mret tt
      else if String.eqb operation "validate" then
        validatePolicy workspace
      else if String.eqb operation "check-status" then
        checkDeliveryStatus workspace ;; mret tt
      else if String.eqb operation "check-api-existence" then
        checkApiExistence workspace ;; mret tt
      else if String.eqb operation "publish" then
        publishPolicy workspace
      else if String.eqb operation "update-state" then
        updateDeliveryState workspace ;; mret tt
      else throw (Error ("Unknown operation: " +:+ operation))))
    (fun error => setFailed ("❌ Operation failed: " +:+ message error)).

End Operations.

(** ** The baseline decision *)

Module Reconciler.

(** Modelled from the spec: the terminal state of an artifact in a run
    (section 3, RunOutcome).  The workflow that collects the outcomes of
    the jobs and rewrites [.state/baseline.sha] is not among the
    sources. *)
Inductive Status : Type :=
  | Skipped
  | Delivered
  | ValidationFailed
  | PublishFailed.

(** Modelled from the spec: the outcome of one artifact in one run,
    [{ id, status }] (section 3, RunOutcome). *)
Record RunOutcome := {
  id : string;
  status : Status;
}.

(** Modelled from the spec: the outcomes that keep the baseline where it
    is, ValidationFailed and PublishFailed (section 4.5, step 5). *)
Definition is_failure (s : Status) : bool :=
  match s with
  | ValidationFailed | PublishFailed => true
  | Skipped | Delivered => false
  end.

(** Modelled from the spec: how a run ends, with a fatal error (the
    baseline cannot be resolved, the ledger cannot be written) or with
    one outcome for each artifact of its change set (section 7). *)
Inductive RunEnd : Type :=
  | Fatal (reason : string)
  | Completed (outcomes : list RunOutcome).

Section Baseline.
Context {CommitRef : Type}.

(** Modelled from the spec: the baseline decision (section 4.5, step
    5): advance to head if the outcomes contain no ValidationFailed
    and no PublishFailed, otherwise leave the baseline unchanged; a
    fatal error changes nothing. *)
Definition advances (r : RunEnd) : bool :=
  match r with
  | Fatal _ => false
  | Completed outcomes => negb (existsb (fun o => is_failure (status o)) outcomes)
  end.

(** Modelled from the spec: the baseline after the run, the head when
    the baseline advances and the baseline before the run otherwise
    (section 3, Baseline). *)
Definition nextBaseline (baseline head : CommitRef) (r : RunEnd) : CommitRef :=
  if advances r then head else baseline.
End Baseline.

End Reconciler.

(** ** Vocabulary of the statements *)

(** The character [c] occurs in [s]. *)
Fixpoint occurs (c : ascii) (s : string) : bool :=
  match s with
  | EmptyString => false
  | String c' rest => Ascii.eqb c' c || occurs c rest
  end.

(** Every character of [s] is a digit. *)
Fixpoint only_digits (s : string) : bool :=
  match s with
  | EmptyString => true
  | String c rest => is_digit c && only_digits rest
  end.

(** [v<digits>.<digits>.<digits>] *)
Definition semver (v : string) : Prop :=
  ∃ major minor patch,
    v = "v" +:+ major +:+ "." +:+ minor +:+ "." +:+ patch ∧
    major ≠ "" ∧ minor ≠ "" ∧ patch ≠ "" ∧
    only_digits major = true ∧ only_digits minor = true ∧ only_digits patch = true.

(** The lines of the diff that name a file. *)
Definition changedFiles (diffOutput : string) : list string :=
  filter (fun line => line ≠ "") (split "010" diffOutput).

(** [file] lies in the folder of the policy [p]: its first segment is
    [policies], its second and third are the name and the version of [p],
    and the version has the pattern. *)
Definition changes (file : string) (p : Policy) : Prop :=
  ∃ nm ver rest,
    split "/" file = "policies" :: nm :: ver :: rest ∧
    semver ver ∧
    p = {| path := "policies/" +:+ nm +:+ "/" +:+ ver; name := nm; version := ver |}.

(** The entry of the delivery state marks the path as delivered. *)
Definition delivered (state : gmap string JsVal) (key : string) : Prop :=
  truthy (lookup_record state key) = true.

(** The order of the sort: by name, then by version. *)
Definition by_name_then_version {rt : Runtime} (a b : Policy) : Prop :=
  localeCompare (name a) (name b) = Lt ∨
  (name a = name b ∧ localeCompare (version a) (version b) ≠ Gt).

(** [localeCompare] orders the strings [strs]: among them it is a total
    order in which only equal strings tie.  Nothing is said of how it
    compares other strings. *)
Definition collates {rt : Runtime} (strs : list string) : Prop :=
  ∀ s t, s ∈ strs → t ∈ strs →
    (localeCompare s t = Eq ↔ s = t) ∧
    localeCompare t s = CompOpp (localeCompare s t) ∧
    ∀ u, u ∈ strs →
      localeCompare s t = Lt → localeCompare t u = Lt → localeCompare s u = Lt.

(** [localeCompare] orders the names of the policies [ps], and their
    versions: the strings that a sort of [ps] compares. *)
Definition collated {rt : Runtime} (ps : list Policy) : Prop :=
  collates (map name ps) ∧ collates (map version ps).

(** The name and the version of [p] are among [names] and [versions]. *)
Definition among (names versions : list string) (p : Policy) : Prop :=
  name p ∈ names ∧ version p ∈ versions.

(** The state file that the detection reads. *)
Definition detectionStateFile {rt : Runtime} (env : Env) (workspace : string) : string :=
  path_resolve workspace
    (match inputs env !! "state-file" with
     | Some f => if String.eqb f "" then ".state/delivered.json" else f
     | None => ".state/delivered.json"
     end).

(** The content of a state file as [readDeliveryState] sees it. *)
Definition ledger (st : Store) (file : string) : option (gmap string JsVal) :=
  match files st !! file with
  | None => Some ∅
  | Some (Holds records) => Some records
  | Some (Unreadable _) => None
  end.

(** The policies that the detection selects from the changed files,
    given the delivery state. *)
Definition pendingPolicies {rt : Runtime} (state : gmap string JsVal)
    (files : list string) : list Policy :=
  sort (filter (fun policy => truthy (lookup_record state (path policy)) = false)
          (map folderPolicy (collectFolders files))).

(** The outputs that [setDetectionOutputs] sets. *)
Definition detectionOutputs (ps : list Policy) (n : nat) : list (string * OutputValue) :=
  [("changed-policies", Json (JArr (map policy_json ps)));
   ("changed-policies-matrix", Json (JObj [("include", JArr (map policy_json ps))]));
   ("policy-count", Plain (pretty n))].

(** The store after more outputs have been set. *)
Definition with_outputs (st : Store) (outs : list (string * OutputValue)) : Store :=
  {| files := files st; outputs := outputs st ++ outs; sent := sent st;
     failed := failed st |}.

(** The request of the probe. *)
Definition probeRequest {rt : Runtime}
    (apiUrl apiKey policyName policyVersion : string) : Request :=
  {| method := "GET";
     url := apiUrl +:+ "/policies/" +:+ encodeURIComponent policyName
            +:+ "/" +:+ encodeURIComponent policyVersion;
     authorization := apiKey;
     idempotencyKey := None;
     payload := None |}.

(** The request of the publication. *)
Definition publishRequest (apiUrl apiKey sha : string)
    (payloadProps : list (string * JsVal)) : Request :=
  {| method := "POST";
     url := apiUrl +:+ "/policies";
     authorization := apiKey;
     idempotencyKey :=
       Some (js_or (JStr sha) (default JUndefined (assoc "commitSha" payloadProps)));
     payload := Some (JObj payloadProps) |}.

(** The store after the request [req] has been sent. *)
Definition with_sent (st : Store) (req : Request) : Store :=
  {| files := files st; outputs := outputs st; sent := sent st ++ [req];
     failed := failed st |}.

(** The outputs that [checkApiExistence] sets. *)
Definition probeOutputs (available found skip result : string)
    : list (string * OutputValue) :=
  [("api-available", Plain available); ("policy-exists-in-api", Plain found);
   ("should-skip", Plain skip); ("check-result", Plain result)].

(** The probe did not get an answer it understands: the request was
    rejected, the status is neither 200 nor 404, or the body of a 200 is
    not JSON. *)
Definition probe_failed (outcome : HttpOutcome) : Prop :=
  match outcome with
  | Rejected _ => True
  | Response code body =>
      (code ≠ 200%Z ∧ code ≠ 404%Z) ∨ (code = 200%Z ∧ ∃ e, json body = Throw e)
  end.

(** The record written for a policy that the registry reports. *)
Definition existingRecord (time : string) : JsVal :=
  JObj [("deliveredAt", JStr time);
        ("release", JStr "api-existing");
        ("note", JStr "Policy exists in API - marked as delivered")].

(** What the body of a response is taken for: its JSON value, or an
    object with the text as [message]. *)
Definition responseDataOf (body : Body) : JsVal :=
  match json body with
  | Ok v => v
  | Throw _ => JObj [("message", JStr (text body))]
  end.

(** A computation that leaves the state files alone, sends nothing and
    does not fail the action: all it may do to the store is set
    outputs. *)
Definition quiet {A} (m : M A) : Prop :=
  ∀ env st,
    files (m env st).2 = files st ∧
    sent (m env st).2 = sent st ∧
    failed (m env st).2 = failed st.

(** The required input [name] is supplied, with value [v]. *)
Definition supplied (env : Env) (name v : string) : Prop :=
  inputs env !! name = Some v ∧ v ≠ "".

(** ** A concrete setting, for examples *)

Definition example_runtime : Runtime :=
  {| path_resolve ws f := ws +:+ "/" +:+ f;
     encodeURIComponent s := s;
     localeCompare := String.compare |}.

(** The letter é in its two spellings, in UTF-8: U+00E9, and [e] followed
    by the combining accent U+0301.  The two strings are canonically
    equivalent. *)
Definition e_acute : string := String "195" (String "169" "").
Definition e_with_accent : string := String "e" (String "204" (String "129" "")).

(** The composed spelling of a string: every [e] with the combining
    accent becomes U+00E9. *)
Fixpoint composed (s : string) : string :=
  match s with
  | String "e" (String "204" (String "129" rest)) => e_acute +:+ composed rest
  | String c rest => String c (composed rest)
  | EmptyString => EmptyString
  end.

(** A runtime whose [localeCompare] returns 0 for canonically equivalent
    strings, as ECMAScript requires of it and as the collator of Node
    does: it compares the composed spellings. *)
Definition canonical_runtime : Runtime :=
  {| path_resolve ws f := ws +:+ "/" +:+ f;
     encodeURIComponent s := s;
     localeCompare s t := String.compare (composed s) (composed t) |}.

Definition example_inputs (operation : string) : gmap string string :=
  list_to_map
    [("operation", operation); ("workspace", "/repo"); ("baseline-sha", "c1");
     ("state-file", ".state/delivered.json");
     ("policy-path", "policies/x/v1.0.0"); ("policy-name", "x");
     ("policy-version", "v1.0.0"); ("policy-sha", "c5");
     ("release-tag", "r2");
     ("api-url", "https://hub.example"); ("api-key", "secret")].

Definition example_git (resolvable : bool) (diff : string)
    (args : list string) : Result string :=
  match args with
  | cmd :: _ =>
      if String.eqb cmd "cat-file" then
        if resolvable then Ok "" else Throw (Error "Git command failed: ")
      else if String.eqb cmd "diff" then Ok diff
      else Throw (Error "Git command failed: ")
  | [] => Throw (Error "Git command failed: ")
  end.

Definition example_env_for (operation : string) (resolvable : bool)
    (diff : string) (answer : HttpOutcome) : Env :=
  {| inputs := example_inputs operation;
     GITHUB_SHA := "c5";
     chdir_error := fun _ => None;
     git := example_git resolvable diff;
     write_error := fun _ => None;
     registry := fun _ => answer;
     now := "2025-12-16T10:30:00.000Z" |}.

Definition example_env : bool -> string -> HttpOutcome -> Env :=
  example_env_for "detect".

Definition empty_store : Store :=
  {| files := ∅; outputs := []; sent := []; failed := None |}.

Definition example_file : string := "/repo/.state/delivered.json".

Definition example_record : JsVal :=
  JObj [("deliveredAt", JStr "2025-01-01T00:00:00.000Z"); ("release", JStr "r1")].

(** A store whose state file records [policies/x/v1.0.0]. *)
Definition delivered_store : Store :=
  {| files := {[ example_file := Holds {[ "policies/x/v1.0.0" := example_record ]} ]};
     outputs := []; sent := []; failed := None |}.

Definition policy_x : Policy :=
  {| path := "policies/x/v1.0.0"; name := "x"; version := "v1.0.0" |}.
Definition policy_a : Policy :=
  {| path := "policies/a/v1.0.0"; name := "a"; version := "v1.0.0" |}.
Definition policy_b : Policy :=
  {| path := "policies/b/v2.0.0"; name := "b"; version := "v2.0.0" |}.

(** Two policies whose names are the two spellings of é. *)
Definition policy_e1 : Policy :=
  {| path := "policies/" +:+ e_acute +:+ "/v1.0.0";
     name := e_acute; version := "v1.0.0" |}.
Definition policy_e2 : Policy :=
  {| path := "policies/" +:+ e_with_accent +:+ "/v1.0.0";
     name := e_with_accent; version := "v1.0.0" |}.

(** ** The policy folder: validation and publication *)

(** How [fs.readFile(path, 'utf8')] settles: with the text (and what
    [JSON.parse] makes of it), with the error ENOENT, or with another
    error. *)
Inductive ReadOutcome : Type :=
  | FileText (content : Body)
  | NoEntry (msg : string)
  | ReadFailed (msg : string).

(** What the operations on the policy folder take from Node and from the
    checked-out tree, which they only read: [path.join], the iteration of
    a string by [for ... of], the message of the TypeError that
    [path.join] throws for an argument that is not a string, [fs.access]
    (whether it resolves), [fs.readFile] and [fs.readdir]. *)
Class Host := {
  path_join : string -> string -> string;
  code_points : string -> list string;
  invalid_path_message : JsVal -> string;
  access : string -> bool;
  readFile : string -> ReadOutcome;
  readdir : string -> Result (list string);
}.

(** [s.endsWith(suffix)] *)
Fixpoint endsWith (s suffix : string) : bool :=
  String.eqb s suffix ||
  match s with
  | EmptyString => false
  | String _ rest => endsWith rest suffix
  end.

(** The white space and line terminators that [trim] removes, in UTF-8:
    of one byte (tab, line feed, vertical tab, form feed, carriage return,
    space), of two (U+00A0), of three (U+1680, U+2000 to U+200A, U+2028,
    U+2029, U+202F, U+205F, U+3000, U+FEFF). *)
Definition space1 (a : nat) : bool :=
  (((9 <=? a) && (a <=? 13)) || (a =? 32))%nat.

Definition space2 (a b : nat) : bool := ((a =? 194) && (b =? 160))%nat.

Definition space3 (a b c : nat) : bool :=
  (((a =? 225) && (b =? 154) && (c =? 128)) ||
   ((a =? 226) && (b =? 128) &&
    (((128 <=? c) && (c <=? 138)) || (c =? 168) || (c =? 169) || (c =? 175))) ||
   ((a =? 226) && (b =? 129) && (c =? 159)) ||
   ((a =? 227) && (b =? 128) && (c =? 128)) ||
   ((a =? 239) && (b =? 187) && (c =? 191)))%nat.

(** [s.trim().length === 0]: the text is white space throughout. *)
Fixpoint is_blank (s : string) : bool :=
  match s with
  | EmptyString => true
  | String c1 r1 =>
      if space1 (nat_of_ascii c1) then is_blank r1
      else
        match r1 with
        | EmptyString => false
        | String c2 r2 =>
            if space2 (nat_of_ascii c1) (nat_of_ascii c2) then is_blank r2
            else
              match r2 with
              | EmptyString => false
              | String c3 r3 =>
                  if space3 (nat_of_ascii c1) (nat_of_ascii c2) (nat_of_ascii c3)
                  then is_blank r3
                  else false
              end
        end
  end.

(** [v?.k] for a data property [k] that no prototype defines. *)
Definition opt_get (v : JsVal) (k : string) : JsVal :=
  match v with
  | JObj props => default JUndefined (assoc k props)
  | _ => JUndefined
  end.

(** [v !== s] for a string [s] *)
Definition differs_from (v : JsVal) (s : string) : bool :=
  match v with
  | JStr t => negb (String.eqb t s)
  | _ => true
  end.

(** The value that [core.setOutput] writes for [v]: nothing for
    [undefined] and [null], a string as it is, the JSON text of anything
    else. *)
Definition output_of (v : JsVal) : OutputValue :=
  match v with
  | JUndefined | JNull => Plain ""
  | JStr s => Plain s
  | _ => Json v
  end.

(** An entry of [result.errors]: [{ message, file, type }]. *)
Record ValidationError := {
  error_message : string;
  error_file : string;
  error_type : string;
}.

Definition error_json (e : ValidationError) : JsVal :=
  JObj [("message", JStr (error_message e)); ("file", JStr (error_file e));
        ("type", JStr (error_type e))].

(** What [validatePolicy] returns: [{ valid, errors, warnings }]. *)
Record ValidationReport := {
  valid : bool;
  errors : list ValidationError;
  warnings : list ValidationError;
}.

(** The values that [for (const doc of requiredDocs)] goes through. *)
Definition iterate {host : Host} (v : JsVal) : Result (list JsVal) :=
  match v with
  | JArr items => Ok items
  | JStr s => Ok (map JStr (code_points s))
  | _ => Throw (TypeError "requiredDocs is not iterable")
  end.

(** The documentation required when the configuration names none. *)
Definition defaultDocs : JsVal :=
  JArr [JStr "overview.md"; JStr "configuration.md"; JStr "examples.md"].

Section Folder.
Context {rt : Runtime} {host : Host}.

(** [fileExists(filePath)] *)
Definition fileExists (filePath : string) : bool := access filePath.

(** [readJsonFile(filePath)]: [null] when there is no such file; any
    other error, that of [JSON.parse] too, is thrown on. *)
Definition readJsonFile (filePath : string) : M JsVal :=
  match readFile filePath with
  | FileText content => lift (JSON_parse content)
  | NoEntry _ => mret JNull
  | ReadFailed msg => throw (Error msg)
  end.

(** The body of the two loops of [validateStructure]. *)
Definition requireEntry (policyDir kind entry : string)
    (errors : list ValidationError) : list ValidationError :=
  if fileExists (path_join policyDir entry) then errors
  else errors ++ [{| error_message := "Missing required " +:+ kind +:+ ": " +:+ entry;
                     error_file := entry;
                     error_type := "error" |}].

(** [validateStructure(policyDir, result)] *)
Definition validateStructure (policyDir : string)
    (errors : list ValidationError) : list ValidationError :=
  let errors :=
    foldl (fun errors file => requireEntry policyDir "file" file errors)
      errors ["metadata.json"; "policy-definition.yaml"] in
  foldl (fun errors dir => requireEntry policyDir "directory" dir errors)
    errors ["docs"; "src"].

(** The body of the loop of [validateMetadata] over the required
    fields. *)
Definition requireField (metadata : JsVal) (field : string)
    (errors : list ValidationError) : list ValidationError :=
  if truthy (opt_get metadata field) then errors
  else errors ++ [{| error_message := "metadata.json missing required field: " +:+ field;
                     error_file := "metadata.json";
                     error_type := "error" |}].

(** The two comparisons of [validateMetadata] with the folder. *)
Definition requireSame (metadata : JsVal) (field what expected : string)
    (errors : list ValidationError) : list ValidationError :=
  let actual := opt_get metadata field in
  if truthy actual && differs_from actual expected then
    errors ++ [{| error_message :=
                    "metadata.json " +:+ field +:+ " " +:+ quote +:+
                    js_to_string actual +:+ quote +:+ " does not match folder " +:+
                    what +:+ " " +:+ quote +:+ expected +:+ quote;
                  error_file := "metadata.json";
                  error_type := "error" |}]
  else errors.

(** [validateMetadata(policyDir, policyName, policyVersion, result)] *)
Definition validateMetadata (policyDir policyName policyVersion : string)
    (errors : list ValidationError) : M (list ValidationError) :=
  metadata ← readJsonFile (path_join policyDir "metadata.json");
  if negb (truthy metadata) then mret errors
  else
    let errors :=
      foldl (fun errors field => requireField metadata field errors)
        errors ["name"; "version"; "description"; "author"] in
    let errors := requireSame metadata "name" "name" policyName errors in
    let errors := requireSame metadata "version" "version" policyVersion errors in
    mret errors.

(** The loop of [validateDocumentation] over the required documents. *)
Fixpoint requireDocs (docsDir : string) (docs : list JsVal)
    (errors : list ValidationError) : M (list ValidationError) :=
  match docs with
  | [] => mret errors
  | JStr doc :: rest =>
      requireDocs docsDir rest
        (if fileExists (path_join docsDir doc) then errors
         else errors ++
              [{| error_message := "Missing required documentation file: docs/" +:+ doc;
                  error_file := "docs/" +:+ doc;
                  error_type := "error" |}])
  | doc :: _ => throw (TypeError (invalid_path_message doc))
  end.

(** [validateDocumentation(policyDir, config, result)] *)
Definition validateDocumentation (policyDir : string) (config : JsVal)
    (errors : list ValidationError) : M (list ValidationError) :=
  let docsDir := path_join policyDir "docs" in
  if negb (fileExists docsDir) then mret errors
  else
    let requiredDocs :=
      js_or (opt_get (opt_get config "validation") "requiredDocs") defaultDocs in
    docs ← lift (iterate requiredDocs);
    requireDocs docsDir docs errors.

(** The test of [validateSource] on a file name. *)
Definition isSourceFile (f : string) : bool :=
  endsWith f ".go" || endsWith f ".js" || endsWith f ".ts" || endsWith f ".py".

(** [validateSource(policyDir, result)] *)
Definition validateSource (policyDir : string)
    (errors : list ValidationError) : list ValidationError :=
  let srcDir := path_join policyDir "src" in
  if negb (fileExists srcDir) then errors
  else
    match readdir srcDir with
    | Ok files =>
        let sourceFiles := List.filter isSourceFile files in
        if (length sourceFiles =? 0)%nat then
          errors ++ [{| error_message := "No source files found in src/ directory";
                        error_file := "src/";
                        error_type := "error" |}]
        else errors
    | Throw e =>
        errors ++ [{| error_message := "Failed to read src/ directory: " +:+ message e;
                      error_file := "src/";
                      error_type := "error" |}]
    end.

(** [validatePolicyDefinition(policyDir, result)] *)
Definition validatePolicyDefinition (policyDir : string)
    (errors : list ValidationError) : list ValidationError :=
  let definitionPath := path_join policyDir "policy-definition.yaml" in
  if negb (fileExists definitionPath) then errors
  else
    match readFile definitionPath with
    | FileText content =>
        if is_blank (text content) then
          errors ++ [{| error_message := "policy-definition.yaml is empty";
                        error_file := "policy-definition.yaml";
                        error_type := "error" |}]
        else errors
    | NoEntry msg | ReadFailed msg =>
        errors ++ [{| error_message := "Failed to read policy-definition.yaml: " +:+ msg;
                      error_file := "policy-definition.yaml";
                      error_type := "error" |}]
    end.

(** [validatePolicy()] *)
Definition validatePolicy (workspace : string) : M ValidationReport :=
  policyPath ← getInput "policy-path" true;
  configFile ← getInput "config-file" true;
  let parts := split "/" policyPath in
  if negb (length parts =? 3)%nat || negb (bool_decide (parts !! 0%nat = Some "policies"))
  then throw (Error ("Invalid policy path format: " +:+ policyPath))
  else
    let policyName := default "" (parts !! 1%nat) in
    let policyVersion := default "" (parts !! 2%nat) in
    let policyDir := path_resolve workspace policyPath in
    let configPath := path_resolve workspace configFile in
    if negb (fileExists policyDir)
    then throw (Error ("Policy directory does not exist: " +:+ policyDir))
    else
      config ← readJsonFile configPath;
      let errors := validateStructure policyDir [] in
      errors ← validateMetadata policyDir policyName policyVersion errors;
      errors ← validateDocumentation policyDir config errors;
      let errors := validateSource policyDir errors in
      let errors := validatePolicyDefinition policyDir errors in
      let isValid := (length errors =? 0)%nat in
      setOutput "valid" (Plain (if isValid then "true" else "false")) ;;
      setOutput "validation-errors" (Json (JArr (map error_json errors))) ;;
      setOutput "validation-warnings" (Json (JArr [])) ;;
      if negb isValid then
        throw (Error ("Policy validation failed with " +:+ pretty (length errors)
                      +:+ " error(s)"))
      else mret {| valid := isValid; errors := errors; warnings := [] |}.

(** [preparePolicyPayload(policyDir, policyName, policyVersion)], the
    payload object by its properties, in the order they are set. *)
Definition preparePolicyPayload (policyDir policyName policyVersion : string)
    : M (list (string * JsVal)) :=
  sha ← ask GITHUB_SHA;
  time ← ask now;
  let payload :=
    [("name", JStr policyName); ("version", JStr policyVersion);
     ("commitSha", js_or (JStr sha) (JStr "unknown"));
     ("timestamp", JStr time)] in
  let payload :=
    match readFile (path_join policyDir "metadata.json") with
    | FileText content =>
        match JSON_parse content with
        | Ok metadata => (payload ++ [("metadata", metadata)])%list
        | Throw _ => payload
        end
    | NoEntry _ | ReadFailed _ => payload
    end in
  let payload :=
    match readFile (path_join policyDir "policy-definition.yaml") with
    | FileText content => (payload ++ [("definition", JStr (text content))])%list
    | NoEntry _ | ReadFailed _ => payload
    end in
  mret payload.

(** [publishPolicy()] *)
Definition publishPolicy (workspace : string) : M PublishResult :=
  policyPath ← getInput "policy-path" true;
  policyName ← getInput "policy-name" true;
  policyVersion ← getInput "policy-version" true;
  policySha ← getInput "policy-sha" true;
  apiUrl ← getInput "api-url" true;
  apiKey ← getInput "api-key" true;
  let policyDir := path_resolve workspace policyPath in
  payload ← preparePolicyPayload policyDir policyName policyVersion;
  result ← publishToApi apiUrl apiKey payload;
  setOutput "published" (Plain (if success result then "true" else "false")) ;;
  setOutput "api-response" (output_of (publish_message result)) ;;
  let policyUrl := opt_get (default JUndefined (data result)) "url" in
  (if truthy policyUrl then setOutput "policy-url" (output_of policyUrl)
   else mret tt) ;;
  if negb (success result) then
    throw (Error ("Failed to publish policy: " +:+
                  js_to_string (publish_message result)))
  else mret result.

(** The action: [run()] with the six operations of the class. *)
Definition main : M unit :=
  run (fun workspace => validatePolicy workspace ;; mret tt)
      (fun workspace => publishPolicy workspace ;; mret tt).

End Folder.

(** ** Vocabulary of the further statements *)

(** The computation [m] leaves the part [part] of the store as it is. *)
Definition preserves {X A} (part : Store -> X) (m : M A) : Prop :=
  ∀ env st, part (m env st).2 = part st.

(** The store [st'] is [st] but for the state file [file], which is as a
    write that failed with [failure] leaves it: as it was, truncated and
    not JSON any more, or holding a state. *)
Definition after_failed_write (failure : WriteFailure) (file : string)
    (st st' : Store) : Prop :=
  outputs st' = outputs st ∧ sent st' = sent st ∧ failed st' = failed st ∧
  (∀ other, other ≠ file → files st' !! other = files st !! other) ∧
  match leaves failure with
  | Untouched => files st' = files st
  | Truncated msg => files st' !! file = Some (Unreadable msg)
  | Written => ∃ state, files st' !! file = Some (Holds state)
  end.

(** The idempotency key of the requests of [publishPolicy]: the commit of
    the release, [unknown] when [GITHUB_SHA] is not set. *)
Definition releaseKey (env : Env) : JsVal :=
  JStr (if String.eqb (GITHUB_SHA env) "" then "unknown" else GITHUB_SHA env).

(** The operation that [run] selects. *)
Definition selected (env : Env) : string := default "" (inputs env !! "operation").

(** A printable character other than the space. *)
Definition printable (c : ascii) : bool :=
  ((33 <=? nat_of_ascii c) && (nat_of_ascii c <=? 126))%nat.

(** The one-byte white space of [trim]. *)
Definition ascii_space (c : ascii) : bool := space1 (nat_of_ascii c).

Fixpoint all_chars (test : ascii -> bool) (s : string) : bool :=
  match s with
  | EmptyString => true
  | String c rest => test c && all_chars test rest
  end.

Fixpoint some_char (test : ascii -> bool) (s : string) : bool :=
  match s with
  | EmptyString => false
  | String c rest => test c || some_char test rest
  end.

(** The metadata draws no error from [validateMetadata] for the policy
    [policyName] at [policyVersion]: unless it is falsy, it has the four
    required fields, and its name and version are those of the folder. *)
Definition metadata_agrees (metadata : JsVal) (policyName policyVersion : string)
    : Prop :=
  truthy metadata = true →
  (∀ field, field ∈ ["name"; "version"; "description"; "author"] →
            truthy (opt_get metadata field) = true) ∧
  opt_get metadata "name" = JStr policyName ∧
  opt_get metadata "version" = JStr policyVersion.

(** The outputs that [validatePolicy] sets. *)
Definition validationOutputs (errors : list ValidationError)
    : list (string * OutputValue) :=
  [("valid", Plain (if (length errors =? 0)%nat then "true" else "false"));
   ("validation-errors", Json (JArr (map error_json errors)));
   ("validation-warnings", Json (JArr []))].

(** ** A policy folder, for examples *)

(** A tree given by the paths that exist, the texts of its files and the
    entries of its [src] directories. *)
Definition example_host (paths : list string) (texts : list (string * Body))
    (sources : list string) : Host :=
  {| path_join dir entry := dir +:+ "/" +:+ entry;
     code_points s := map (fun c => String c EmptyString) (list_ascii_of_string s);
     invalid_path_message _ := "The path argument must be of type string";
     access p := bool_decide (p ∈ paths);
     readFile p :=
       match list_find (fun e => e.1 = p) texts with
       | Some (_, (_, content)) => FileText content
       | None => NoEntry ("ENOENT: no such file or directory, open '" +:+ p +:+ "'")
       end;
     readdir _ := Ok sources |}.

Definition example_metadata : JsVal :=
  JObj [("name", JStr "x"); ("version", JStr "v1.0.0");
        ("description", JStr "An example"); ("author", JStr "hub")].

Definition example_dir : string := "/repo/policies/x/v1.0.0".

(** A complete folder for [policies/x/v1.0.0]. *)
Definition complete_host : Host :=
  example_host
    [example_dir; example_dir +:+ "/metadata.json";
     example_dir +:+ "/policy-definition.yaml";
     example_dir +:+ "/docs"; example_dir +:+ "/src";
     example_dir +:+ "/docs/overview.md"; example_dir +:+ "/docs/configuration.md";
     example_dir +:+ "/docs/examples.md"]
    [(example_dir +:+ "/metadata.json",
      {| text := "{...}"; json := Ok example_metadata |});
     (example_dir +:+ "/policy-definition.yaml",
      {| text := "name: x"; json := Throw (SyntaxError "Unexpected token") |})]
    ["main.go"].

(** The inputs of the examples, with a configuration file that does not
    exist. *)
Definition folder_env (operation : string) (answer : HttpOutcome) : Env :=
  {| inputs := <["config-file" := "config/policy-hub-config.json"]>
                 (example_inputs operation);
     GITHUB_SHA := "c5";
     chdir_error := fun _ => None;
     git := example_git true "";
     write_error := fun _ => None;
     registry := fun _ => answer;
     now := "2025-12-16T10:30:00.000Z" |}.

(** The environment of an update whose write of the state file fails
    for lack of space, leaving the file as said. *)
Definition failing_env (left : Leftover) : Env :=
  {| inputs := example_inputs "update-state";
     GITHUB_SHA := "c5";
     chdir_error := fun _ => None;
     git := example_git true "";
     write_error := fun _ =>
       Some {| write_message := "ENOSPC: no space left on device, write";
               leaves := left |};
     registry := fun _ => Rejected "";
     now := "2025-12-16T10:30:00.000Z" |}.

(** The failure of the write of the example state file. *)
Definition failure_of (env : Env) : WriteFailure :=
  default {| write_message := ""; leaves := Untouched |}
    (write_error env example_file).

(** The environment of a run one minute later. *)
Definition later_env : Env :=
  {| inputs := example_inputs "check-api-existence";
     GITHUB_SHA := "c5";
     chdir_error := fun _ => None;
     git := example_git true "";
     write_error := fun _ => None;
     registry := fun _ => Rejected "";
     now := "2025-12-16T10:31:00.000Z" |}.

(** A store whose state file cannot be read. *)
Definition corrupt_store : Store :=
  {| files := {[ example_file := Unreadable "Unexpected end of JSON input" ]};
     outputs := []; sent := []; failed := None |}.

(** * Properties *)

Example split_ex : split "/" "policies/x/v1.0.0/docs/a.md" = ["policies"; "x"; "v1.0.0"; "docs"; "a.md"].
Proof. reflexivity. Qed.
Example split_ex2 : split "/" "a//b/" = ["a"; ""; "b"; ""].
Proof. reflexivity. Qed.
Example valid_ex : isValidPolicyPath "policies/x/v1.0.10/docs/a.md" = true.
Proof. reflexivity. Qed.
Example valid_ex2 : isValidPolicyPath "policies/x/v1.0/docs/a.md" = false.
Proof. reflexivity. Qed.
Example valid_ex3 : isValidPolicyPath "policies/x/v1.0.0a" = false.
Proof. reflexivity. Qed.
Example folder_ex : extractPolicyFolder "policies/x/v1.0.10/docs/a.md" = Some "policies/x/v1.0.10".
Proof. reflexivity. Qed.
Example tostr_ex : js_to_string (JArr [JNum 200; JNull; JStr "a"]) = "200,,a".
Proof. vm_compute. reflexivity. Qed.

Example detect_ex :
  let diff := "policies/b/v2.0.0/metadata.json" +:+ String "010" "policies/a/v1.0.0/src/main.go" in
  fst (detectChangedPolicies (rt := example_runtime) "/repo"
         (example_env true diff (Rejected "")) empty_store)
  = Ok {| policies := [policy_a; policy_b]; count := 2 |}.
Proof. vm_compute. reflexivity. Qed.

Example detect_ex2 :
  fst (detectChangedPolicies (rt := example_runtime) "/repo"
         (example_env true "policies/x/v1.0.0/metadata.json" (Rejected "")) delivered_store)
  = Ok {| policies := []; count := 0 |}.
Proof. vm_compute. reflexivity. Qed.

Example shouldDeliver_new :
  shouldDeliver_ <$> (match shouldDeliver "policies/y/v0.1.0"
                              {[ "policies/x/v1.0.0" := example_record ]} with
                      | Ok d => Some d | Throw _ => None end) = Some true.
Proof. vm_compute. reflexivity. Qed.

Example shouldDeliver_delivered :
  shouldDeliver "policies/x/v1.0.0" {[ "policies/x/v1.0.0" := example_record ]} =
    Ok {| shouldDeliver_ := false;
          reason := "version-immutable";
          decision_message :=
            "Policy version already delivered and is immutable (delivered at 2025-01-01T00:00:00.000Z)";
          lastDeliveredAt := JStr "2025-01-01T00:00:00.000Z" |}.
Proof. vm_compute. reflexivity. Qed.

Example publish_created :
  let body := {| text := "{}"; json := Ok (JObj []) |} in
  (publishToApi "https://hub.example" "secret" [("commitSha", JStr "c5")]
     (example_env true "" (Response 201 body)) empty_store).1 =
    Ok {| success := true; status := Some 201%Z;
          publish_message := JStr "Policy published successfully";
          data := Some (JObj []); error := None |}.
Proof. vm_compute. reflexivity. Qed.

Example publish_conflict :
  let body := {| text := "null"; json := Ok JNull |} in
  (publishToApi "https://hub.example" "secret" [("commitSha", JStr "c5")]
     (example_env true "" (Response 409 body)) empty_store).1 =
    Ok {| success := true; status := Some 409%Z;
          publish_message := JStr "Policy already published (idempotent)";
          data := Some JNull; error := None |}.
Proof. vm_compute. reflexivity. Qed.

Example publish_server_error :
  let body := {| text := "down"; json := Throw (SyntaxError "Unexpected token d") |} in
  (publishToApi "https://hub.example" "secret" [("commitSha", JStr "c5")]
     (example_env true "" (Response 503 body)) empty_store).1 =
    Ok {| success := false; status := Some 503%Z;
          publish_message := JStr "down";
          data := Some (JObj [("message", JStr "down")]); error := None |}.
Proof. vm_compute. reflexivity. Qed.

Example publish_timeout :
  (publishToApi "https://hub.example" "secret" [("commitSha", JStr "c5")]
     (example_env true "" (Rejected "Request timeout after 30000ms")) empty_store).1 =
    Ok {| success := false; status := None;
          publish_message := JStr "Request timeout after 30000ms";
          data := None; error := Some (Error "Request timeout after 30000ms") |}.
Proof. vm_compute. reflexivity. Qed.

Example assign_proto :
  assign ∅ "__proto__" example_record = ∅ ∧
  assign {[ "__proto__" := JNull ]} "__proto__" example_record
    = {[ "__proto__" := example_record ]} ∧
  assign ∅ "constructor" example_record = {[ "constructor" := example_record ]}.
Proof. split_and!; vm_compute; reflexivity. Qed.

Example update_proto :
  let env := {| inputs := <["policy-path" := "__proto__"]> (example_inputs "update-state");
                GITHUB_SHA := "c5";
                chdir_error := fun _ => None;
                git := example_git true "";
                write_error := fun _ => None;
                registry := fun _ => Rejected "";
                now := "2025-12-16T10:30:00.000Z" |} in
  ledger (updateDeliveryState (rt := example_runtime) "/repo" env delivered_store).2
    example_file = ledger delivered_store example_file.
Proof. vm_compute. reflexivity. Qed.

Example publish_without_key :
  let env := {| inputs := example_inputs "publish";
                GITHUB_SHA := "";
                chdir_error := fun _ => None;
                git := example_git true "";
                write_error := fun _ => None;
                registry := fun _ => Response 201 {| text := "{}"; json := Ok (JObj []) |};
                now := "2025-12-16T10:30:00.000Z" |} in
  let r := publishToApi "https://hub.example" "secret" [("name", JStr "x")]
             env empty_store in
  success <$> (match r.1 with Ok result => Some result | Throw _ => None end)
    = Some false ∧
  r.2 = empty_store.
Proof. split; vm_compute; reflexivity. Qed.

Example truncated_write :
  let r := updateStateForExistingPolicy example_file "policies/a/v1.0.0"
             (failing_env (Truncated "Unexpected end of JSON input"))
             delivered_store in
  r.1 = Ok tt ∧ ledger r.2 example_file = None.
Proof. split; vm_compute; reflexivity. Qed.

Example probe_not_found :
  (checkApiExistence (rt := example_runtime) "/repo"
     (example_env true "" (Response 404 {| text := ""; json := Throw (SyntaxError "") |}))
     empty_store).1 =
    Ok {| apiAvailable := true; policyExists := false; shouldSkip := false |}.
Proof. vm_compute. reflexivity. Qed.

(** ** Splitting *)

Lemma split_nonempty sep s : split sep s ≠ [].
Proof.
  destruct s as [|c s]; simpl; [done|].
  destruct (Ascii.eqb c sep); [done|].
  by destruct (split sep s).
Qed.

(** The parts of a split do not contain the separator. *)
Lemma split_parts_free sep s part :
  part ∈ split sep s → occurs sep part = false.
Proof.
  revert part. induction s as [|c s IH]; simpl; intros part Hin.
  - apply list_elem_of_singleton in Hin. by subst.
  - destruct (Ascii.eqb c sep) eqn:Hc.
    + apply elem_of_cons in Hin as [->|Hin]; [done|by apply IH].
    + destruct (split sep s) as [|p ps] eqn:Hs.
      * apply list_elem_of_singleton in Hin. subst. simpl. by rewrite Hc.
      * apply elem_of_cons in Hin as [->|Hin].
        -- simpl. rewrite Hc. apply IH. by left.
        -- apply IH. by right.
Qed.

(** A string without the separator is its own single part. *)
Lemma split_free sep s : occurs sep s = false → split sep s = [s].
Proof.
  induction s as [|c s IH]; simpl; [done|].
  intros [Hc Hs]%orb_false_elim. rewrite Hc, (IH Hs). done.
Qed.

Lemma split_app sep a b :
  occurs sep a = false →
  split sep (a +:+ String sep b) = a :: split sep b.
Proof.
  induction a as [|c a IH]; simpl.
  - intros _. by rewrite Ascii.eqb_refl.
  - intros [Hc Ha]%orb_false_elim. by rewrite Hc, (IH Ha).
Qed.

(** The folder of a file splits back into its three segments. *)
Lemma split_folder nm ver :
  occurs "/" nm = false → occurs "/" ver = false →
  split "/" ("policies/" +:+ nm +:+ "/" +:+ ver) = ["policies"; nm; ver].
Proof.
  intros Hn Hv.
  change ("policies/" +:+ nm +:+ "/" +:+ ver)
    with ("policies" +:+ String "/" (nm +:+ String "/" ver)).
  rewrite split_app by done. rewrite split_app by done.
  by rewrite split_free.
Qed.

(** ** The version pattern *)

Lemma digits_star_run k a r :
  only_digits a = true →
  (∀ c r', r = String c r' → is_digit c = false) →
  digits_star k (a +:+ r) = k r.
Proof.
  intros Ha Hr. induction a as [|c a IH]; simpl in *.
  - destruct r as [|c r']; [done|]. simpl. by rewrite (Hr c r').
  - apply andb_true_iff in Ha as [-> Ha]. by apply IH.
Qed.

Lemma digits_star_inv k s :
  digits_star k s = true →
  ∃ a r, s = a +:+ r ∧ only_digits a = true ∧ k r = true.
Proof.
  induction s as [|c s IH]; simpl.
  - intros Hk. by exists "", "".
  - destruct (is_digit c) eqn:Hc.
    + intros (a & r & -> & Ha & Hk)%IH.
      exists (String c a), r. simpl. by rewrite Hc, Ha.
    + intros Hk. by exists "", (String c s).
Qed.

Lemma digits_plus_inv k s :
  digits_plus k s = true →
  ∃ a r, s = a +:+ r ∧ a ≠ "" ∧ only_digits a = true ∧ k r = true.
Proof.
  destruct s as [|c s]; simpl; [done|].
  intros [Hc (a & r & -> & Ha & Hk)%digits_star_inv]%andb_true_iff.
  exists (String c a), r. simpl. by rewrite Hc, Ha.
Qed.

Lemma digits_plus_run k a r :
  a ≠ "" → only_digits a = true →
  (∀ c r', r = String c r' → is_digit c = false) →
  digits_plus k (a +:+ r) = k r.
Proof.
  intros Hne Ha Hr. destruct a as [|c a]; [done|]. simpl in *.
  apply andb_true_iff in Ha as [-> Ha]. simpl. by apply digits_star_run.
Qed.

Lemma lit_inv c k s : lit c k s = true → ∃ r, s = String c r ∧ k r = true.
Proof.
  destruct s as [|c' s]; simpl; [done|].
  intros [->%Ascii.eqb_eq Hk]%andb_true_iff. by exists s.
Qed.

Lemma append_empty s : s +:+ "" = s.
Proof.
  induction s as [|c s IH]; [done|].
  change (String c s +:+ "") with (String c (s +:+ "")). by rewrite IH.
Qed.

Lemma digits_star_end s : only_digits s = true → digits_star at_end s = true.
Proof.
  induction s as [|c s IH]; simpl; [done|].
  intros [-> Hs]%andb_true_iff. by apply IH.
Qed.

Lemma digits_plus_end s :
  s ≠ "" → only_digits s = true → digits_plus at_end s = true.
Proof.
  destruct s as [|c s]; [done|]. simpl.
  intros _ [-> Hs]%andb_true_iff. by apply digits_star_end.
Qed.

(** The matcher decides the pattern [v<digits>.<digits>.<digits>]. *)
Lemma version_pattern_semver v : version_pattern v = true ↔ semver v.
Proof.
  unfold version_pattern, semver. split.
  - intros (r1 & -> & H1)%lit_inv.
    apply digits_plus_inv in H1 as (a & r2 & -> & Hane & Ha & H2).
    apply lit_inv in H2 as (r3 & -> & H3).
    apply digits_plus_inv in H3 as (b & r4 & -> & Hbne & Hb & H4).
    apply lit_inv in H4 as (r5 & -> & H5).
    apply digits_plus_inv in H5 as (c & r6 & -> & Hcne & Hc & H6).
    destruct r6; [|done]. rewrite append_empty.
    by exists a, b, c.
  - intros (a & b & c & -> & Hane & Hbne & Hcne & Ha & Hb & Hc).
    change (digits_plus (lit "." (digits_plus (lit "." (digits_plus at_end))))
              (a +:+ String "." (b +:+ String "." c)) = true).
    rewrite digits_plus_run; [|done..|by intros ?? [= <- _]].
    change (digits_plus (lit "." (digits_plus at_end)) (b +:+ String "." c) = true).
    rewrite digits_plus_run; [|done..|by intros ?? [= <- _]].
    by apply digits_plus_end.
Qed.

(** ** The changed folders *)

Lemma valid_split file :
  isValidPolicyPath file = true ↔
  ∃ nm ver rest,
    split "/" file = "policies" :: nm :: ver :: rest ∧ version_pattern ver = true.
Proof.
  unfold isValidPolicyPath. split.
  - intros [[_ H0%bool_decide_eq_true]%andb_true_iff H2]%andb_true_iff.
    destruct (split "/" file) as [|p0 [|nm [|ver rest]]]; simplify_eq/=.
    by exists nm, ver, rest.
  - by intros (nm & ver & rest & -> & Hv).
Qed.

Lemma changes_valid file p :
  changes file p →
  isValidPolicyPath file = true ∧
  extractPolicyFolder file = Some (path p) ∧
  folderPolicy (path p) = p.
Proof.
  intros (nm & ver & rest & Hs & Hv & ->). split_and!.
  - apply valid_split. exists nm, ver, rest. by rewrite version_pattern_semver.
  - unfold extractPolicyFolder. by rewrite Hs.
  - unfold folderPolicy. cbn [path]. rewrite split_folder; [done|..].
    + apply (split_parts_free _ file). rewrite Hs. set_solver.
    + apply (split_parts_free _ file). rewrite Hs. set_solver.
Qed.

Lemma valid_changes file :
  isValidPolicyPath file = true →
  ∃ p, changes file p ∧ extractPolicyFolder file = Some (path p).
Proof.
  intros (nm & ver & rest & Hs & Hv%version_pattern_semver)%valid_split.
  exists {| path := "policies/" +:+ nm +:+ "/" +:+ ver; name := nm; version := ver |}.
  split; [by exists nm, ver, rest|].
  unfold extractPolicyFolder. by rewrite Hs.
Qed.

(** A policy is determined by its name and its version. *)
Lemma changes_name_version f1 f2 p1 p2 :
  changes f1 p1 → changes f2 p2 →
  name p1 = name p2 → version p1 = version p2 → p1 = p2.
Proof.
  intros (n1 & v1 & r1 & _ & _ & ->) (n2 & v2 & r2 & _ & _ & ->). simpl.
  by intros -> ->.
Qed.

Lemma set_add_elem x y set : y ∈ set_add x set ↔ y = x ∨ y ∈ set.
Proof. unfold set_add. case_bool_decide; set_solver. Qed.

Lemma set_add_NoDup x set : NoDup set → NoDup (set_add x set).
Proof.
  unfold set_add. case_bool_decide; [done|].
  intros Hnd. apply NoDup_app. split_and!; [done| |apply NoDup_singleton].
  intros y Hy ->%list_elem_of_singleton. done.
Qed.

Section Folders.

Lemma step_elem set file x :
  x ∈ collectStep set file ↔
  x ∈ set ∨ (isValidPolicyPath file = true ∧ extractPolicyFolder file = Some x).
Proof.
  unfold collectStep. destruct (isValidPolicyPath file) eqn:Hv; [|naive_solver].
  destruct (valid_changes file Hv) as (p & Hp & Hf). rewrite Hf.
  destruct Hp as (nm & ver & rest & _ & _ & ->). simpl.
  rewrite set_add_elem. naive_solver.
Qed.

Lemma step_NoDup set file : NoDup set → NoDup (collectStep set file).
Proof.
  unfold collectStep. destruct (isValidPolicyPath file); [|done].
  destruct (extractPolicyFolder file); [|done].
  destruct (String.eqb _ _); [done|]. apply set_add_NoDup.
Qed.

Lemma foldl_step_elem files set x :
  x ∈ foldl collectStep set files ↔
  x ∈ set ∨ ∃ file, file ∈ files ∧ isValidPolicyPath file = true ∧
                     extractPolicyFolder file = Some x.
Proof.
  revert set. induction files as [|f files IH]; intros set; simpl.
  - set_solver.
  - rewrite IH, step_elem. set_solver.
Qed.

Lemma foldl_step_NoDup files set :
  NoDup set → NoDup (foldl collectStep set files).
Proof.
  revert set. induction files as [|f files IH]; intros set; simpl; [done|].
  intros Hnd. by apply IH, step_NoDup.
Qed.

(** The folders collected are those of the valid changed files, each
    once. *)
Lemma collectFolders_elem files x :
  x ∈ collectFolders files ↔
  ∃ file, file ∈ files ∧ isValidPolicyPath file = true ∧
          extractPolicyFolder file = Some x.
Proof. unfold collectFolders. rewrite foldl_step_elem. set_solver. Qed.

Lemma collectFolders_NoDup files : NoDup (collectFolders files).
Proof. apply (foldl_step_NoDup files []), NoDup_nil_2. Qed.

End Folders.

(** The order of the changed files does not change which folders are
    collected. *)
Lemma collectFolders_Permutation files1 files2 :
  files1 ≡ₚ files2 → collectFolders files1 ≡ₚ collectFolders files2.
Proof.
  intros Hp. apply NoDup_Permutation; [apply collectFolders_NoDup..|].
  intros x. rewrite !collectFolders_elem. by setoid_rewrite Hp.
Qed.

(** ** Sorting *)

Section Sorting.
Context {rt : Runtime}.

Lemma insert_sorted_Permutation x l : insert_sorted x l ≡ₚ x :: l.
Proof.
  induction l as [|y l IH]; simpl; [done|].
  destruct (comparePolicies x y); [done..|].
  rewrite IH. apply Permutation_swap.
Qed.

(** Sorting rearranges, it neither drops nor repeats. *)
Lemma sort_Permutation l : sort l ≡ₚ l.
Proof.
  induction l as [|x l IH]; simpl; [done|].
  change (foldr insert_sorted [] l) with (sort l).
  by rewrite insert_sorted_Permutation, IH.
Qed.

Lemma sort_elem p l : p ∈ sort l ↔ p ∈ l.
Proof. by rewrite sort_Permutation. Qed.

Lemma sort_NoDup l : NoDup l → NoDup (sort l).
Proof. by rewrite sort_Permutation. Qed.

Lemma sort_length l : length (sort l) = length l.
Proof. by rewrite sort_Permutation. Qed.

Lemma collates_refl strs s : collates strs → s ∈ strs → localeCompare s s = Eq.
Proof. intros H Hs. by apply (H s s). Qed.

Lemma collates_eq strs s t :
  collates strs → s ∈ strs → t ∈ strs → localeCompare s t = Eq → s = t.
Proof. intros H Hs Ht. by apply (H s t). Qed.

Lemma collates_flip strs s t :
  collates strs → s ∈ strs → t ∈ strs →
  localeCompare t s = CompOpp (localeCompare s t).
Proof. intros H Hs Ht. by apply (H s t). Qed.

Lemma collates_trans strs s t u :
  collates strs → s ∈ strs → t ∈ strs → u ∈ strs →
  localeCompare s t = Lt → localeCompare t u = Lt → localeCompare s u = Lt.
Proof. intros H Hs Ht Hu. by apply (H s t). Qed.

Lemma collates_le_trans strs s t u :
  collates strs → s ∈ strs → t ∈ strs → u ∈ strs →
  localeCompare s t ≠ Gt → localeCompare t u ≠ Gt → localeCompare s u ≠ Gt.
Proof.
  intros H Hs Ht Hu.
  destruct (localeCompare s t) eqn:Hst; [|..|done]; intros _.
  - by apply (collates_eq strs) in Hst as ->.
  - destruct (localeCompare t u) eqn:Htu; [|..|done]; intros _.
    + apply (collates_eq strs) in Htu as <-; [|done..]. by rewrite Hst.
    + by rewrite (collates_trans strs s t u).
Qed.

Lemma collates_subseteq strs1 strs2 :
  strs1 ⊆ strs2 → collates strs2 → collates strs1.
Proof.
  intros Hsub H s t Hs Ht. destruct (H s t) as (? & ? & Htrans); [auto..|].
  split_and!; [done..|]. intros u Hu. apply Htrans. auto.
Qed.

Section Collated.
Variables names versions : list string.
Hypothesis Hnames : collates names.
Hypothesis Hversions : collates versions.

(** When [localeCompare] orders the names and the versions, the
    comparison function is the order by name, then by version. *)
Lemma comparePolicies_le a b :
  among names versions a → among names versions b →
  comparePolicies a b ≠ Gt ↔ by_name_then_version a b.
Proof.
  intros [Han Hav] [Hbn Hbv].
  unfold comparePolicies, by_name_then_version. case_bool_decide as Hn.
  - assert (localeCompare (name a) (name b) ≠ Eq) as Hne.
    { intros Heq. by apply Hn, (collates_eq names). }
    destruct (localeCompare (name a) (name b)); naive_solver.
  - rewrite Hn, (collates_refl names) by done. naive_solver.
Qed.

Lemma comparePolicies_flip a b :
  among names versions a → among names versions b →
  comparePolicies b a = CompOpp (comparePolicies a b).
Proof.
  intros [Han Hav] [Hbn Hbv]. unfold comparePolicies.
  repeat case_bool_decide; try congruence.
  - by apply (collates_flip names).
  - by apply (collates_flip versions).
Qed.

Lemma by_name_then_version_total a b :
  among names versions a → among names versions b →
  comparePolicies a b = Gt → by_name_then_version b a.
Proof.
  intros Ha Hb Hgt. apply comparePolicies_le; [done..|].
  by rewrite (comparePolicies_flip a b), Hgt.
Qed.

Lemma by_name_then_version_trans a b c :
  among names versions a → among names versions b → among names versions c →
  by_name_then_version a b → by_name_then_version b c →
  by_name_then_version a c.
Proof.
  intros [Han Hav] [Hbn Hbv] [Hcn Hcv] [Hab|[Hab Hvab]] [Hbc|[Hbc Hvbc]].
  - left. by apply (collates_trans names _ (name b)).
  - left. by rewrite <- Hbc.
  - left. by rewrite Hab.
  - right. split; [congruence|].
    by apply (collates_le_trans versions _ (version b)).
Qed.

(** Two policies that the order does not separate have the same name
    and the same version. *)
Lemma by_name_then_version_antisym a b :
  among names versions a → among names versions b →
  by_name_then_version a b → by_name_then_version b a →
  name a = name b ∧ version a = version b.
Proof.
  intros [Han Hav] [Hbn Hbv] [Hab|[Hab Hvab]] [Hba|[Hba Hvba]].
  - rewrite (collates_flip names (name a) (name b)), Hab in Hba; done.
  - rewrite Hba, (collates_refl names) in Hab; done.
  - rewrite Hab, (collates_refl names) in Hba; done.
  - split; [done|]. apply (collates_eq versions); [done..|].
    rewrite (collates_flip versions (version a) (version b)) in Hvba by done.
    by destruct (localeCompare (version a) (version b)).
Qed.

Lemma insert_sorted_StronglySorted x l :
  among names versions x → Forall (among names versions) l →
  StronglySorted by_name_then_version l →
  StronglySorted by_name_then_version (insert_sorted x l).
Proof.
  intros Hx Hl Hsorted. induction Hsorted as [|y l Hsorted IH Hy]; simpl.
  - repeat constructor.
  - apply Forall_cons in Hl as [Hyk Hl].
    assert (comparePolicies x y ≠ Gt →
            StronglySorted by_name_then_version (x :: y :: l)) as Hfront.
    { intros Hc. constructor; [by constructor|].
      assert (by_name_then_version x y) as Hxy by by apply comparePolicies_le.
      constructor; [done|]. apply Forall_forall. intros z Hz.
      apply (by_name_then_version_trans x y z); [done..| |done|].
      - by apply (proj1 (Forall_forall _ _) Hl).
      - by apply (proj1 (Forall_forall _ _) Hy). }
    destruct (comparePolicies x y) eqn:Hc; [by apply Hfront..|].
    constructor; [by apply IH|].
    rewrite insert_sorted_Permutation. constructor; [|done].
    by apply by_name_then_version_total.
Qed.

Lemma sort_sorted_among l :
  Forall (among names versions) l →
  StronglySorted by_name_then_version (sort l).
Proof.
  induction l as [|x l IH]; simpl; [constructor|].
  intros [Hx Hl]%Forall_cons.
  apply insert_sorted_StronglySorted; [done| |by apply IH].
  change (foldr insert_sorted [] l) with (sort l). by rewrite sort_Permutation.
Qed.

End Collated.

Lemma collated_among l p : p ∈ l → among (map name l) (map version l) p.
Proof. intros Hp. split; by apply list_elem_of_fmap_2. Qed.

Lemma collated_Permutation l1 l2 : l1 ≡ₚ l2 → collated l1 → collated l2.
Proof.
  intros Hp [Hn Hv].
  split; [apply (collates_subseteq _ (map name l1))
         |apply (collates_subseteq _ (map version l1))]; try done;
    intros x; by rewrite Hp.
Qed.

(** The result of the sort is ordered by name, then by version, when
    [localeCompare] orders the names and the versions it compares. *)
Lemma sort_StronglySorted l :
  collated l → StronglySorted by_name_then_version (sort l).
Proof.
  intros [Hn Hv]. apply (sort_sorted_among (map name l) (map version l) Hn Hv).
  apply Forall_forall. intros p. apply collated_among.
Qed.

End Sorting.

(** ** Steps of a computation *)

Ltac unfold_M :=
  unfold mbind, M_bind, bind, mret, M_ret, ret, throw, try_catch, ask, lift.

Lemma getInput_supplied env st name v required :
  supplied env name v → getInput name required env st = (Ok v, st).
Proof.
  intros [Hin Hne]. unfold getInput. rewrite Hin. simpl.
  destruct (String.eqb_spec v ""); [done|]. by rewrite andb_false_r.
Qed.

Lemma getInput_missing env st name :
  default "" (inputs env !! name) = "" →
  getInput name true env st =
    (Throw (Error ("Input required and not supplied: " +:+ name)), st).
Proof. intros Hin. unfold getInput. by rewrite Hin. Qed.

Lemma readDeliveryState_ledger env st file state :
  ledger st file = Some state → readDeliveryState file env st = (Ok state, st).
Proof.
  unfold ledger, readDeliveryState.
  destruct (files st !! file) as [[msg|records]|]; naive_solver.
Qed.

Lemma readDeliveryState_unreadable env st file :
  ledger st file = None →
  ∃ msg, readDeliveryState file env st =
           (Throw (Error ("Failed to read delivery state: " +:+ msg)), st).
Proof.
  unfold ledger, readDeliveryState.
  destruct (files st !! file) as [[msg|records]|]; naive_solver.
Qed.

Lemma setDetectionOutputs_eq ps n env st :
  setDetectionOutputs ps n env st =
    (Ok {| policies := ps; count := n |}, with_outputs st (detectionOutputs ps n)).
Proof.
  unfold setDetectionOutputs, setOutput, with_outputs, detectionOutputs.
  unfold_M. simpl. by rewrite <- !app_assoc.
Qed.

(** *** Quiet computations *)

Lemma quiet_ret {A} (a : A) : quiet (mret a).
Proof. done. Qed.

Lemma quiet_throw {A} e : quiet (throw (A := A) e).
Proof. done. Qed.

Lemma quiet_ask {A} (f : Env → A) : quiet (ask f).
Proof. done. Qed.

Lemma quiet_lift {A} (r : Result A) : quiet (lift r).
Proof. done. Qed.

Lemma quiet_bind {A B} (m : M A) (k : A → M B) :
  quiet m → (∀ a, quiet (k a)) → quiet (m ≫= k).
Proof.
  intros Hm Hk env st. unfold_M. specialize (Hm env st).
  destruct (m env st) as [[a|e] st1]; simpl in *; [|done].
  specialize (Hk a env st1). naive_solver congruence.
Qed.

Lemma quiet_try_catch {A} (m : M A) (h : JsError → M A) :
  quiet m → (∀ e, quiet (h e)) → quiet (try_catch m h).
Proof.
  intros Hm Hh env st. unfold_M. specialize (Hm env st).
  destruct (m env st) as [[a|e] st1]; simpl in *; [done|].
  specialize (Hh e env st1). naive_solver congruence.
Qed.

Lemma quiet_getInput name required : quiet (getInput name required).
Proof. intros env st. unfold getInput. by destruct (_ && _). Qed.

Lemma quiet_setOutput name value : quiet (setOutput name value).
Proof. done. Qed.

Lemma quiet_chdir dir : quiet (chdir dir).
Proof. intros env st. unfold chdir. by destruct (chdir_error env dir). Qed.

Lemma quiet_execGit args : quiet (execGit args).
Proof. done. Qed.

Lemma quiet_readDeliveryState file : quiet (readDeliveryState file).
Proof.
  intros env st. unfold readDeliveryState.
  by destruct (files st !! file) as [[?|?]|].
Qed.

Lemma quiet_if {A} (b : bool) (m1 m2 : M A) :
  quiet m1 → quiet m2 → quiet (if b then m1 else m2).
Proof. by destruct b. Qed.

Create HintDb quiet.
#[local] Hint Resolve quiet_ret quiet_throw quiet_ask quiet_lift quiet_getInput
  quiet_setOutput quiet_chdir quiet_execGit quiet_readDeliveryState : quiet.

Ltac quiet_steps :=
  repeat first
    [ apply quiet_bind; [|intros ?]
    | apply quiet_try_catch; [|intros ?]
    | apply quiet_if
    | solve [auto with quiet] ].

Lemma quiet_setDetectionOutputs ps n : quiet (setDetectionOutputs ps n).
Proof. unfold setDetectionOutputs. quiet_steps. Qed.

Section Detection.
Context {rt : Runtime}.

(** The detection only sets outputs: it writes no state file and sends
    no request. *)
Lemma quiet_detectChangedPolicies workspace :
  quiet (detectChangedPolicies workspace).
Proof.
  unfold detectChangedPolicies.
  pose proof quiet_setDetectionOutputs.
  quiet_steps; case_bool_decide; quiet_steps.
Qed.

Lemma quiet_checkDeliveryStatus workspace :
  quiet (checkDeliveryStatus workspace).
Proof. unfold checkDeliveryStatus. quiet_steps. Qed.

(** With its inputs supplied, the baseline resolvable and the state
    file readable, the detection returns the pending policies. *)
Lemma detect_pending workspace env st baseline diff state :
  supplied env "baseline-sha" baseline →
  chdir_error env workspace = None →
  (∃ out, git env ["cat-file"; "-e"; baseline] = Ok out) →
  git env ["diff"; "--name-only"; baseline +:+ "..HEAD"] = Ok diff →
  ledger st (detectionStateFile env workspace) = Some state →
  let ps := pendingPolicies state (changedFiles diff) in
  detectChangedPolicies workspace env st =
    (Ok {| policies := ps; count := length ps |},
     with_outputs st (detectionOutputs ps (length ps))).
Proof.
  intros Hb Hcd [out Hcat] Hdiff Hledger ps. unfold detectChangedPolicies.
  unfold_M. rewrite (getInput_supplied _ _ _ _ _ Hb).
  unfold chdir. rewrite Hcd. unfold execGit. rewrite Hcat, Hdiff.
  destruct (String.eqb_spec diff "") as [->|Hne].
  { by rewrite setDetectionOutputs_eq. }
  fold (changedFiles diff). case_bool_decide as Hnil.
  { rewrite setDetectionOutputs_eq. subst ps. unfold pendingPolicies.
    apply nil_length_inv in Hnil. by rewrite Hnil. }
  assert (getInput "state-file" false env st =
          (Ok (default "" (inputs env !! "state-file")), st)) as -> by done.
  assert (path_resolve workspace
            (if String.eqb (default "" (inputs env !! "state-file")) ""
             then ".state/delivered.json"
             else default "" (inputs env !! "state-file"))
          = detectionStateFile env workspace) as ->.
  { unfold detectionStateFile. by destruct (inputs env !! "state-file"). }
  rewrite (readDeliveryState_ledger _ _ _ _ Hledger).
  by rewrite setDetectionOutputs_eq.
Qed.

End Detection.

(** ** The pending policies *)

Section Pending.
Context {rt : Runtime}.

(** The pending policies are those of the changed files that the
    delivery state does not mark as delivered, each once. *)
Lemma pendingPolicies_elem state files p :
  p ∈ pendingPolicies state files ↔
  (∃ file, file ∈ files ∧ changes file p) ∧ ¬ delivered state (path p).
Proof.
  unfold pendingPolicies, delivered.
  rewrite sort_elem, list_elem_of_filter, list_elem_of_fmap.
  setoid_rewrite collectFolders_elem. split.
  - intros [Hund (folder & -> & file & Hin & Hvalid & Hfolder)].
    split; [|by rewrite Hund].
    exists file. split; [done|].
    destruct (valid_changes file Hvalid) as (p & Hp & Hf).
    destruct (changes_valid file p Hp) as (_ & _ & Hfp).
    rewrite Hf in Hfolder. injection Hfolder as <-. by rewrite Hfp.
  - intros [(file & Hin & Hp) Hund].
    destruct (changes_valid file p Hp) as (Hvalid & Hfolder & Hfp).
    split; [by destruct (truthy _)|]. naive_solver.
Qed.

Lemma pendingPolicies_NoDup state files : NoDup (pendingPolicies state files).
Proof.
  unfold pendingPolicies. apply sort_NoDup, NoDup_filter.
  apply NoDup_fmap_2; [|apply collectFolders_NoDup].
  intros f1 f2 Heq. by apply (f_equal path) in Heq.
Qed.

Lemma pendingPolicies_nil state : pendingPolicies state [] = [].
Proof. done. Qed.

(** The outcomes of the detection: it throws before it has set any
    output, or it finds no policy folder among the changed files, or it
    reads the state file and returns the pending policies. *)
Lemma detect_cases workspace env st :
  (∃ e, detectChangedPolicies workspace env st = (Throw e, st)) ∨
  ∃ baseline diff,
    supplied env "baseline-sha" baseline ∧
    chdir_error env workspace = None ∧
    (∃ out, git env ["cat-file"; "-e"; baseline] = Ok out) ∧
    git env ["diff"; "--name-only"; baseline +:+ "..HEAD"] = Ok diff ∧
    ((collectFolders (changedFiles diff) = [] ∧
      detectChangedPolicies workspace env st =
        (Ok {| policies := []; count := 0 |},
         with_outputs st (detectionOutputs [] 0)))
     ∨
     ∃ state,
       ledger st (detectionStateFile env workspace) = Some state ∧
       let ps := pendingPolicies state (changedFiles diff) in
       detectChangedPolicies workspace env st =
         (Ok {| policies := ps; count := length ps |},
          with_outputs st (detectionOutputs ps (length ps)))).
Proof.
  destruct (decide (default "" (inputs env !! "baseline-sha") = "")) as [Hb|Hb].
  { left. eexists. unfold detectChangedPolicies. unfold_M.
    by rewrite getInput_missing. }
  assert (supplied env "baseline-sha" (default "" (inputs env !! "baseline-sha")))
    as Hsup.
  { split; [|done]. destruct (inputs env !! "baseline-sha"); naive_solver. }
  set (baseline := default "" (inputs env !! "baseline-sha")) in *.
  destruct (chdir_error env workspace) as [msg|] eqn:Hcd.
  { left. eexists. unfold detectChangedPolicies. unfold_M.
    rewrite (getInput_supplied _ _ _ _ _ Hsup). unfold chdir. by rewrite Hcd. }
  destruct (git env ["cat-file"; "-e"; baseline]) as [out|e] eqn:Hcat.
  2:{ left. eexists. unfold detectChangedPolicies. unfold_M.
      rewrite (getInput_supplied _ _ _ _ _ Hsup). unfold chdir, execGit.
      by rewrite Hcd, Hcat. }
  destruct (git env ["diff"; "--name-only"; baseline +:+ "..HEAD"])
    as [diff|e] eqn:Hdiff.
  2:{ left. eexists. unfold detectChangedPolicies. unfold_M.
      rewrite (getInput_supplied _ _ _ _ _ Hsup). unfold chdir, execGit.
      by rewrite Hcd, Hcat, Hdiff. }
  destruct (ledger st (detectionStateFile env workspace)) as [state|] eqn:Hl.
  { right. exists baseline, diff. split_and!; [done|done|by eexists|done|].
    right. exists state. split; [done|].
    apply (detect_pending _ _ _ baseline diff state); eauto. }
  destruct (decide (collectFolders (changedFiles diff) = [])) as [Hnil|Hnil].
  - right. exists baseline, diff. split_and!; [done|done|by eexists|done|].
    left. split; [done|].
    unfold detectChangedPolicies. unfold_M.
    rewrite (getInput_supplied _ _ _ _ _ Hsup). unfold chdir, execGit.
    rewrite Hcd, Hcat, Hdiff.
    destruct (String.eqb_spec diff "") as [->|Hne].
    { by rewrite setDetectionOutputs_eq. }
    fold (changedFiles diff). rewrite Hnil. simpl.
    by rewrite setDetectionOutputs_eq.
  - left. unfold detectChangedPolicies. unfold_M.
    rewrite (getInput_supplied _ _ _ _ _ Hsup). unfold chdir, execGit.
    rewrite Hcd, Hcat, Hdiff.
    destruct (String.eqb_spec diff "") as [->|Hne]; [done|].
    fold (changedFiles diff). case_bool_decide as Hlen.
    { by apply nil_length_inv in Hlen. }
    assert (getInput "state-file" false env st =
            (Ok (default "" (inputs env !! "state-file")), st)) as -> by done.
    assert (path_resolve workspace
              (if String.eqb (default "" (inputs env !! "state-file")) ""
               then ".state/delivered.json"
               else default "" (inputs env !! "state-file"))
            = detectionStateFile env workspace) as ->.
    { unfold detectionStateFile. by destruct (inputs env !! "state-file"). }
    destruct (readDeliveryState_unreadable env st _ Hl) as [msg ->].
    by eexists.
Qed.

(** Whatever the detection returns is pending for the state file it
    read, or empty. *)
Lemma detect_returns_pending workspace env st result st' state :
  detectChangedPolicies workspace env st = (Ok result, st') →
  ledger st (detectionStateFile env workspace) = Some state →
  ∃ baseline diff,
    git env ["diff"; "--name-only"; baseline +:+ "..HEAD"] = Ok diff ∧
    policies result = pendingPolicies state (changedFiles diff) ∧
    count result = length (policies result).
Proof.
  intros Hdet Hl.
  destruct (detect_cases workspace env st)
    as [[e He]|(baseline & diff & _ & _ & _ & Hdiff &
                [[Hnil He]|(state' & Hl' & He)])];
    rewrite He in Hdet; simplify_eq/=.
  - exists baseline, diff. unfold pendingPolicies. by rewrite Hnil.
  - by exists baseline, diff.
Qed.

End Pending.

(** * The claims *)

(** ** Immutability of delivered versions *)



(** ** An unresolvable baseline *)

(** C7. When [git cat-file -e] does not find the baseline commit, the
    detection throws the error "Baseline SHA ... does not exist in
    repository" and the store is as it was: no state file is written.  Run
    as the [detect] operation, the action fails with that message and
    changes nothing else. *)
Theorem unresolvable_baseline_aborts {rt : Runtime}
    (workspace baseline : string) (env : Env) (st : Store) (e : JsError) :
  supplied env "baseline-sha" baseline →
  chdir_error env workspace = None →
  git env ["cat-file"; "-e"; baseline] = Throw e →
  detectChangedPolicies workspace env st =
    (Throw (Error ("Baseline SHA " +:+ baseline +:+ " does not exist in repository")),
     st) ∧
  (supplied env "operation" "detect" → supplied env "workspace" workspace →
   ∀ validatePolicy publishPolicy,
     run validatePolicy publishPolicy env st =
       (Ok tt,
        {| files := files st; outputs := outputs st; sent := sent st;
           failed := Some ("❌ Operation failed: Baseline SHA " +:+ baseline +:+
                           " does not exist in repository") |})).
Proof.
  intros Hb Hcd Hcat.
  assert (detectChangedPolicies workspace env st =
    (Throw (Error ("Baseline SHA " +:+ baseline +:+ " does not exist in repository")),
     st)) as Hdet.
  { unfold detectChangedPolicies. unfold_M.
    rewrite (getInput_supplied _ _ _ _ _ Hb). unfold chdir, execGit.
    by rewrite Hcd, Hcat. }
  split; [done|]. intros Hop Hws validatePolicy publishPolicy.
  unfold run. unfold_M.
  rewrite (getInput_supplied _ _ _ _ _ Hop), (getInput_supplied _ _ _ _ _ Hws).
  simpl. by rewrite Hdet.
Qed.

Lemma unresolvable_baseline_aborts_witness :
  let env := example_env false "policies/x/v1.0.0/metadata.json" (Rejected "") in
  detectChangedPolicies (rt := example_runtime) "/repo" env delivered_store =
    (Throw (Error "Baseline SHA c1 does not exist in repository"), delivered_store) ∧
  ∀ validatePolicy publishPolicy,
    run (rt := example_runtime) validatePolicy publishPolicy env delivered_store =
      (Ok tt,
       {| files := files delivered_store; outputs := []; sent := [];
          failed := Some "❌ Operation failed: Baseline SHA c1 does not exist in repository" |}).
Proof.
  destruct (unresolvable_baseline_aborts (rt := example_runtime) "/repo" "c1"
              (example_env false "policies/x/v1.0.0/metadata.json" (Rejected ""))
              delivered_store (Error "Git command failed: ")) as [Hdet Hrun].
  - split; [vm_compute; reflexivity|discriminate].
  - reflexivity.
  - reflexivity.
  - split; [exact Hdet|]. apply Hrun.
    + split; [vm_compute; reflexivity|discriminate].
    + split; [vm_compute; reflexivity|discriminate].
Defined.

(** ** What the detection returns *)

(** C9, as stated, fails: a changed file of an already delivered policy
    does not bring the policy into the result. *)
Lemma delivered_change_not_returned :
  let env := example_env true "policies/x/v1.0.0/metadata.json" (Rejected "") in
  changedFiles "policies/x/v1.0.0/metadata.json" = ["policies/x/v1.0.0/metadata.json"] ∧
  changes "policies/x/v1.0.0/metadata.json" policy_x ∧
  (detectChangedPolicies (rt := example_runtime) "/repo" env delivered_store).1 =
    Ok {| policies := []; count := 0 |}.
Proof.
  split_and!.
  - vm_compute. reflexivity.
  - exists "x", "v1.0.0", ["metadata.json"]. split_and!; [done| |done].
    apply version_pattern_semver. reflexivity.
  - vm_compute. reflexivity.
Qed.

(** C9, amended. With a resolvable baseline and a diff that git
    delivers, the detection returns, each once, exactly the policies
    [policies/<name>/<version>] that some changed path lies in (first
    segment [policies], third segment of the form
    [v<digits>.<digits>.<digits>]) and that the delivery state does not
    mark as delivered; other paths are dropped, and with no changed path the
    result is empty, not an error. *)
Theorem detection_returns_undelivered_changes {rt : Runtime}
    (workspace baseline diff : string) (env : Env) (st : Store) :
  supplied env "baseline-sha" baseline →
  chdir_error env workspace = None →
  (∃ out, git env ["cat-file"; "-e"; baseline] = Ok out) →
  git env ["diff"; "--name-only"; baseline +:+ "..HEAD"] = Ok diff →
  (diff = "" →
   ∃ st', detectChangedPolicies workspace env st =
            (Ok {| policies := []; count := 0 |}, st')) ∧
  (∀ state,
     ledger st (detectionStateFile env workspace) = Some state →
     ∃ ps st',
       detectChangedPolicies workspace env st =
         (Ok {| policies := ps; count := length ps |}, st') ∧
       NoDup ps ∧
       ∀ p, p ∈ ps ↔
            (∃ file, file ∈ changedFiles diff ∧ changes file p) ∧
            ¬ delivered state (path p)).
Proof.
  intros Hb Hcd [out Hcat] Hdiff. split.
  - intros ->. eexists. unfold detectChangedPolicies. unfold_M.
    rewrite (getInput_supplied _ _ _ _ _ Hb). unfold chdir, execGit.
    rewrite Hcd, Hcat, Hdiff. simpl. by rewrite setDetectionOutputs_eq.
  - intros state Hl. eexists _, _. split_and!.
    + apply (detect_pending _ _ _ baseline diff state); eauto.
    + apply pendingPolicies_NoDup.
    + apply pendingPolicies_elem.
Qed.

Lemma detection_returns_undelivered_changes_witness :
  let env := example_env true "policies/x/v1.0.0/metadata.json" (Rejected "") in
  ("policies/x/v1.0.0/metadata.json" = "" →
   ∃ st', detectChangedPolicies (rt := example_runtime) "/repo" env empty_store =
            (Ok {| policies := []; count := 0 |}, st')) ∧
  (∀ state,
     ledger empty_store (detectionStateFile (rt := example_runtime) env "/repo")
       = Some state →
     ∃ ps st',
       detectChangedPolicies (rt := example_runtime) "/repo" env empty_store =
         (Ok {| policies := ps; count := length ps |}, st') ∧
       NoDup ps ∧
       ∀ p, p ∈ ps ↔
            (∃ file, file ∈ changedFiles "policies/x/v1.0.0/metadata.json" ∧
                     changes file p) ∧
            ¬ delivered state (path p)).
Proof.
  apply (detection_returns_undelivered_changes (rt := example_runtime)
           "/repo" "c1" "policies/x/v1.0.0/metadata.json"
           (example_env true "policies/x/v1.0.0/metadata.json" (Rejected ""))
           empty_store).
  - split; [vm_compute; reflexivity|discriminate].
  - reflexivity.
  - exists "". reflexivity.
  - reflexivity.
Defined.

(** ** The order of the result *)

Lemma string_compare_refl s : String.compare s s = Eq.
Proof.
  induction s as [|c s IH]; simpl; [done|].
  unfold Ascii.compare. by rewrite N.compare_refl.
Qed.

(** Comparison by character code orders any strings. *)
Lemma example_collates strs : collates (rt := example_runtime) strs.
Proof.
  intros s t _ _. simpl. split_and!.
  - split; [apply String.compare_eq_iff|intros ->; apply string_compare_refl].
  - apply String.compare_antisym.
  - intros u _ Hst%String_as_OT.cmp_lt Htu%String_as_OT.cmp_lt.
    apply String_as_OT.cmp_lt. by apply (String_as_OT.lt_trans s t u).
Qed.

Section Order.
Context {rt : Runtime}.

(** The pending policies do not depend on the order of the changed
    files, when [localeCompare] orders their names and versions. *)
Lemma pendingPolicies_Permutation state files1 files2 :
  files1 ≡ₚ files2 →
  collated (pendingPolicies state files1) →
  pendingPolicies state files1 = pendingPolicies state files2.
Proof.
  intros Hp Hcol.
  assert (pendingPolicies state files1 ≡ₚ pendingPolicies state files2) as Hperm.
  { unfold pendingPolicies. rewrite !sort_Permutation.
    apply filter_Permutation, fmap_Permutation.
    by apply collectFolders_Permutation. }
  apply (StronglySorted_unique_strong by_name_then_version).
  - intros p1 p2 Hin1 Hin2 H12 H21.
    pose proof Hin1 as [[f1 [_ H1]] _]%pendingPolicies_elem.
    pose proof Hin2 as [[f2 [_ H2]] _]%pendingPolicies_elem.
    destruct Hcol as [Hn Hv].
    assert (p2 ∈ pendingPolicies state files1) as Hin2' by by rewrite Hperm.
    destruct (by_name_then_version_antisym _ _ Hn Hv p1 p2) as [? ?];
      [by apply collated_among..|done|done|].
    by apply (changes_name_version f1 f2).
  - apply sort_StronglySorted.
    apply (collated_Permutation (pendingPolicies state files1)); [|done].
    apply sort_Permutation.
  - apply sort_StronglySorted.
    apply (collated_Permutation (pendingPolicies state files1)); [|done].
    rewrite Hperm. apply sort_Permutation.
  - done.
Qed.

Lemma detect_StronglySorted workspace env st result st' :
  detectChangedPolicies workspace env st = (Ok result, st') →
  collated (policies result) →
  StronglySorted by_name_then_version (policies result).
Proof.
  intros Hdet Hcol.
  destruct (detect_cases workspace env st)
    as [[e He]|(baseline & diff & _ & _ & _ & _ & [[_ He]|(state & _ & He)])];
    rewrite He in Hdet; simplify_eq/=.
  - constructor.
  - apply sort_StronglySorted.
    apply (collated_Permutation (pendingPolicies state (changedFiles diff)));
      [apply sort_Permutation|done].
Qed.

Lemma detect_NoDup workspace env st result st' :
  detectChangedPolicies workspace env st = (Ok result, st') →
  NoDup (policies result).
Proof.
  intros Hdet.
  destruct (detect_cases workspace env st)
    as [[e He]|(baseline & diff & _ & _ & _ & _ & [[_ He]|(state & _ & He)])];
    rewrite He in Hdet; simplify_eq/=.
  - constructor.
  - apply pendingPolicies_NoDup.
Qed.

(** What the detection returns is a sort of policies. *)
Lemma detect_sorts workspace env st result st' :
  detectChangedPolicies workspace env st = (Ok result, st') →
  ∃ l, policies result = sort l.
Proof.
  intros Hdet.
  destruct (detect_cases workspace env st)
    as [[e He]|(baseline & diff & _ & _ & _ & _ & [[_ He]|(state & _ & He)])];
    rewrite He in Hdet; simplify_eq/=.
  - by exists [].
  - by eexists.
Qed.

End Order.





(** ** Updates of the delivery state *)

Lemma writeDeliveryState_ok env st file state :
  write_error env file = None →
  writeDeliveryState file state env st =
    (Ok tt, {| files := <[file := Holds state]> (files st);
               outputs := outputs st; sent := sent st; failed := failed st |}).
Proof. intros Hw. unfold writeDeliveryState. by rewrite Hw. Qed.

(** But for the key [__proto__], an assignment sets the property. *)
Lemma assign_insert object key value :
  key ≠ "__proto__" → assign object key value = <[key := value]> object.
Proof.
  intros Hne. unfold assign.
  by destruct (String.eqb_spec key "__proto__") as [->|_].
Qed.

(** An assignment changes no other property. *)
Lemma assign_other object key value other :
  other ≠ key → assign object key value !! other = object !! other.
Proof.
  intros Hne. unfold assign. destruct (_ && _); [done|].
  by apply lookup_insert_ne.
Qed.

Lemma updatePolicyRecord_lookup state policyPath releaseTag time :
  policyPath ≠ "__proto__" →
  updatePolicyRecord state policyPath releaseTag time !! policyPath =
    Some (JObj [("deliveredAt", JStr time); ("release", JStr releaseTag)]).
Proof.
  intros Hkey. unfold updatePolicyRecord. rewrite assign_insert by done.
  apply lookup_insert_eq.
Qed.

Lemma updatePolicyRecord_other state policyPath releaseTag time other :
  other ≠ policyPath →
  updatePolicyRecord state policyPath releaseTag time !! other = state !! other.
Proof. apply assign_other. Qed.

Section StateUpdate.
Context {rt : Runtime}.

(** No run of [updateDeliveryState] returns. *)
Lemma updateDeliveryState_never_returns workspace env st value st' :
  updateDeliveryState workspace env st ≠ (Ok value, st').
Proof.
  unfold updateDeliveryState. unfold_M.
  repeat (case_match; simplify_eq/=); done.
Qed.

(** With its inputs supplied and the state file readable and writable,
    it has written the record when it throws. *)
Lemma updateDeliveryState_writes workspace env st policyPath releaseTag
    stateFile state :
  supplied env "policy-path" policyPath →
  supplied env "release-tag" releaseTag →
  supplied env "state-file" stateFile →
  ledger st (path_resolve workspace stateFile) = Some state →
  write_error env (path_resolve workspace stateFile) = None →
  updateDeliveryState workspace env st =
    (Throw (ReferenceError "previousSha is not defined"),
     {| files :=
          <[path_resolve workspace stateFile :=
              Holds (updatePolicyRecord state policyPath releaseTag (now env))]>
            (files st);
        outputs := outputs st ++ [("state-updated", Plain "true")];
        sent := sent st;
        failed := failed st |}).
Proof.
  intros Hp Hr Hf Hl Hw. unfold updateDeliveryState. unfold_M.
  rewrite (getInput_supplied _ _ _ _ _ Hp), (getInput_supplied _ _ _ _ _ Hr),
    (getInput_supplied _ _ _ _ _ Hf).
  rewrite (readDeliveryState_ledger _ _ _ _ Hl).
  by rewrite (writeDeliveryState_ok _ _ _ _ Hw).
Qed.

End StateUpdate.

(** C4. [updateDeliveryState] never returns: whenever it gets through
    its inputs and the state file, it has written the new record to the
    state file and set the output [state-updated] before the reference to
    the undeclared [previousSha] throws; run as the [update-state]
    operation, the action is failed although the state file has
    changed.  The record is written under the policy path, which is any
    string but [__proto__]: that name denotes the prototype of the state
    object, not a property of it. *)
Theorem update_state_persists_then_throws {rt : Runtime}
    (workspace : string) (env : Env) (st : Store) :
  (∀ value st', updateDeliveryState workspace env st ≠ (Ok value, st')) ∧
  (∀ policyPath releaseTag stateFile state,
     supplied env "policy-path" policyPath →
     policyPath ≠ "__proto__" →
     supplied env "release-tag" releaseTag →
     supplied env "state-file" stateFile →
     ledger st (path_resolve workspace stateFile) = Some state →
     write_error env (path_resolve workspace stateFile) = None →
     let written :=
       {| files :=
            <[path_resolve workspace stateFile :=
                Holds (<[policyPath :=
                           JObj [("deliveredAt", JStr (now env));
                                 ("release", JStr releaseTag)]]> state)]>
              (files st);
          outputs := outputs st ++ [("state-updated", Plain "true")];
          sent := sent st;
          failed := failed st |} in
     updateDeliveryState workspace env st =
       (Throw (ReferenceError "previousSha is not defined"), written) ∧
     (supplied env "operation" "update-state" →
      supplied env "workspace" workspace →
      ∀ validatePolicy publishPolicy,
        run validatePolicy publishPolicy env st =
          (Ok tt,
           {| files := files written; outputs := outputs written;
              sent := sent written;
              failed := Some "❌ Operation failed: previousSha is not defined" |}))).
Proof.
  split; [intros value st'; apply updateDeliveryState_never_returns|].
  intros policyPath releaseTag stateFile state Hp Hkey Hr Hf Hl Hw written.
  pose proof (updateDeliveryState_writes _ _ _ _ _ _ _ Hp Hr Hf Hl Hw) as Hupd.
  unfold updatePolicyRecord in Hupd. rewrite assign_insert in Hupd by done.
  split; [done|]. intros Hop Hws validatePolicy publishPolicy.
  unfold run. unfold_M.
  rewrite (getInput_supplied _ _ _ _ _ Hop), (getInput_supplied _ _ _ _ _ Hws).
  simpl. by rewrite Hupd.
Qed.

Lemma update_state_persists_then_throws_witness :
  let env := example_env_for "update-state" true "" (Rejected "") in
  let written :=
    {| files :=
         {[ example_file :=
              Holds {[ "policies/x/v1.0.0" :=
                         JObj [("deliveredAt", JStr "2025-12-16T10:30:00.000Z");
                               ("release", JStr "r2")] ]} ]};
       outputs := [("state-updated", Plain "true")];
       sent := [];
       failed := None |} in
  updateDeliveryState (rt := example_runtime) "/repo" env empty_store =
    (Throw (ReferenceError "previousSha is not defined"), written) ∧
  ∀ validatePolicy publishPolicy,
    run (rt := example_runtime) validatePolicy publishPolicy env empty_store =
      (Ok tt,
       {| files := files written; outputs := outputs written; sent := [];
          failed := Some "❌ Operation failed: previousSha is not defined" |}).
Proof.
  pose proof (update_state_persists_then_throws (rt := example_runtime)
                "/repo" (example_env_for "update-state" true "" (Rejected ""))
                empty_store) as [_ H].
  destruct (H "policies/x/v1.0.0" "r2" ".state/delivered.json" ∅) as [Hupd Hrun].
  - split; [vm_compute; reflexivity|discriminate].
  - discriminate.
  - split; [vm_compute; reflexivity|discriminate].
  - split; [vm_compute; reflexivity|discriminate].
  - reflexivity.
  - reflexivity.
  - split; [exact Hupd|]. apply Hrun.
    + split; [vm_compute; reflexivity|discriminate].
    + split; [vm_compute; reflexivity|discriminate].
Defined.




(** ** The probe of the registry *)

(** A request whose headers are defined is sent, and settles as the
    registry answers. *)
Lemma makeRequest_sends req env st :
  idempotencyKey req ≠ Some JUndefined →
  makeRequest req env st =
    match registry env req with
    | Response code body => (Ok (code, body), with_sent st req)
    | Rejected msg => (Throw (Error msg), with_sent st req)
    end.
Proof.
  intros Hkey. unfold makeRequest, with_sent.
  destruct (idempotencyKey req) as [[]|]; done.
Qed.

(** A request with an undefined idempotency key is refused: nothing is
    sent. *)
Lemma makeRequest_refused req env st :
  idempotencyKey req = Some JUndefined →
  makeRequest req env st = (Throw (invalid_header "X-Idempotency-Key"), st).
Proof. intros Hkey. unfold makeRequest. by rewrite Hkey. Qed.

Section Probe.
Context {rt : Runtime}.

(** The probe answers [exists] for 200 with a JSON body, [not exists]
    for 404, and throws otherwise; it sends its one request. *)
Lemma checkPolicyExistsInApi_cases apiUrl apiKey policyName policyVersion env st :
  let req := probeRequest apiUrl apiKey policyName policyVersion in
  match registry env req with
  | Response code body =>
      if (code =? 200)%Z then
        match json body with
        | Ok value =>
            checkPolicyExistsInApi apiUrl apiKey policyName policyVersion env st =
              (Ok {| exists_ := true; existing := value |}, with_sent st req)
        | Throw e =>
            checkPolicyExistsInApi apiUrl apiKey policyName policyVersion env st =
              (Throw (Error ("Failed to check policy existence: " +:+ message e)),
               with_sent st req)
        end
      else if (code =? 404)%Z then
        checkPolicyExistsInApi apiUrl apiKey policyName policyVersion env st =
          (Ok {| exists_ := false; existing := JUndefined |}, with_sent st req)
      else
        checkPolicyExistsInApi apiUrl apiKey policyName policyVersion env st =
          (Throw (Error ("Failed to check policy existence: " +:+
                         "API returned unexpected status " +:+ pretty code +:+
                         ": " +:+ text body)),
           with_sent st req)
  | Rejected msg =>
      checkPolicyExistsInApi apiUrl apiKey policyName policyVersion env st =
        (Throw (Error ("Failed to check policy existence: " +:+ msg)),
         with_sent st req)
  end.
Proof.
  intros req. unfold checkPolicyExistsInApi. unfold_M.
  fold (probeRequest apiUrl apiKey policyName policyVersion). fold req.
  rewrite makeRequest_sends by done.
  destruct (registry env req) as [code body|msg]; [|done].
  destruct (code =? 200)%Z.
  - unfold JSON_parse. by destruct (json body).
  - by destruct (code =? 404)%Z.
Qed.

End Probe.




(** ** The publication *)

(** What [publishToApi] returns when its request is refused for an
    undefined idempotency key: a failure, with nothing sent. *)
Lemma publishToApi_refused apiUrl apiKey payloadProps env st :
  let req := publishRequest apiUrl apiKey (GITHUB_SHA env) payloadProps in
  idempotencyKey req = Some JUndefined →
  publishToApi apiUrl apiKey payloadProps env st =
    (Ok {| success := false; status := None;
           publish_message := JStr (message (invalid_header "X-Idempotency-Key"));
           data := None;
           error := Some (invalid_header "X-Idempotency-Key") |}, st).
Proof.
  intros req Hkey. unfold publishToApi. unfold_M.
  fold (publishRequest apiUrl apiKey (GITHUB_SHA env) payloadProps). fold req.
  by rewrite makeRequest_refused.
Qed.

(** What [publishToApi] returns, by the outcome of its request, when the
    idempotency key is defined.  It sends the one request and never
    throws. *)
Lemma publishToApi_cases apiUrl apiKey payloadProps env st :
  let req := publishRequest apiUrl apiKey (GITHUB_SHA env) payloadProps in
  let caught e :=
    {| success := false; status := None; publish_message := JStr (message e);
       data := None; error := Some e |} in
  idempotencyKey req ≠ Some JUndefined →
  publishToApi apiUrl apiKey payloadProps env st =
    (Ok match registry env req with
        | Rejected msg => caught (Error msg)
        | Response code body =>
            if (200 <=? code)%Z && (code <? 300)%Z then
              match get_prop (responseDataOf body) "message" with
              | Ok msg =>
                  {| success := true; status := Some code;
                     publish_message := js_or msg (JStr "Policy published successfully");
                     data := Some (responseDataOf body); error := None |}
              | Throw e => caught e
              end
            else if (code =? 409)%Z then
              {| success := true; status := Some code;
                 publish_message := JStr "Policy already published (idempotent)";
                 data := Some (responseDataOf body); error := None |}
            else
              match get_prop (responseDataOf body) "message" with
              | Ok msg =>
                  {| success := false; status := Some code;
                     publish_message :=
                       js_or msg (JStr ("API returned status " +:+ pretty code));
                     data := Some (responseDataOf body); error := None |}
              | Throw e => caught e
              end
        end,
     with_sent st req).
Proof.
  intros req caught Hkey. unfold publishToApi. unfold_M.
  fold (publishRequest apiUrl apiKey (GITHUB_SHA env) payloadProps). fold req.
  rewrite makeRequest_sends by done. unfold with_sent.
  destruct (registry env req) as [code body|msg]; [|done].
  unfold JSON_parse. fold (responseDataOf body).
  destruct ((200 <=? code)%Z && (code <? 300)%Z).
  - by destruct (get_prop (responseDataOf body) "message").
  - destruct (code =? 409)%Z; [done|].
    by destruct (get_prop (responseDataOf body) "message").
Qed.

(** Reading [message] from the response data throws only when the body is
    the JSON text [null]. *)
Lemma get_prop_responseData body :
  json body ≠ Ok JNull → json body ≠ Ok JUndefined →
  ∃ msg, get_prop (responseDataOf body) "message" = Ok msg.
Proof.
  unfold responseDataOf. destruct (json body) as [[]|]; simpl; eauto; done.
Qed.

(** What holds of the status interpretation, for a request with a
    defined idempotency key: 409 is a success and a rejected request or a
    status outside 200..299 other than 409 is a failure, whatever the
    body; a status in 200..299 is a success unless the body is the JSON
    text [null].  The request is sent once. *)
Lemma publishToApi_by_status apiUrl apiKey payloadProps env st :
  let req := publishRequest apiUrl apiKey (GITHUB_SHA env) payloadProps in
  idempotencyKey req ≠ Some JUndefined →
  ∃ result,
    publishToApi apiUrl apiKey payloadProps env st = (Ok result, with_sent st req) ∧
    match registry env req with
    | Rejected msg =>
        success result = false ∧ publish_message result = JStr msg
    | Response code body =>
        ((200 ≤ code < 300)%Z → json body ≠ Ok JNull → json body ≠ Ok JUndefined →
         success result = true ∧ data result = Some (responseDataOf body)) ∧
        (code = 409%Z →
         success result = true ∧ data result = Some (responseDataOf body)) ∧
        (¬ (200 ≤ code < 300)%Z → code ≠ 409%Z → success result = false) ∧
        (¬ (200 ≤ code < 300)%Z → code ≠ 409%Z →
         json body ≠ Ok JNull → json body ≠ Ok JUndefined →
         status result = Some code ∧ data result = Some (responseDataOf body))
    end.
Proof.
  intros req Hkey. eexists. split; [by apply publishToApi_cases|]. fold req.
  destruct (registry env req) as [code body|msg]; [|done].
  destruct ((200 <=? code)%Z && (code <? 300)%Z) eqn:Hrange.
  - apply andb_true_iff in Hrange as [?%Z.leb_le ?%Z.ltb_lt].
    split_and!; try (intros; lia).
    intros _ Hnull Hundef.
    by destruct (get_prop_responseData body Hnull Hundef) as [msg ->].
  - assert (¬ (200 ≤ code < 300)%Z) as Hout.
    { apply andb_false_iff in Hrange as [?%Z.leb_gt|?%Z.ltb_ge]; lia. }
    destruct (code =? 409)%Z eqn:H409.
    + apply Z.eqb_eq in H409. split_and!; try done; intros; lia.
    + apply Z.eqb_neq in H409. split_and!; try done.
      * by destruct (get_prop (responseDataOf body) "message").
      * intros _ _ Hnull Hundef.
        by destruct (get_prop_responseData body Hnull Hundef) as [msg ->].
Qed.

(** C3. A 200 response whose body is the JSON text [null] makes
    [publishToApi] return a failure: reading [message] from [null] throws
    a TypeError inside the [try], and the [catch] reports it as a failed
    request. *)
Theorem publish_200_with_null_body_fails :
  let env := example_env true "" (Response 200 {| text := "null"; json := Ok JNull |}) in
  publishToApi "https://hub.example" "secret"
      [("name", JStr "x"); ("version", JStr "v1.0.0"); ("commitSha", JStr "c5")]
      env empty_store =
    (Ok {| success := false;
           status := None;
           publish_message := JStr "Cannot read properties of null (reading 'message')";
           data := None;
           error := Some (TypeError "Cannot read properties of null (reading 'message')") |},
     {| files := ∅; outputs := [];
        sent := [publishRequest "https://hub.example" "secret" "c5"
                   [("name", JStr "x"); ("version", JStr "v1.0.0"); ("commitSha", JStr "c5")]];
        failed := None |}).
Proof. vm_compute. reflexivity. Qed.

(** ** Running again *)

(** C8, as stated, fails: an artifact whose publication failed in the
    first run has no record, and the second run over the same sources
    detects it again. *)
Lemma failed_publication_is_detected_again :
  let env := example_env true "policies/x/v1.0.0/metadata.json"
               (Response 500 {| text := "unavailable";
                                json := Throw (SyntaxError "Unexpected token u in JSON") |}) in
  let first := detectChangedPolicies (rt := example_runtime) "/repo" env empty_store in
  let published :=
    publishToApi "https://hub.example" "secret"
      [("name", JStr "x"); ("version", JStr "v1.0.0"); ("commitSha", JStr "c5")]
      env first.2 in
  let second := detectChangedPolicies (rt := example_runtime) "/repo" env published.2 in
  first.1 = Ok {| policies := [policy_x]; count := 1 |} ∧
  success <$> (match published.1 with Ok r => Some r | Throw _ => None end) = Some false ∧
  files published.2 = files empty_store ∧
  second.1 = Ok {| policies := [policy_x]; count := 1 |}.
Proof. split_and!; vm_compute; reflexivity. Qed.

(** C8, amended. After a run that left a delivery record for every
    policy its detection returned, and kept the records there were, a
    second detection over the same sources returns no policy and writes
    no state file: the state files after it are those before it. *)
Theorem rerun_after_delivery_detects_nothing {rt : Runtime}
    (workspace : string) (env : Env) (st1 st1' st2 : Store)
    (result : Detection) (state2 : gmap string JsVal) :
  detectChangedPolicies workspace env st1 = (Ok result, st1') →
  ledger st2 (detectionStateFile env workspace) = Some state2 →
  (∀ p, p ∈ policies result → delivered state2 (path p)) →
  (∀ state1 key,
     ledger st1 (detectionStateFile env workspace) = Some state1 →
     delivered state1 key → delivered state2 key) →
  ∃ st2',
    detectChangedPolicies workspace env st2 =
      (Ok {| policies := []; count := 0 |}, st2') ∧
    files st2' = files st2 ∧ sent st2' = sent st2.
Proof.
  intros Hfirst Hl2 Hall Hkept.
  destruct (detect_cases workspace env st1)
    as [[e He]|(baseline & diff & Hb & Hcd & Hcat & Hdiff & Hcase)];
    [rewrite He in Hfirst; simplify_eq|].
  pose proof (detect_pending workspace env st2 baseline diff state2
                Hb Hcd Hcat Hdiff Hl2) as Hsecond.
  cbv zeta in Hsecond.
  assert (pendingPolicies state2 (changedFiles diff) = []) as Hnone.
  { destruct (pendingPolicies state2 (changedFiles diff)) as [|p ps] eqn:Hps;
      [done|exfalso].
    assert (p ∈ pendingPolicies state2 (changedFiles diff)) as Hp
      by (rewrite Hps; left).
    apply pendingPolicies_elem in Hp as [Hchanged Hund]. apply Hund.
    destruct Hcase as [[Hnil He]|(state1 & Hl1 & He)].
    - destruct Hchanged as (file & Hin & Hch).
      destruct (changes_valid file p Hch) as (Hvalid & Hfolder & _).
      assert (path p ∈ collectFolders (changedFiles diff)) as Hmem
        by (apply collectFolders_elem; eauto).
      rewrite Hnil in Hmem. by apply not_elem_of_nil in Hmem.
    - rewrite He in Hfirst. simplify_eq/=.
      destruct (truthy (lookup_record state1 (path p))) eqn:Hd1.
      + by apply (Hkept state1).
      + apply Hall. apply pendingPolicies_elem. split; [done|].
        unfold delivered. by rewrite Hd1. }
  rewrite Hnone in Hsecond. by eexists.
Qed.

Lemma rerun_after_delivery_detects_nothing_witness :
  let env := example_env true "policies/x/v1.0.0/metadata.json" (Rejected "") in
  let first := detectChangedPolicies (rt := example_runtime) "/repo" env empty_store in
  let recorded := (updateDeliveryState (rt := example_runtime) "/repo" env first.2).2 in
  first.1 = Ok {| policies := [policy_x]; count := 1 |} ∧
  ∃ st2',
    detectChangedPolicies (rt := example_runtime) "/repo" env recorded =
      (Ok {| policies := []; count := 0 |}, st2') ∧
    files st2' = files recorded ∧ sent st2' = sent recorded.
Proof.
  intros env first recorded. split; [vm_compute; reflexivity|].
  apply (rerun_after_delivery_detects_nothing (rt := example_runtime) "/repo"
           env empty_store first.2 recorded
           {| policies := [policy_x]; count := 1 |}
           {[ "policies/x/v1.0.0" :=
                JObj [("deliveredAt", JStr "2025-12-16T10:30:00.000Z");
                      ("release", JStr "r2")] ]}).
  - vm_compute. reflexivity.
  - vm_compute. reflexivity.
  - intros p ->%list_elem_of_singleton. reflexivity.
  - intros state1 key Hl.
    change (Some (∅ : gmap string JsVal) = Some state1) in Hl.
    injection Hl as <-. unfold delivered, lookup_record.
    by rewrite lookup_empty.
Defined.

(** ** The baseline *)

(** C2. The baseline advances to the head exactly when the run completed
    and none of its outcomes is ValidationFailed or PublishFailed, that is,
    when every outcome is Skipped or Delivered; after any failed artifact
    and after a fatal error the baseline is the one before the run; and as
    the head does not precede the baseline, the baseline never moves
    back. *)
Theorem baseline_advances_iff_no_failure {CommitRef : Type}
    (precedes : CommitRef → CommitRef → Prop)
    (baseline head : CommitRef) (r : Reconciler.RunEnd) :
  Reflexive precedes →
  precedes baseline head →
  (Reconciler.advances r = true ↔
   ∃ outcomes,
     r = Reconciler.Completed outcomes ∧
     ∀ o, o ∈ outcomes →
       Reconciler.status o ≠ Reconciler.ValidationFailed ∧
       Reconciler.status o ≠ Reconciler.PublishFailed) ∧
  (Reconciler.advances r = true ↔
   ∃ outcomes,
     r = Reconciler.Completed outcomes ∧
     ∀ o, o ∈ outcomes →
       Reconciler.status o = Reconciler.Skipped ∨
       Reconciler.status o = Reconciler.Delivered) ∧
  (Reconciler.advances r = true → Reconciler.nextBaseline baseline head r = head) ∧
  (Reconciler.advances r = false →
   Reconciler.nextBaseline baseline head r = baseline) ∧
  precedes baseline (Reconciler.nextBaseline baseline head r).
Proof.
  intros Hrefl Hhead.
  assert (∀ outcomes,
    negb (existsb (λ o, Reconciler.is_failure (Reconciler.status o)) outcomes) = true ↔
    ∀ o, o ∈ outcomes → Reconciler.is_failure (Reconciler.status o) = false) as Hno.
  { intros outcomes. rewrite negb_true_iff. induction outcomes as [|o os IH]; simpl.
    - split; [|done]. by intros _ o ?%not_elem_of_nil.
    - rewrite orb_false_iff, IH. split.
      + intros [Ho Hos] o' [->|Hin]%elem_of_cons; auto.
      + intros Hall. split; [apply Hall; left|intros o' Hin; apply Hall; by right]. }
  split_and!.
  - destruct r as [reason|outcomes]; simpl.
    + split; [done|]. by intros (outcomes & [=] & _).
    + rewrite Hno. split.
      * intros Hall. exists outcomes. split; [done|]. intros o Hin.
        specialize (Hall o Hin). by destruct (Reconciler.status o).
      * intros (? & [= <-] & Hall) o Hin. specialize (Hall o Hin).
        destruct (Reconciler.status o); naive_solver.
  - destruct r as [reason|outcomes]; simpl.
    + split; [done|]. by intros (outcomes & [=] & _).
    + rewrite Hno. split.
      * intros Hall. exists outcomes. split; [done|]. intros o Hin.
        specialize (Hall o Hin). destruct (Reconciler.status o); naive_solver.
      * intros (? & [= <-] & Hall) o Hin. specialize (Hall o Hin).
        destruct (Reconciler.status o); naive_solver.
  - unfold Reconciler.nextBaseline. by intros ->.
  - unfold Reconciler.nextBaseline. by intros ->.
  - unfold Reconciler.nextBaseline. by destruct (Reconciler.advances r).
Qed.

Lemma baseline_advances_iff_no_failure_witness :
  let r := Reconciler.Completed
             [ {| Reconciler.id := "policies/a/v1.0.0"; Reconciler.status := Reconciler.Delivered |};
               {| Reconciler.id := "policies/b/v2.0.0"; Reconciler.status := Reconciler.PublishFailed |} ] in
  Reconciler.advances r = false ∧
  Reconciler.nextBaseline 1%nat 5%nat r = 1%nat ∧
  (1 ≤ Reconciler.nextBaseline 1%nat 5%nat r)%nat.
Proof.
  pose proof (baseline_advances_iff_no_failure le 1%nat 5%nat
    (Reconciler.Completed
       [ {| Reconciler.id := "policies/a/v1.0.0"; Reconciler.status := Reconciler.Delivered |};
         {| Reconciler.id := "policies/b/v2.0.0"; Reconciler.status := Reconciler.PublishFailed |} ]))
    as H.
  destruct H as (_ & _ & _ & Hstay & Hle).
  - intros n. lia.
  - lia.
  - split_and!; [reflexivity|by apply Hstay|exact Hle].
Defined.

Example validate_complete :
  (validatePolicy (rt := example_runtime) (host := complete_host) "/repo"
     (folder_env "validate" (Rejected "")) empty_store).1 =
    Ok {| valid := true; errors := []; warnings := [] |}.
Proof. vm_compute. reflexivity. Qed.

Example publish_complete :
  success <$> (match (publishPolicy (rt := example_runtime) (host := complete_host) "/repo"
                        (folder_env "publish"
                           (Response 201 {| text := "{}"; json := Ok (JObj []) |}))
                        empty_store).1 with
               | Ok r => Some r | Throw _ => None end) = Some true.
Proof. vm_compute. reflexivity. Qed.

(** * Further properties *)

(** ** Parts of the store that a computation keeps *)

Lemma preserves_ret {X A} (part : Store → X) (a : A) : preserves part (mret a).
Proof. done. Qed.

Lemma preserves_throw {X A} (part : Store → X) e : preserves part (throw (A := A) e).
Proof. done. Qed.

Lemma preserves_ask {X A} (part : Store → X) (f : Env → A) : preserves part (ask f).
Proof. done. Qed.

Lemma preserves_lift {X A} (part : Store → X) (r : Result A) : preserves part (lift r).
Proof. done. Qed.

Lemma preserves_bind {X A B} (part : Store → X) (m : M A) (k : A → M B) :
  preserves part m → (∀ a, preserves part (k a)) → preserves part (m ≫= k).
Proof.
  intros Hm Hk env st. unfold_M. specialize (Hm env st).
  destruct (m env st) as [[a|e] st1]; simpl in *; [|done].
  by rewrite (Hk a env st1).
Qed.

Lemma preserves_try_catch {X A} (part : Store → X) (m : M A) (h : JsError → M A) :
  preserves part m → (∀ e, preserves part (h e)) → preserves part (try_catch m h).
Proof.
  intros Hm Hh env st. unfold_M. specialize (Hm env st).
  destruct (m env st) as [[a|e] st1]; simpl in *; [done|].
  by rewrite (Hh e env st1).
Qed.

Lemma preserves_if {X A} (part : Store → X) (b : bool) (m1 m2 : M A) :
  preserves part m1 → preserves part m2 → preserves part (if b then m1 else m2).
Proof. by destruct b. Qed.

Lemma preserves_getInput {X} (part : Store → X) name required :
  preserves part (getInput name required).
Proof. intros env st. unfold getInput. by destruct (_ && _). Qed.

Lemma preserves_quiet {A} (m : M A) :
  quiet m ↔ preserves files m ∧ preserves sent m ∧ preserves failed m.
Proof. unfold quiet, preserves. naive_solver. Qed.

Lemma preserves_setOutput_files name value : preserves files (setOutput name value).
Proof. done. Qed.
Lemma preserves_setOutput_sent name value : preserves sent (setOutput name value).
Proof. done. Qed.
Lemma preserves_setOutput_failed name value : preserves failed (setOutput name value).
Proof. done. Qed.

Lemma preserves_makeRequest_files req : preserves files (makeRequest req).
Proof.
  intros env st. unfold makeRequest.
  destruct (idempotencyKey req) as [[]|]; by destruct (registry env req).
Qed.
Lemma preserves_makeRequest_failed req : preserves failed (makeRequest req).
Proof.
  intros env st. unfold makeRequest.
  destruct (idempotencyKey req) as [[]|]; by destruct (registry env req).
Qed.

Lemma preserves_readDeliveryState {X} (part : Store → X) file :
  preserves part (readDeliveryState file).
Proof.
  intros env st. unfold readDeliveryState.
  by destruct (files st !! file) as [[?|?]|].
Qed.

Lemma preserves_writeDeliveryState_sent file state :
  preserves sent (writeDeliveryState file state).
Proof. intros env st. unfold writeDeliveryState. by destruct (write_error env file). Qed.
Lemma preserves_writeDeliveryState_failed file state :
  preserves failed (writeDeliveryState file state).
Proof. intros env st. unfold writeDeliveryState. by destruct (write_error env file). Qed.

Create HintDb preserves.
#[local] Hint Resolve preserves_ret preserves_throw preserves_ask preserves_lift
  preserves_getInput preserves_setOutput_files preserves_setOutput_sent
  preserves_setOutput_failed preserves_makeRequest_files preserves_makeRequest_failed
  preserves_readDeliveryState preserves_writeDeliveryState_sent
  preserves_writeDeliveryState_failed : preserves.

Ltac preserves_steps :=
  repeat first
    [ apply preserves_bind; [|intros ?]
    | apply preserves_try_catch; [|intros ?]
    | apply preserves_if
    | solve [auto with preserves]
    | match goal with |- preserves _ (let '(_, _) := ?p in _) => destruct p end
    | match goal with |- preserves _ (match ?x with _ => _ end) => destruct x end ].

(** ** The publication, for every response *)

Lemma get_prop_ok v k :
  (∃ x, get_prop v k = Ok x) ↔ v ≠ JNull ∧ v ≠ JUndefined.
Proof. destruct v; simpl; naive_solver. Qed.

Lemma publishToApi_success_iff_aux apiUrl apiKey payloadProps env st :
  let req := publishRequest apiUrl apiKey (GITHUB_SHA env) payloadProps in
  idempotencyKey req ≠ Some JUndefined →
  ∃ result,
    publishToApi apiUrl apiKey payloadProps env st = (Ok result, with_sent st req) ∧
    (success result = true ↔
     ∃ code body,
       registry env req = Response code body ∧
       (code = 409%Z ∨
        ((200 ≤ code < 300)%Z ∧
         responseDataOf body ≠ JNull ∧ responseDataOf body ≠ JUndefined))).
Proof.
  intros req Hkey. eexists. split; [by apply publishToApi_cases|]. fold req.
  destruct (registry env req) as [code body|msg]; [|naive_solver].
  destruct ((200 <=? code)%Z && (code <? 300)%Z) eqn:Hrange.
  - apply andb_true_iff in Hrange as [?%Z.leb_le ?%Z.ltb_lt].
    destruct (get_prop (responseDataOf body) "message") as [msg|e] eqn:Hget; simpl.
    + assert (responseDataOf body ≠ JNull ∧ responseDataOf body ≠ JUndefined)
        as [? ?] by (apply (get_prop_ok _ "message"); eauto).
      split; [|done]. intros _. exists code, body. split; [done|]. right. done.
    + split; [done|]. intros (c & b & [= <- <-] & [->|(_ & Hn & Hu)]); [lia|].
      assert (∃ x, get_prop (responseDataOf body) "message" = Ok x) as [x Hx]
        by (by apply get_prop_ok).
      congruence.
  - assert (¬ (200 ≤ code < 300)%Z) as Hout.
    { apply andb_false_iff in Hrange as [?%Z.leb_gt|?%Z.ltb_ge]; lia. }
    destruct (code =? 409)%Z eqn:H409.
    + apply Z.eqb_eq in H409. simpl. split; [|done]. intros _.
      exists code, body. by split; [|left].
    + apply Z.eqb_neq in H409.
      destruct (get_prop (responseDataOf body) "message"); simpl;
        (split; [done|]); intros (c & b & [= <- <-] & [?|[? _]]); done.
Qed.

(** The idempotency key is undefined exactly when [GITHUB_SHA] is not
    set and the payload has no [commitSha], or an undefined one. *)
Lemma publishRequest_key_undefined apiUrl apiKey sha payloadProps :
  idempotencyKey (publishRequest apiUrl apiKey sha payloadProps) = Some JUndefined ↔
  sha = "" ∧ default JUndefined (assoc "commitSha" payloadProps) = JUndefined.
Proof.
  unfold publishRequest, js_or. simpl.
  destruct (String.eqb_spec sha "") as [->|Hne]; simpl.
  - split; [intros [= ->]; done|intros [_ ->]; done].
  - split; [intros [= ->]; done|intros [? _]; done].
Qed.


(** ** The payload and the publication of a policy *)

Lemma getInput_required_cases env st name :
  (∃ v, supplied env name v ∧ getInput name true env st = (Ok v, st)) ∨
  getInput name true env st =
    (Throw (Error ("Input required and not supplied: " +:+ name)), st).
Proof.
  destruct (decide (default "" (inputs env !! name) = "")) as [Hempty|Hne].
  - right. by apply getInput_missing.
  - left. exists (default "" (inputs env !! name)).
    assert (supplied env name (default "" (inputs env !! name))) as Hsup.
    { split; [|done]. destruct (inputs env !! name); naive_solver. }
    split; [done|]. by apply getInput_supplied.
Qed.

Lemma js_or_release_key env :
  js_or (JStr (GITHUB_SHA env)) (JStr "unknown") = releaseKey env.
Proof.
  unfold js_or, releaseKey. simpl. by destruct (String.eqb (GITHUB_SHA env) "").
Qed.

Section Publication.
Context {rt : Runtime} {host : Host}.

Lemma payload_contents_aux policyDir policyName policyVersion env st :
  ∃ payload,
    preparePolicyPayload policyDir policyName policyVersion env st = (Ok payload, st) ∧
    assoc "commitSha" payload = Some (releaseKey env).
Proof.
  unfold preparePolicyPayload. unfold_M. cbv zeta.
  eexists. split; [reflexivity|]. rewrite js_or_release_key. unfold JSON_parse.
  destruct (readFile (path_join policyDir "metadata.json")) as [[t [m|e]]|?|?];
    destruct (readFile (path_join policyDir "policy-definition.yaml")) as [[t' j']|?|?];
    simpl; done.
Qed.

(** X2. [preparePolicyPayload] never throws and leaves the store alone.
    The payload always has the name, the version, the time and, as
    [commitSha], the commit of the release or [unknown]; it has [metadata]
    exactly when [metadata.json] can be read and is JSON, and [definition]
    exactly when [policy-definition.yaml] can be read. *)
Theorem payload_contents (policyDir policyName policyVersion : string)
    (env : Env) (st : Store) :
  ∃ payload,
    preparePolicyPayload policyDir policyName policyVersion env st = (Ok payload, st) ∧
    assoc "name" payload = Some (JStr policyName) ∧
    assoc "version" payload = Some (JStr policyVersion) ∧
    assoc "commitSha" payload = Some (releaseKey env) ∧
    assoc "timestamp" payload = Some (JStr (now env)) ∧
    assoc "metadata" payload =
      match readFile (path_join policyDir "metadata.json") with
      | FileText content =>
          match json content with Ok metadata => Some metadata | Throw _ => None end
      | _ => None
      end ∧
    assoc "definition" payload =
      match readFile (path_join policyDir "policy-definition.yaml") with
      | FileText content => Some (JStr (text content))
      | _ => None
      end.
Proof.
  unfold preparePolicyPayload. unfold_M. cbv zeta.
  eexists. split; [reflexivity|]. rewrite js_or_release_key. unfold JSON_parse.
  destruct (readFile (path_join policyDir "metadata.json")) as [[t [m|e]]|?|?];
    destruct (readFile (path_join policyDir "policy-definition.yaml")) as [[t' j']|?|?];
    simpl; done.
Qed.

Lemma publishRequest_key apiUrl apiKey env payload :
  assoc "commitSha" payload = Some (releaseKey env) →
  idempotencyKey (publishRequest apiUrl apiKey (GITHUB_SHA env) payload)
    = Some (releaseKey env).
Proof.
  intros Hsha. unfold publishRequest, js_or, releaseKey in *. simpl.
  rewrite Hsha. simpl. by destruct (String.eqb (GITHUB_SHA env) "").
Qed.

(** [publishPolicy] with its inputs supplied, step by step. *)
Lemma publishPolicy_eq workspace env st
    policyPath policyName policyVersion policySha apiUrl apiKey :
  supplied env "policy-path" policyPath →
  supplied env "policy-name" policyName →
  supplied env "policy-version" policyVersion →
  supplied env "policy-sha" policySha →
  supplied env "api-url" apiUrl →
  supplied env "api-key" apiKey →
  ∃ payload result,
    assoc "commitSha" payload = Some (releaseKey env) ∧
    publishToApi apiUrl apiKey payload env st =
      (Ok result,
       with_sent st (publishRequest apiUrl apiKey (GITHUB_SHA env) payload)) ∧
    publishPolicy workspace env st =
      (if success result then Ok result
       else Throw (Error ("Failed to publish policy: " +:+
                          js_to_string (publish_message result))),
       with_outputs
         (with_sent st (publishRequest apiUrl apiKey (GITHUB_SHA env) payload))
         ([("published", Plain (if success result then "true" else "false"));
           ("api-response", output_of (publish_message result))] ++
          (if truthy (opt_get (default JUndefined (data result)) "url")
           then [("policy-url",
                  output_of (opt_get (default JUndefined (data result)) "url"))]
           else []))).
Proof.
  intros Hp Hn Hv Hs Hu Hk.
  destruct (payload_contents_aux (path_resolve workspace policyPath)
              policyName policyVersion env st) as (payload & Hpayload & Hsha).
  pose proof (publishToApi_cases apiUrl apiKey payload env st) as Hpublish.
  cbv zeta in Hpublish.
  rewrite (publishRequest_key apiUrl apiKey env payload Hsha) in Hpublish.
  specialize (Hpublish ltac:(unfold releaseKey; discriminate)).
  eexists payload, _. split; [done|]. split; [exact Hpublish|].
  unfold publishPolicy. unfold_M.
  rewrite (getInput_supplied _ _ _ _ _ Hp), (getInput_supplied _ _ _ _ _ Hn),
    (getInput_supplied _ _ _ _ _ Hv), (getInput_supplied _ _ _ _ _ Hs),
    (getInput_supplied _ _ _ _ _ Hu), (getInput_supplied _ _ _ _ _ Hk).
  rewrite Hpayload, Hpublish.
  unfold setOutput, with_outputs, with_sent. simpl.
  match goal with |- context [success ?r] => generalize r end. intros result.
  destruct (truthy (opt_get (default JUndefined (data result)) "url"));
    destruct (success result); simpl; by rewrite <- ?app_assoc.
Qed.

Lemma publishPolicy_frame (workspace : string) (env : Env) (st : Store) :
  let st' := (publishPolicy workspace env st).2 in
  files st' = files st ∧
  failed st' = failed st ∧
  (sent st' = sent st ∨
   ∃ req : Request,
     sent st' = (sent st ++ [req])%list ∧
     method req = "POST" ∧
     idempotencyKey req = Some (releaseKey env)).
Proof.
  destruct (getInput_required_cases env st "policy-path") as [(p & Hp & _)|He];
    [|unfold publishPolicy; unfold_M; rewrite He; simpl; auto].
  destruct (getInput_required_cases env st "policy-name") as [(n & Hn & _)|He];
    [|unfold publishPolicy; unfold_M;
      rewrite (getInput_supplied _ _ _ _ _ Hp), He; simpl; auto].
  destruct (getInput_required_cases env st "policy-version") as [(v & Hv & _)|He];
    [|unfold publishPolicy; unfold_M;
      rewrite (getInput_supplied _ _ _ _ _ Hp), (getInput_supplied _ _ _ _ _ Hn), He;
      simpl; auto].
  destruct (getInput_required_cases env st "policy-sha") as [(s & Hs & _)|He];
    [|unfold publishPolicy; unfold_M;
      rewrite (getInput_supplied _ _ _ _ _ Hp), (getInput_supplied _ _ _ _ _ Hn),
        (getInput_supplied _ _ _ _ _ Hv), He; simpl; auto].
  destruct (getInput_required_cases env st "api-url") as [(u & Hu & _)|He];
    [|unfold publishPolicy; unfold_M;
      rewrite (getInput_supplied _ _ _ _ _ Hp), (getInput_supplied _ _ _ _ _ Hn),
        (getInput_supplied _ _ _ _ _ Hv), (getInput_supplied _ _ _ _ _ Hs), He;
      simpl; auto].
  destruct (getInput_required_cases env st "api-key") as [(k & Hk & _)|He];
    [|unfold publishPolicy; unfold_M;
      rewrite (getInput_supplied _ _ _ _ _ Hp), (getInput_supplied _ _ _ _ _ Hn),
        (getInput_supplied _ _ _ _ _ Hv), (getInput_supplied _ _ _ _ _ Hs),
        (getInput_supplied _ _ _ _ _ Hu), He; simpl; auto].
  destruct (publishPolicy_eq workspace env st p n v s u k Hp Hn Hv Hs Hu Hk)
    as (payload & result & Hsha & _ & ->).
  simpl. split_and!; [done..|]. right. eexists. split_and!; [done..|].
  by apply publishRequest_key.
Qed.

(** X3. Whatever its inputs and the answer of the registry,
    [publishPolicy] writes no state file and does not fail the action by
    itself; it sends no request or one POST, whose idempotency key is the
    commit of the release ([unknown] when [GITHUB_SHA] is not set): the key
    is the same for all the policies of a release. *)
Theorem publishPolicy_key_and_frame (workspace : string) (env : Env) (st : Store) :
  let st' := (publishPolicy workspace env st).2 in
  files st' = files st ∧
  failed st' = failed st ∧
  (sent st' = sent st ∨
   ∃ req : Request,
     sent st' = (sent st ++ [req])%list ∧
     method req = "POST" ∧
     idempotencyKey req = Some (releaseKey env)).
Proof. apply publishPolicy_frame. Qed.


End Publication.


(** ** The state file across operations *)

Section StateFileUse.
Context {rt : Runtime}.

Lemma checkDeliveryStatus_eq workspace env st policyPath stateFile state :
  supplied env "policy-path" policyPath →
  supplied env "state-file" stateFile →
  ledger st (path_resolve workspace stateFile) = Some state →
  ∃ decision,
    shouldDeliver policyPath state = Ok decision ∧
    shouldDeliver_ decision = negb (truthy (lookup_record state policyPath)) ∧
    checkDeliveryStatus workspace env st =
      (Ok decision,
       with_outputs st
         [("should-deliver", Plain (if shouldDeliver_ decision then "true" else "false"));
          ("delivery-reason", Plain (reason decision))]).
Proof.
  intros Hp Hf Hl.
  assert (∃ decision, shouldDeliver policyPath state = Ok decision ∧
            shouldDeliver_ decision = negb (truthy (lookup_record state policyPath)))
    as (decision & Hd & Hb).
  { unfold shouldDeliver.
    destruct (truthy (lookup_record state policyPath)) eqn:Ht; simpl; [|eauto].
    destruct (lookup_record state policyPath); simpl in *; try done; eauto. }
  exists decision. split_and!; [done..|].
  unfold checkDeliveryStatus. unfold_M.
  rewrite (getInput_supplied _ _ _ _ _ Hp), (getInput_supplied _ _ _ _ _ Hf).
  rewrite (readDeliveryState_ledger _ _ _ _ Hl), Hd.
  unfold setOutput, with_outputs. simpl. by rewrite <- !app_assoc.
Qed.

(** X5. What [updateDeliveryState] writes, [checkDeliveryStatus] reads
    back: after an update for a path (any string but [__proto__], which
    names the prototype of the state object and not a record), the check
    of that path on the same state file answers [should-deliver = false]
    with the reason [version-immutable] and, as [lastDeliveredAt], the
    time of the update; the check of any other path answers as it did
    before the update. *)
Theorem update_then_check (workspace : string) (env1 env2 : Env) (st : Store)
    (policyPath releaseTag stateFile : string) (state : gmap string JsVal) :
  supplied env1 "policy-path" policyPath →
  policyPath ≠ "__proto__" →
  supplied env1 "release-tag" releaseTag →
  supplied env1 "state-file" stateFile →
  supplied env2 "state-file" stateFile →
  ledger st (path_resolve workspace stateFile) = Some state →
  write_error env1 (path_resolve workspace stateFile) = None →
  let st1 := (updateDeliveryState workspace env1 st).2 in
  (supplied env2 "policy-path" policyPath →
   ∃ decision st2,
     checkDeliveryStatus workspace env2 st1 = (Ok decision, st2) ∧
     shouldDeliver_ decision = false ∧
     reason decision = "version-immutable" ∧
     lastDeliveredAt decision = JStr (now env1) ∧
     ("should-deliver", Plain "false") ∈ outputs st2) ∧
  (∀ other,
     other ≠ policyPath → supplied env2 "policy-path" other →
     (checkDeliveryStatus workspace env2 st1).1 =
     (checkDeliveryStatus workspace env2 st).1).
Proof.
  intros Hp Hkey Hr Hf Hf2 Hl Hw st1.
  pose proof (updateDeliveryState_writes _ _ _ _ _ _ _ Hp Hr Hf Hl Hw) as Hupd.
  assert (ledger st1 (path_resolve workspace stateFile) =
          Some (updatePolicyRecord state policyPath releaseTag (now env1))) as Hl1.
  { subst st1. rewrite Hupd. unfold ledger. simpl. by rewrite lookup_insert_eq. }
  split.
  - intros Hp2.
    destruct (checkDeliveryStatus_eq workspace env2 st1 _ _ _ Hp2 Hf2 Hl1)
      as (decision & Hd & Hb & Heq).
    unfold shouldDeliver, lookup_record in Hd.
    rewrite updatePolicyRecord_lookup in Hd by done.
    simpl in Hd. injection Hd as <-.
    eexists _, _. split; [exact Heq|]. simpl. split_and!; try done.
    apply elem_of_app. right. by left.
  - intros other Hne Ho.
    destruct (checkDeliveryStatus_eq workspace env2 st1 _ _ _ Ho Hf2 Hl1)
      as (d1 & Hd1 & _ & ->).
    destruct (checkDeliveryStatus_eq workspace env2 st _ _ _ Ho Hf2 Hl)
      as (d0 & Hd0 & _ & ->).
    simpl. unfold shouldDeliver, lookup_record in Hd1, Hd0.
    rewrite updatePolicyRecord_other in Hd1 by done. congruence.
Qed.

Lemma after_failed_write_left failure file state st :
  after_failed_write failure file st
    {| files := left_by failure file state (files st); outputs := outputs st;
       sent := sent st; failed := failed st |}.
Proof.
  unfold after_failed_write, left_by. simpl. split_and!; [done..| |].
  - intros other Hne. destruct (leaves failure); [done|..];
      by apply lookup_insert_ne.
  - destruct (leaves failure); [done|apply lookup_insert_eq|].
    eexists. apply lookup_insert_eq.
Qed.

(** X6. State-file errors are contained.  A state file that cannot be
    read is never overwritten: [updateDeliveryState] throws "Failed to
    read delivery state: ..." and [updateStateForExistingPolicy] returns,
    both with the store as it was.  When the write fails,
    [updateDeliveryState] throws the error of the write, without the
    output [state-updated], and [updateStateForExistingPolicy] returns;
    the store is then as it was but for the state file, which is as the
    failed write leaves it: as it was, or truncated, or written. *)
Theorem failed_state_io_is_contained (workspace : string) (env : Env) (st : Store)
    (policyPath releaseTag stateFile : string) :
  supplied env "policy-path" policyPath →
  supplied env "release-tag" releaseTag →
  supplied env "state-file" stateFile →
  let file := path_resolve workspace stateFile in
  (ledger st file = None →
   (∃ msg, updateDeliveryState workspace env st =
             (Throw (Error ("Failed to read delivery state: " +:+ msg)), st)) ∧
   ∀ path, updateStateForExistingPolicy file path env st = (Ok tt, st)) ∧
  (∀ failure, is_Some (ledger st file) → write_error env file = Some failure →
     (∃ st',
        updateDeliveryState workspace env st =
          (Throw (Error (write_message failure)), st') ∧
        after_failed_write failure file st st') ∧
     ∀ path, ∃ st',
       updateStateForExistingPolicy file path env st = (Ok tt, st') ∧
       after_failed_write failure file st st').
Proof.
  intros Hp Hr Hf file. split.
  - intros Hl. destruct (readDeliveryState_unreadable env st file Hl) as [msg Hread].
    split.
    + exists msg. unfold updateDeliveryState. unfold_M.
      rewrite (getInput_supplied _ _ _ _ _ Hp), (getInput_supplied _ _ _ _ _ Hr),
        (getInput_supplied _ _ _ _ _ Hf).
      fold file. by rewrite Hread.
    + intros path. unfold updateStateForExistingPolicy. unfold_M. by rewrite Hread.
  - intros failure [state Hl] Hw. split.
    + eexists. split; [|apply (after_failed_write_left failure file)].
      unfold updateDeliveryState. unfold_M.
      rewrite (getInput_supplied _ _ _ _ _ Hp), (getInput_supplied _ _ _ _ _ Hr),
        (getInput_supplied _ _ _ _ _ Hf).
      fold file. rewrite (readDeliveryState_ledger _ _ _ _ Hl).
      unfold writeDeliveryState. rewrite Hw. reflexivity.
    + intros path. eexists. split; [|apply (after_failed_write_left failure file)].
      unfold updateStateForExistingPolicy. unfold_M.
      rewrite (readDeliveryState_ledger _ _ _ _ Hl).
      unfold writeDeliveryState. rewrite Hw. reflexivity.
Qed.

End StateFileUse.

(** X7. Marks accumulate.  After [updateStateForExistingPolicy] for one
    path and then, at its own time, for another, the state file holds the
    record of each with the time of its own mark, and every other record
    as before; no other file has changed.  (The paths are any two
    strings but [__proto__].) *)
Theorem existing_marks_accumulate (file path1 path2 : string) (env1 env2 : Env)
    (st : Store) (state : gmap string JsVal) :
  ledger st file = Some state →
  write_error env1 file = None →
  write_error env2 file = None →
  path1 ≠ "__proto__" → path2 ≠ "__proto__" → path1 ≠ path2 →
  let st1 := (updateStateForExistingPolicy file path1 env1 st).2 in
  let st2 := (updateStateForExistingPolicy file path2 env2 st1).2 in
  ∃ state2,
    ledger st2 file = Some state2 ∧
    state2 !! path1 = Some (existingRecord (now env1)) ∧
    state2 !! path2 = Some (existingRecord (now env2)) ∧
    (∀ other, other ≠ path1 → other ≠ path2 → state2 !! other = state !! other) ∧
    (∀ other, other ≠ file → files st2 !! other = files st !! other).
Proof.
  intros Hl Hw1 Hw2 Hk1 Hk2 Hne st1 st2.
  assert (∀ env st0 state0 path,
            ledger st0 file = Some state0 → write_error env file = None →
            path ≠ "__proto__" →
            updateStateForExistingPolicy file path env st0 =
              (Ok tt,
               {| files := <[file := Holds (<[path := existingRecord (now env)]> state0)]>
                             (files st0);
                  outputs := outputs st0; sent := sent st0; failed := failed st0 |}))
    as Hmark.
  { intros env st0 state0 path Hl0 Hw0 Hk0.
    unfold updateStateForExistingPolicy. unfold_M.
    rewrite (readDeliveryState_ledger _ _ _ _ Hl0).
    rewrite (writeDeliveryState_ok _ _ _ _ Hw0).
    by rewrite assign_insert. }
  subst st2 st1. rewrite (Hmark env1 st state path1 Hl Hw1 Hk1). simpl.
  erewrite Hmark; [|unfold ledger; simpl; by rewrite lookup_insert_eq|done..].
  simpl. eexists. split_and!.
  - unfold ledger. simpl. by rewrite lookup_insert_eq.
  - rewrite lookup_insert_ne by done. apply lookup_insert_eq.
  - apply lookup_insert_eq.
  - intros other H1 H2. by rewrite !lookup_insert_ne.
  - intros other Hother. by rewrite !lookup_insert_ne.
Qed.

Lemma update_then_check_witness :
  let env1 := example_env_for "update-state" true "" (Rejected "") in
  let env2 := example_env_for "check-status" true "" (Rejected "") in
  ∃ decision st2,
    checkDeliveryStatus (rt := example_runtime) "/repo" env2
      (updateDeliveryState (rt := example_runtime) "/repo" env1 empty_store).2
      = (Ok decision, st2) ∧
    shouldDeliver_ decision = false ∧
    reason decision = "version-immutable" ∧
    lastDeliveredAt decision = JStr "2025-12-16T10:30:00.000Z" ∧
    ("should-deliver", Plain "false") ∈ outputs st2.
Proof.
  intros env1 env2.
  destruct (update_then_check (rt := example_runtime) "/repo" env1 env2 empty_store
              "policies/x/v1.0.0" "r2" ".state/delivered.json" ∅) as [H _];
    try (split; [vm_compute; reflexivity|discriminate]); try reflexivity;
    [discriminate|].
  apply H. split; [vm_compute; reflexivity|discriminate].
Defined.

Lemma failed_state_io_is_contained_witness :
  let env := failing_env (Truncated "Unexpected end of JSON input") in
  (∃ st',
     updateDeliveryState (rt := example_runtime) "/repo" env delivered_store =
       (Throw (Error "ENOSPC: no space left on device, write"), st') ∧
     after_failed_write (failure_of env) example_file delivered_store st') ∧
  ∀ path, ∃ st',
    updateStateForExistingPolicy example_file path env delivered_store = (Ok tt, st') ∧
    after_failed_write (failure_of env) example_file delivered_store st'.
Proof.
  intros env.
  destruct (failed_state_io_is_contained (rt := example_runtime) "/repo" env
              delivered_store "policies/x/v1.0.0" "r2" ".state/delivered.json")
    as (_ & Hwrite);
    try (split; [vm_compute; reflexivity|discriminate]).
  apply (Hwrite (failure_of env)).
  - eexists. vm_compute. reflexivity.
  - reflexivity.
Defined.

Lemma existing_marks_accumulate_witness :
  let env1 := example_env true "" (Rejected "") in
  let env2 := later_env in
  let st2 :=
    (updateStateForExistingPolicy example_file "policies/b/v2.0.0" env2
       (updateStateForExistingPolicy example_file "policies/a/v1.0.0" env1
          delivered_store).2).2 in
  ∃ state2,
    ledger st2 example_file = Some state2 ∧
    state2 !! "policies/a/v1.0.0" = Some (existingRecord "2025-12-16T10:30:00.000Z") ∧
    state2 !! "policies/b/v2.0.0" = Some (existingRecord "2025-12-16T10:31:00.000Z") ∧
    (∀ other, other ≠ "policies/a/v1.0.0" → other ≠ "policies/b/v2.0.0" →
              state2 !! other =
              ({[ "policies/x/v1.0.0" := example_record ]} : gmap string JsVal) !! other) ∧
    (∀ other, other ≠ example_file →
              files st2 !! other = files delivered_store !! other).
Proof.
  intros env1 env2 st2.
  apply (existing_marks_accumulate example_file "policies/a/v1.0.0"
           "policies/b/v2.0.0" env1 env2 delivered_store
           {[ "policies/x/v1.0.0" := example_record ]});
    solve [vm_compute; reflexivity | discriminate].
Defined.

(** ** More on the detection *)

Lemma append_assoc_string a b c : a +:+ (b +:+ c) = (a +:+ b) +:+ c.
Proof.
  induction a as [|x a IH]; [done|].
  change (String x a +:+ (b +:+ c)) with (String x (a +:+ (b +:+ c))).
  by rewrite IH.
Qed.

Lemma split_single sep s part : split sep s = [part] → s = part.
Proof.
  revert part. induction s as [|c s IH]; simpl; intros part.
  - by intros [= <-].
  - destruct (Ascii.eqb c sep).
    + intros [= <- Hnil]. by apply split_nonempty in Hnil.
    + destruct (split sep s) as [|p ps] eqn:Hs; [by apply split_nonempty in Hs|].
      intros [= <- ->]. by rewrite (IH p).
Qed.

Lemma split_cons sep s part next parts :
  split sep s = part :: next :: parts →
  ∃ rest, s = part +:+ String sep rest ∧ split sep rest = next :: parts.
Proof.
  revert part. induction s as [|c s IH]; simpl; intros part; [done|].
  destruct (Ascii.eqb_spec c sep) as [->|Hne].
  - intros [= <- Hs]. by exists s.
  - destruct (split sep s) as [|p ps] eqn:Hs; [done|].
    intros [= <- ->]. destruct (IH p eq_refl) as (rest & -> & Hrest).
    by exists rest.
Qed.

(** X8. The folder of a changed file is the file itself or a directory
    above it, and is its own folder: for a valid path,
    [extractPolicyFolder] returns the first three segments, a prefix of the
    path that ends at a separator, which is again a valid path with the
    same folder. *)
Theorem policy_folder_is_prefix (file : string) :
  isValidPolicyPath file = true →
  ∃ folder,
    extractPolicyFolder file = Some folder ∧
    (file = folder ∨ ∃ rest, file = folder +:+ "/" +:+ rest) ∧
    isValidPolicyPath folder = true ∧
    extractPolicyFolder folder = Some folder.
Proof.
  intros Hvalid. destruct (valid_changes file Hvalid) as (p & Hp & Hfolder).
  exists (path p). split; [done|].
  destruct Hp as (nm & ver & rest & Hs & Hv & ->). cbn [path] in *.
  assert (occurs "/" nm = false ∧ occurs "/" ver = false) as [Hnm Hver].
  { split; apply (split_parts_free _ file); rewrite Hs; set_solver. }
  pose proof (split_folder nm ver Hnm Hver) as Hsplit.
  split_and!.
  - apply split_cons in Hs as (r1 & -> & Hs).
    apply split_cons in Hs as (r2 & -> & Hs).
    destruct rest as [|next rest].
    + left. apply split_single in Hs as ->. done.
    + right. apply split_cons in Hs as (r3 & -> & _). exists r3.
      change ("policies/" +:+ nm +:+ "/" +:+ ver)
        with ("policies/" +:+ (nm +:+ String "/" ver)).
      rewrite <- !append_assoc_string. done.
  - apply valid_split. exists nm, ver, []. split; [done|].
    by apply version_pattern_semver.
  - unfold extractPolicyFolder. by rewrite Hsplit.
Qed.

Lemma policy_folder_is_prefix_witness :
  ∃ folder,
    extractPolicyFolder "policies/x/v1.0.0/docs/overview.md" = Some folder ∧
    ("policies/x/v1.0.0/docs/overview.md" = folder ∨
     ∃ rest, "policies/x/v1.0.0/docs/overview.md" = folder +:+ "/" +:+ rest) ∧
    isValidPolicyPath folder = true ∧
    extractPolicyFolder folder = Some folder.
Proof. apply policy_folder_is_prefix. reflexivity. Defined.

Section MoreDetection.
Context {rt : Runtime}.

(** X9. Every policy that the detection returns has the path
    [policies/<name>/<version>]: its path splits into exactly these three
    segments, the name and the version contain no separator, the version
    has the pattern, and the count returned is the number of policies. *)
Theorem detected_policies_are_well_formed
    (workspace : string) (env : Env) (st st' : Store) (result : Detection) :
  detectChangedPolicies workspace env st = (Ok result, st') →
  count result = length (policies result) ∧
  ∀ p, p ∈ policies result →
    split "/" (path p) = ["policies"; name p; version p] ∧
    path p = "policies/" +:+ name p +:+ "/" +:+ version p ∧
    semver (version p) ∧
    isValidPolicyPath (path p) = true.
Proof.
  intros Hdet.
  destruct (detect_cases workspace env st)
    as [[e He]|(baseline & diff & _ & _ & _ & _ & [[_ He]|(state & _ & He)])];
    rewrite He in Hdet; simplify_eq/=.
  - split; [done|]. by intros p ?%not_elem_of_nil.
  - split; [done|]. intros p [(file & _ & Hp) _]%pendingPolicies_elem.
    destruct Hp as (nm & ver & rest & Hs & Hv & ->). cbn [path name version].
    assert (occurs "/" nm = false ∧ occurs "/" ver = false) as [Hnm Hver].
    { split; apply (split_parts_free _ file); rewrite Hs; set_solver. }
    pose proof (split_folder nm ver Hnm Hver) as Hsplit.
    split_and!; [done..|].
    apply valid_split. exists nm, ver, []. split; [done|].
    by apply version_pattern_semver.
Qed.

(** X10. An unreadable state file fails the detection only when there is
    something to filter: when no changed file lies in a policy folder the
    detection returns the empty result without reading the state file, and
    when one does it throws "Failed to read delivery state: ..." before it
    sets any output. *)
Theorem detection_with_unreadable_state
    (workspace baseline diff : string) (env : Env) (st : Store) :
  supplied env "baseline-sha" baseline →
  chdir_error env workspace = None →
  (∃ out, git env ["cat-file"; "-e"; baseline] = Ok out) →
  git env ["diff"; "--name-only"; baseline +:+ "..HEAD"] = Ok diff →
  ledger st (detectionStateFile env workspace) = None →
  ((∀ file, file ∈ changedFiles diff → isValidPolicyPath file = false) →
   detectChangedPolicies workspace env st =
     (Ok {| policies := []; count := 0 |}, with_outputs st (detectionOutputs [] 0))) ∧
  ((∃ file, file ∈ changedFiles diff ∧ isValidPolicyPath file = true) →
   ∃ msg, detectChangedPolicies workspace env st =
            (Throw (Error ("Failed to read delivery state: " +:+ msg)), st)).
Proof.
  intros Hb Hcd [out Hcat] Hdiff Hl.
  assert (
    detectChangedPolicies workspace env st =
      (if String.eqb diff "" then setDetectionOutputs [] 0
       else if bool_decide (length (collectFolders (changedFiles diff)) = 0%nat)
            then setDetectionOutputs [] 0
            else readDeliveryState (detectionStateFile env workspace) ≫=
                 (λ deliveryState,
                    let sorted := pendingPolicies deliveryState (changedFiles diff) in
                    setDetectionOutputs sorted (length sorted))) env st) as Heq.
  { unfold detectChangedPolicies. unfold_M.
    rewrite (getInput_supplied _ _ _ _ _ Hb). unfold chdir, execGit.
    rewrite Hcd, Hcat, Hdiff.
    destruct (String.eqb diff ""); [done|].
    fold (changedFiles diff). case_bool_decide; [done|].
    assert (getInput "state-file" false env st =
            (Ok (default "" (inputs env !! "state-file")), st)) as -> by done.
    assert (path_resolve workspace
              (if String.eqb (default "" (inputs env !! "state-file")) ""
               then ".state/delivered.json"
               else default "" (inputs env !! "state-file"))
            = detectionStateFile env workspace) as ->.
    { unfold detectionStateFile. by destruct (inputs env !! "state-file"). }
    done. }
  rewrite Heq. clear Heq. split.
  - intros Hnone.
    assert (collectFolders (changedFiles diff) = []) as Hnil.
    { destruct (collectFolders (changedFiles diff)) as [|x l] eqn:Hc; [done|].
      assert (x ∈ collectFolders (changedFiles diff)) as Hx by (rewrite Hc; left).
      apply collectFolders_elem in Hx as (file & Hin & Hvalid & _).
      by rewrite (Hnone file Hin) in Hvalid. }
    rewrite Hnil. simpl.
    destruct (String.eqb diff ""); by rewrite setDetectionOutputs_eq.
  - intros (file & Hin & Hvalid).
    destruct (valid_changes file Hvalid) as (p & _ & Hfolder).
    assert (path p ∈ collectFolders (changedFiles diff)) as Hmem
      by (apply collectFolders_elem; eauto).
    destruct (String.eqb_spec diff "") as [->|Hne].
    { by apply not_elem_of_nil in Hin. }
    case_bool_decide as Hlen.
    { apply nil_length_inv in Hlen. rewrite Hlen in Hmem.
      by apply not_elem_of_nil in Hmem. }
    destruct (readDeliveryState_unreadable env st _ Hl) as [msg Hread].
    exists msg. unfold_M. by rewrite Hread.
Qed.

(** X11. The probe heals a stale state file: after a probe that found
    the policy in the registry and could write the state file, the
    detection over that state file no longer returns the policy, whatever
    the diff. *)
Theorem probe_then_detection
    (workspace : string) (env1 env2 : Env) (st : Store)
    (policyName policyVersion policySha apiUrl apiKey stateFile policyPath : string)
    (body : Body) (value : JsVal) :
  supplied env1 "policy-name" policyName →
  supplied env1 "policy-version" policyVersion →
  supplied env1 "policy-sha" policySha →
  supplied env1 "api-url" apiUrl →
  supplied env1 "api-key" apiKey →
  supplied env1 "state-file" stateFile →
  supplied env1 "policy-path" policyPath →
  registry env1 (probeRequest apiUrl apiKey policyName policyVersion)
    = Response 200 body →
  json body = Ok value →
  is_Some (ledger st (path_resolve workspace stateFile)) →
  write_error env1 (path_resolve workspace stateFile) = None →
  detectionStateFile env2 workspace = path_resolve workspace stateFile →
  let st1 := (checkApiExistence workspace env1 st).2 in
  ∀ result st2,
    detectChangedPolicies workspace env2 st1 = (Ok result, st2) →
    ∀ p, p ∈ policies result → path p ≠ policyPath.
Proof.
  intros Hn Hv Hs Hu Hk Hf Hp Hreg Hjson [state Hl] Hw Hsame st1 result st2 Hdet.
  assert (ledger st1 (detectionStateFile env2 workspace) =
          Some (assign state policyPath (existingRecord (now env1)))) as Hl1.
  { rewrite Hsame. subst st1.
    pose proof (checkPolicyExistsInApi_cases apiUrl apiKey policyName policyVersion
                  env1 st) as Hprobe.
    cbv zeta in Hprobe. rewrite Hreg in Hprobe. simpl in Hprobe.
    rewrite Hjson in Hprobe.
    unfold checkApiExistence. unfold_M.
    rewrite (getInput_supplied _ _ _ _ _ Hn), (getInput_supplied _ _ _ _ _ Hv),
      (getInput_supplied _ _ _ _ _ Hs), (getInput_supplied _ _ _ _ _ Hu),
      (getInput_supplied _ _ _ _ _ Hk), (getInput_supplied _ _ _ _ _ Hf).
    rewrite Hprobe. simpl. unfold getInput. destruct Hp as [Hp _].
    rewrite Hp. simpl.
    unfold updateStateForExistingPolicy. unfold_M.
    unfold readDeliveryState, writeDeliveryState, ledger in *. simpl.
    rewrite Hw. unfold setOutput. simpl.
    destruct (files st !! path_resolve workspace stateFile) as [[msg|records]|];
      simplify_eq/=; by rewrite lookup_insert_eq. }
  destruct (detect_returns_pending _ _ _ _ _ _ Hdet Hl1)
    as (baseline & diff & _ & Hps & _).
  intros p Hin Heq. rewrite Hps in Hin.
  apply pendingPolicies_elem in Hin as [(file & _ & Hchanges) Hund].
  destruct (decide (policyPath = "__proto__")) as [Hproto|Hkey].
  - destruct Hchanges as (nm & ver & rest & _ & _ & ->).
    simpl in Heq. rewrite Hproto in Heq. discriminate.
  - apply Hund. unfold delivered, lookup_record.
    by rewrite Heq, assign_insert, lookup_insert_eq.
Qed.

End MoreDetection.

Lemma detected_policies_are_well_formed_witness :
  let diff := "policies/b/v2.0.0/metadata.json" +:+ String "010" "README.md" in
  let run := detectChangedPolicies (rt := example_runtime) "/repo"
               (example_env true diff (Rejected "")) empty_store in
  run.1 = Ok {| policies := [policy_b]; count := 1 |} ∧
  split "/" (path policy_b) = ["policies"; "b"; "v2.0.0"] ∧
  semver "v2.0.0".
Proof.
  intros diff run.
  assert (run = (Ok {| policies := [policy_b]; count := 1 |}, run.2)) as Hrun
    by (vm_compute; reflexivity).
  destruct (detected_policies_are_well_formed (rt := example_runtime) _ _ _ _ _ Hrun)
    as [_ Hall].
  destruct (Hall policy_b) as (Hsplit & _ & Hsemver & _); [by left|].
  split_and!; [by rewrite Hrun|exact Hsplit|exact Hsemver].
Defined.

Lemma detection_with_unreadable_state_witness :
  (detectChangedPolicies (rt := example_runtime) "/repo"
     (example_env true "README.md" (Rejected "")) corrupt_store =
   (Ok {| policies := []; count := 0 |},
    with_outputs corrupt_store (detectionOutputs [] 0))) ∧
  ∃ msg,
    detectChangedPolicies (rt := example_runtime) "/repo"
      (example_env true "policies/x/v1.0.0/metadata.json" (Rejected "")) corrupt_store =
    (Throw (Error ("Failed to read delivery state: " +:+ msg)), corrupt_store).
Proof.
  split.
  - destruct (detection_with_unreadable_state (rt := example_runtime) "/repo" "c1"
                "README.md" (example_env true "README.md" (Rejected "")) corrupt_store)
      as [Hnone _];
      [split; [vm_compute; reflexivity|discriminate]|reflexivity|by exists ""
      |reflexivity|reflexivity|].
    apply Hnone. intros file Hin.
    assert (file = "README.md") as ->; [|reflexivity].
    vm_compute in Hin. by apply list_elem_of_singleton in Hin.
  - destruct (detection_with_unreadable_state (rt := example_runtime) "/repo" "c1"
                "policies/x/v1.0.0/metadata.json"
                (example_env true "policies/x/v1.0.0/metadata.json" (Rejected ""))
                corrupt_store)
      as [_ Hsome];
      [split; [vm_compute; reflexivity|discriminate]|reflexivity|by exists ""
      |reflexivity|reflexivity|].
    apply Hsome. exists "policies/x/v1.0.0/metadata.json". split; [|reflexivity].
    vm_compute. by left.
Defined.

Lemma probe_then_detection_witness :
  let env1 := example_env_for "check-api-existence" true ""
                (Response 200 {| text := "{}"; json := Ok (JObj []) |}) in
  let env2 := example_env true "policies/x/v1.0.0/metadata.json" (Rejected "") in
  Forall (λ p, path p ≠ "policies/x/v1.0.0")
    (match (detectChangedPolicies (rt := example_runtime) "/repo" env2
              (checkApiExistence (rt := example_runtime) "/repo" env1 empty_store).2).1
     with
     | Ok result => policies result
     | Throw _ => []
     end).
Proof.
  intros env1 env2.
  destruct (detectChangedPolicies (rt := example_runtime) "/repo" env2
              (checkApiExistence (rt := example_runtime) "/repo" env1 empty_store).2)
    as [[result|e] st2] eqn:Hrun; simpl; [|by constructor].
  apply Forall_forall. intros p Hin.
  refine (probe_then_detection (rt := example_runtime) "/repo" env1 env2 empty_store
            "x" "v1.0.0" "c5" "https://hub.example" "secret" ".state/delivered.json"
            "policies/x/v1.0.0" {| text := "{}"; json := Ok (JObj []) |} (JObj [])
            _ _ _ _ _ _ _ _ _ _ _ _ result st2 Hrun p Hin);
    try (split; [vm_compute; reflexivity|discriminate]); try reflexivity.
  by exists ∅.
Defined.

(** ** The validation of a policy folder *)

Section Validation.
Context {rt : Runtime} {host : Host}.

Lemma snoc_not_nil {A} (l : list A) x : (l ++ [x])%list = [] ↔ False.
Proof. by destruct l. Qed.

Lemma length_eqb_nil {A} (l : list A) : (length l =? 0)%nat = true ↔ l = [].
Proof. destruct l; simpl; naive_solver. Qed.

Lemma differs_from_false v s : differs_from v s = false ↔ v = JStr s.
Proof.
  destruct v; simpl; try naive_solver.
  rewrite negb_false_iff, String.eqb_eq. naive_solver.
Qed.

Lemma requireEntry_nil dir kind entry errs :
  requireEntry dir kind entry errs = [] ↔
  errs = [] ∧ fileExists (path_join dir entry) = true.
Proof.
  unfold requireEntry. destruct (fileExists _); [naive_solver|].
  rewrite snoc_not_nil. naive_solver.
Qed.

Lemma validateStructure_nil dir errs :
  validateStructure dir errs = [] ↔
  errs = [] ∧
  ∀ entry, entry ∈ ["metadata.json"; "policy-definition.yaml"; "docs"; "src"] →
           fileExists (path_join dir entry) = true.
Proof.
  unfold validateStructure. simpl. rewrite !requireEntry_nil. split.
  - intros ((((-> & ?) & ?) & ?) & ?). split; [done|]. intros entry Hin.
    repeat (apply elem_of_cons in Hin as [->|Hin]); try done.
    by apply elem_of_nil in Hin.
  - intros [-> H]. split_and!; try done; apply H; set_solver.
Qed.

Lemma requireField_nil metadata field errs :
  requireField metadata field errs = [] ↔
  errs = [] ∧ truthy (opt_get metadata field) = true.
Proof.
  unfold requireField. destruct (truthy _); [naive_solver|].
  rewrite snoc_not_nil. naive_solver.
Qed.

Lemma requireSame_nil metadata field what expected errs :
  requireSame metadata field what expected errs = [] ↔
  errs = [] ∧
  (truthy (opt_get metadata field) = true → opt_get metadata field = JStr expected).
Proof.
  unfold requireSame. cbv zeta. destruct (truthy _) eqn:Ht; simpl; [|naive_solver].
  destruct (differs_from _ _) eqn:Hd.
  - rewrite snoc_not_nil. split; [done|]. intros [_ H].
    apply differs_from_false in H; [congruence|done].
  - apply differs_from_false in Hd. naive_solver.
Qed.

Lemma validateMetadata_nil dir policyName policyVersion errs env st :
  (validateMetadata dir policyName policyVersion errs env st).1 = Ok [] ↔
  errs = [] ∧
  ∃ metadata,
    (readJsonFile (path_join dir "metadata.json") env st).1 = Ok metadata ∧
    metadata_agrees metadata policyName policyVersion.
Proof.
  unfold validateMetadata. unfold_M.
  destruct (readJsonFile _ env st) as [[metadata|e] st1]; simpl.
  2: { split; [done|]. by intros (_ & ? & ? & _). }
  unfold metadata_agrees.
  destruct (truthy metadata) eqn:Ht; simpl.
  - split.
    + intros [= Hnil]. revert Hnil.
      rewrite !requireSame_nil, !requireField_nil.
      intros ((((((-> & ?) & ?) & ?) & ?) & ?) & ?). split; [done|].
      exists metadata. split; [done|]. intros _. split_and!; [|auto..].
      intros field Hin.
      repeat (apply elem_of_cons in Hin as [->|Hin]); try done.
      by apply elem_of_nil in Hin.
    + intros (-> & ? & [= <-] & H). destruct (H Ht) as (Hf & Hn & Hv).
      f_equal. rewrite !requireSame_nil, !requireField_nil.
      split_and!; try done; apply Hf; set_solver.
  - split.
    + intros [= ->]. split; [done|]. exists metadata. split; [done|].
      intros ?; congruence.
    + by intros (-> & _).
Qed.

Lemma requireDocs_nil docsDir docs errs env st :
  (requireDocs docsDir docs errs env st).1 = Ok [] ↔
  errs = [] ∧
  ∀ doc, doc ∈ docs →
         ∃ name, doc = JStr name ∧ fileExists (path_join docsDir name) = true.
Proof.
  revert errs. induction docs as [|doc docs IH]; intros errs; simpl.
  - split; [intros [= ->]|intros [-> _]]; [|done]. split; [done|].
    intros ? Hin. by apply elem_of_nil in Hin.
  - destruct doc as [| |b|n|name|items|props]; simpl;
      try (split; [done|]; intros [_ Hall];
           destruct (Hall _ ltac:(by left)) as (? & ? & _); done).
    etrans; [apply IH|]. destruct (fileExists (path_join docsDir name)) eqn:Hex.
    + split.
      * intros [-> Hall]. split; [done|]. intros doc' Hin.
        apply elem_of_cons in Hin as [->|Hin]; [eauto|by apply Hall].
      * intros [-> Hall]. split; [done|]. intros doc' Hin. apply Hall. by right.
    + rewrite snoc_not_nil. split; [naive_solver|]. intros [_ Hall].
      destruct (Hall _ ltac:(by left)) as (? & [= <-] & ?). congruence.
Qed.

Lemma validateDocumentation_nil dir config errs env st :
  (validateDocumentation dir config errs env st).1 = Ok [] ↔
  errs = [] ∧
  (fileExists (path_join dir "docs") = true →
   ∃ docs,
     iterate (js_or (opt_get (opt_get config "validation") "requiredDocs")
                defaultDocs) = Ok docs ∧
     ∀ doc, doc ∈ docs →
            ∃ name, doc = JStr name ∧
                    fileExists (path_join (path_join dir "docs") name) = true).
Proof.
  unfold validateDocumentation. cbv zeta.
  destruct (fileExists (path_join dir "docs")); simpl.
  2: { split; [intros [= ->]|intros [-> _]]; done. }
  unfold_M. destruct (iterate _) as [docs|e]; simpl.
  - rewrite requireDocs_nil. split.
    + intros [-> Hall]. split; [done|]. intros _. by exists docs.
    + intros [-> Hall]. destruct (Hall eq_refl) as (? & [= <-] & ?). done.
  - split; [done|]. intros [_ Hall]. by destruct (Hall eq_refl) as (? & ? & _).
Qed.

Lemma validateSource_nil dir errs :
  validateSource dir errs = [] ↔
  errs = [] ∧
  (fileExists (path_join dir "src") = true →
   ∃ files, readdir (path_join dir "src") = Ok files ∧
            ∃ f, f ∈ files ∧ isSourceFile f = true).
Proof.
  unfold validateSource. cbv zeta.
  destruct (fileExists (path_join dir "src")); simpl; [|naive_solver].
  destruct (readdir _) as [files|e].
  - destruct (List.filter isSourceFile files) as [|f fs] eqn:Hfilter; simpl.
    + rewrite snoc_not_nil. split; [done|]. intros [_ H].
      destruct (H eq_refl) as (? & [= <-] & f & Hin & Hf).
      assert (In f (List.filter isSourceFile files)) as Hin'.
      { apply filter_In. split; [by apply list_elem_of_In|done]. }
      by rewrite Hfilter in Hin'.
    + split; [|naive_solver]. intros ->. split; [done|]. intros _.
      exists files. split; [done|]. exists f.
      assert (In f (List.filter isSourceFile files)) as Hin'
        by (rewrite Hfilter; by left).
      apply filter_In in Hin' as [Hin' ?]. split; [by apply list_elem_of_In|done].
  - rewrite snoc_not_nil. split; [done|]. intros [_ H].
    by destruct (H eq_refl) as (? & ? & _).
Qed.

Lemma validatePolicyDefinition_nil dir errs :
  validatePolicyDefinition dir errs = [] ↔
  errs = [] ∧
  (fileExists (path_join dir "policy-definition.yaml") = true →
   ∃ content, readFile (path_join dir "policy-definition.yaml") = FileText content ∧
              is_blank (text content) = false).
Proof.
  unfold validatePolicyDefinition. cbv zeta.
  destruct (fileExists (path_join dir "policy-definition.yaml")); simpl;
    [|naive_solver].
  destruct (readFile _) as [content|msg|msg].
  - destruct (is_blank (text content)) eqn:Hblank.
    + rewrite snoc_not_nil. split; [done|]. intros [_ H].
      destruct (H eq_refl) as (? & [= <-] & ?). congruence.
    + naive_solver.
  - rewrite snoc_not_nil. split; [done|]. intros [_ H].
    by destruct (H eq_refl) as (? & ? & _).
  - rewrite snoc_not_nil. split; [done|]. intros [_ H].
    by destruct (H eq_refl) as (? & ? & _).
Qed.

Lemma readJsonFile_pure filePath env st : (readJsonFile filePath env st).2 = st.
Proof. unfold readJsonFile. by destruct (readFile filePath). Qed.

Lemma validateMetadata_pure dir policyName policyVersion errs env st :
  (validateMetadata dir policyName policyVersion errs env st).2 = st.
Proof.
  unfold validateMetadata. unfold_M.
  pose proof (readJsonFile_pure (path_join dir "metadata.json") env st) as Hpure.
  destruct (readJsonFile _ env st) as [[metadata|e] st1]; simpl in *; [|done].
  by destruct (truthy metadata).
Qed.

Lemma requireDocs_pure docsDir docs errs env st :
  (requireDocs docsDir docs errs env st).2 = st.
Proof.
  revert errs. induction docs as [|doc docs IH]; intros errs; simpl; [done|].
  destruct doc; done.
Qed.

Lemma validateDocumentation_pure dir config errs env st :
  (validateDocumentation dir config errs env st).2 = st.
Proof.
  unfold validateDocumentation. cbv zeta.
  destruct (fileExists _); simpl; [|done].
  unfold_M. destruct (iterate _); simpl; [|done]. apply requireDocs_pure.
Qed.

(** The steps of [validatePolicy], once its two inputs are supplied. *)
Lemma validatePolicy_steps workspace env st policyPath configFile :
  supplied env "policy-path" policyPath →
  supplied env "config-file" configFile →
  let policyDir := path_resolve workspace policyPath in
  validatePolicy workspace env st =
    match split "/" policyPath with
    | [root; policyName; policyVersion] =>
        if bool_decide (root = "policies") then
          if fileExists policyDir then
            match (readJsonFile (path_resolve workspace configFile) env st).1 with
            | Ok config =>
                match (validateMetadata policyDir policyName policyVersion
                         (validateStructure policyDir []) env st).1 with
                | Ok errors1 =>
                    match (validateDocumentation policyDir config errors1 env st).1 with
                    | Ok errors2 =>
                        let errors :=
                          validatePolicyDefinition policyDir
                            (validateSource policyDir errors2) in
                        (if (length errors =? 0)%nat
                         then Ok {| valid := true; errors := errors; warnings := [] |}
                         else Throw (Error ("Policy validation failed with " +:+
                                            pretty (length errors) +:+ " error(s)")),
                         with_outputs st (validationOutputs errors))
                    | Throw e => (Throw e, st)
                    end
                | Throw e => (Throw e, st)
                end
            | Throw e => (Throw e, st)
            end
          else (Throw (Error ("Policy directory does not exist: " +:+ policyDir)), st)
        else (Throw (Error ("Invalid policy path format: " +:+ policyPath)), st)
    | _ => (Throw (Error ("Invalid policy path format: " +:+ policyPath)), st)
    end.
Proof.
  intros Hp Hc policyDir. unfold validatePolicy. unfold_M.
  rewrite (getInput_supplied _ _ _ _ _ Hp), (getInput_supplied _ _ _ _ _ Hc).
  cbv zeta.
  destruct (split "/" policyPath) as [|root [|policyName [|policyVersion [|? ?]]]];
    simpl; try done.
  destruct (decide (root = "policies")) as [->|Hroot].
  2: { rewrite !bool_decide_false by congruence. done. }
  rewrite !bool_decide_true by done. simpl.
  fold policyDir. destruct (fileExists policyDir); simpl; [|done].
  pose proof (readJsonFile_pure (path_resolve workspace configFile) env st) as Hpure.
  destruct (readJsonFile _ env st) as [[config|e] st1]; simpl in *; subst st1; [|done].
  pose proof (validateMetadata_pure policyDir policyName policyVersion
                (validateStructure policyDir []) env st) as Hpure.
  destruct (validateMetadata _ _ _ _ env st) as [[errors1|e] st1]; simpl in *;
    subst st1; [|done].
  pose proof (validateDocumentation_pure policyDir config errors1 env st) as Hpure.
  destruct (validateDocumentation _ _ _ env st) as [[errors2|e] st1]; simpl in *;
    subst st1; [|done].
  unfold setOutput, with_outputs, validationOutputs. simpl.
  rewrite <- !app_assoc. simpl.
  by destruct (length _ =? 0)%nat.
Qed.

(** X14. [validatePolicy] ends in one of three ways: it returns the report
    of a valid folder, without errors, after setting the output [valid]
    to "true"; it throws "Policy validation failed with n error(s)" for
    the n > 0 errors it has written to the output [validation-errors],
    with [valid] set to "false"; or it throws before it sets any output,
    the store left as it was. *)
Theorem validation_verdict workspace env st :
  validatePolicy workspace env st =
    (Ok {| valid := true; errors := []; warnings := [] |},
     with_outputs st (validationOutputs [])) ∨
  (∃ errors,
     errors ≠ [] ∧
     validatePolicy workspace env st =
       (Throw (Error ("Policy validation failed with " +:+ pretty (length errors)
                      +:+ " error(s)")),
        with_outputs st (validationOutputs errors))) ∨
  (∃ e, validatePolicy workspace env st = (Throw e, st)).
Proof.
  destruct (getInput_required_cases env st "policy-path") as [(policyPath & Hp & _) | Hp].
  2: { right; right. eexists. unfold validatePolicy. unfold_M. by rewrite Hp. }
  destruct (getInput_required_cases env st "config-file") as [(configFile & Hc & _) | Hc].
  2: { right; right. eexists. unfold validatePolicy. unfold_M.
       rewrite (getInput_supplied _ _ _ _ _ Hp). by rewrite Hc. }
  rewrite (validatePolicy_steps _ _ _ _ _ Hp Hc).
  repeat case_match; try (right; right; by eexists).
  cbv zeta. destruct (length _ =? 0)%nat eqn:Hlen.
  - left. apply length_eqb_nil in Hlen. by rewrite Hlen.
  - right; left. eexists. split; [|reflexivity]. intros Hnil.
    apply length_eqb_nil in Hnil. congruence.
Qed.

(** X15. With its two inputs supplied, [validatePolicy] returns exactly
    when the policy path is [policies/<name>/<version>], the folder and
    its four entries exist, the configuration and the metadata can be
    read, the metadata is falsy or has the four fields and names the
    folder, every required document is a string that names a file of
    [docs], [src] lists a source file, and the definition can be read and
    is not blank. *)
Theorem validation_passes_iff workspace env st policyPath configFile :
  supplied env "policy-path" policyPath →
  supplied env "config-file" configFile →
  let policyDir := path_resolve workspace policyPath in
  (∃ report st', validatePolicy workspace env st = (Ok report, st')) ↔
  ∃ policyName policyVersion config metadata docs files content,
    split "/" policyPath = ["policies"; policyName; policyVersion] ∧
    fileExists policyDir = true ∧
    (∀ entry, entry ∈ ["metadata.json"; "policy-definition.yaml"; "docs"; "src"] →
              fileExists (path_join policyDir entry) = true) ∧
    (readJsonFile (path_resolve workspace configFile) env st).1 = Ok config ∧
    (readJsonFile (path_join policyDir "metadata.json") env st).1 = Ok metadata ∧
    metadata_agrees metadata policyName policyVersion ∧
    iterate (js_or (opt_get (opt_get config "validation") "requiredDocs")
               defaultDocs) = Ok docs ∧
    (∀ doc, doc ∈ docs →
            ∃ name, doc = JStr name ∧
                    fileExists (path_join (path_join policyDir "docs") name) = true) ∧
    readdir (path_join policyDir "src") = Ok files ∧
    (∃ f, f ∈ files ∧ isSourceFile f = true) ∧
    readFile (path_join policyDir "policy-definition.yaml") = FileText content ∧
    is_blank (text content) = false.
Proof.
  intros Hp Hc policyDir. rewrite (validatePolicy_steps _ _ _ _ _ Hp Hc).
  fold policyDir. split.
  - intros (report & st' & Hrun).
    destruct (split "/" policyPath) as [|root [|policyName [|policyVersion [|? ?]]]];
      try done.
    case_bool_decide as Hroot; [subst root|done].
    destruct (fileExists policyDir) eqn:Hdir; [|done].
    destruct (readJsonFile _ env st).1 as [config|?] eqn:Hconfig; [|done].
    destruct (validateMetadata _ _ _ _ env st).1 as [errors1|?] eqn:Hmeta; [|done].
    destruct (validateDocumentation _ _ _ env st).1 as [errors2|?] eqn:Hdocs; [|done].
    cbv zeta in Hrun. destruct (length _ =? 0)%nat eqn:Hlen; [|done].
    apply length_eqb_nil, validatePolicyDefinition_nil in Hlen as [Hsrc Hdef].
    apply validateSource_nil in Hsrc as [-> Hsrc].
    apply validateDocumentation_nil in Hdocs as [-> Hdocs].
    apply validateMetadata_nil in Hmeta as [Hstruct (metadata & Hmeta & Hagree)].
    apply validateStructure_nil in Hstruct as [_ Hentries].
    destruct Hdocs as (docs & Hiter & Hall); [apply Hentries; set_solver|].
    destruct Hsrc as (files & Hfiles & Hsource); [apply Hentries; set_solver|].
    destruct Hdef as (content & Hread & Hblank); [apply Hentries; set_solver|].
    by exists policyName, policyVersion, config, metadata, docs, files, content.
  - intros (policyName & policyVersion & config & metadata & docs & files & content &
            -> & -> & Hentries & -> & Hmeta & Hagree & Hiter & Hall & Hfiles &
            Hsource & Hread & Hblank).
    rewrite bool_decide_true by done.
    assert ((validateMetadata policyDir policyName policyVersion
               (validateStructure policyDir []) env st).1 = Ok []) as ->.
    { apply validateMetadata_nil. split; [by apply validateStructure_nil|eauto]. }
    assert ((validateDocumentation policyDir config [] env st).1 = Ok []) as ->.
    { apply validateDocumentation_nil. split; [done|eauto]. }
    assert (validatePolicyDefinition policyDir (validateSource policyDir []) = [])
      as ->.
    { apply validatePolicyDefinition_nil. split; [|eauto].
      apply validateSource_nil. split; [done|eauto]. }
    simpl. eauto.
Qed.

End Validation.

Lemma validation_passes_iff_witness :
  let env := folder_env "validate" (Rejected "") in
  let policyDir := "/repo/policies/x/v1.0.0" in
  (∃ report st',
     validatePolicy (rt := example_runtime) (host := complete_host) "/repo" env
       empty_store = (Ok report, st')) ↔
  ∃ policyName policyVersion config metadata docs files content,
    split "/" "policies/x/v1.0.0" = ["policies"; policyName; policyVersion] ∧
    fileExists (host := complete_host) policyDir = true ∧
    (∀ entry, entry ∈ ["metadata.json"; "policy-definition.yaml"; "docs"; "src"] →
              fileExists (host := complete_host)
                (path_join (Host := complete_host) policyDir entry) = true) ∧
    (readJsonFile (host := complete_host) "/repo/config/policy-hub-config.json"
       env empty_store).1 = Ok config ∧
    (readJsonFile (host := complete_host)
       (path_join (Host := complete_host) policyDir "metadata.json")
       env empty_store).1 = Ok metadata ∧
    metadata_agrees metadata policyName policyVersion ∧
    iterate (host := complete_host)
      (js_or (opt_get (opt_get config "validation") "requiredDocs")
         defaultDocs) = Ok docs ∧
    (∀ doc, doc ∈ docs →
            ∃ name, doc = JStr name ∧
                    fileExists (host := complete_host)
                      (path_join (Host := complete_host)
                         (path_join (Host := complete_host) policyDir "docs")
                         name) = true) ∧
    readdir (Host := complete_host)
      (path_join (Host := complete_host) policyDir "src") = Ok files ∧
    (∃ f, f ∈ files ∧ isSourceFile f = true) ∧
    readFile (Host := complete_host)
      (path_join (Host := complete_host) policyDir "policy-definition.yaml")
      = FileText content ∧
    is_blank (text content) = false.
Proof.
  apply (validation_passes_iff (rt := example_runtime) (host := complete_host)
           "/repo" (folder_env "validate" (Rejected "")) empty_store
           "policies/x/v1.0.0" "config/policy-hub-config.json");
    (split; [vm_compute; reflexivity|discriminate]).
Defined.

(** ** The source files and the definition *)

Section SourceAndDefinition.
Context {host : Host}.

Lemma endsWith_spec s suffix :
  endsWith s suffix = true ↔ ∃ stem, s = stem +:+ suffix.
Proof.
  induction s as [|c s IH].
  - change (endsWith "" suffix) with (String.eqb "" suffix || false).
    rewrite orb_false_r, String.eqb_eq. split.
    + intros <-. by exists "".
    + intros ([|? ?] & Heq); [done|discriminate].
  - change (endsWith (String c s) suffix)
      with (String.eqb (String c s) suffix || endsWith s suffix).
    rewrite orb_true_iff, String.eqb_eq, IH. split.
    + intros [<-|(stem & ->)]; [by exists ""|by exists (String c stem)].
    + intros ([|c' stem] & Heq); [by left|]. right.
      injection Heq as -> ->. by exists stem.
Qed.

(** X17. The files that [validateSource] counts as source files are those
    whose name ends in [.go], [.js], [.ts] or [.py]; a file named by the
    extension alone is one of them. *)
Theorem source_files_by_extension f :
  isSourceFile f = true ↔
  ∃ stem ext, ext ∈ [".go"; ".js"; ".ts"; ".py"] ∧ f = stem +:+ ext.
Proof.
  unfold isSourceFile. rewrite !orb_true_iff, !endsWith_spec. split.
  - intros [[[[stem ->]|[stem ->]]|[stem ->]]|[stem ->]];
      eexists stem, _; (split; [|reflexivity]); set_solver.
  - intros (stem & ext & Hin & ->).
    repeat (apply elem_of_cons in Hin as [->|Hin]); eauto 6.
    by apply elem_of_nil in Hin.
Qed.

Lemma space1_not_printable a :
  space1 a = true → ((33 <=? a) && (a <=? 126))%nat = false.
Proof.
  unfold space1. rewrite orb_true_iff, andb_true_iff, andb_false_iff.
  rewrite !Nat.leb_le, Nat.eqb_eq, !Nat.leb_gt. lia.
Qed.

Lemma space2_not_printable a b :
  space2 a b = true →
  ((33 <=? a) && (a <=? 126))%nat = false ∧ ((33 <=? b) && (b <=? 126))%nat = false.
Proof.
  unfold space2. rewrite andb_true_iff, !andb_false_iff.
  rewrite !Nat.eqb_eq, !Nat.leb_gt. lia.
Qed.

Lemma space3_not_printable a b c :
  space3 a b c = true →
  ((33 <=? a) && (a <=? 126))%nat = false ∧ ((33 <=? b) && (b <=? 126))%nat = false ∧
  ((33 <=? c) && (c <=? 126))%nat = false.
Proof.
  unfold space3.
  rewrite !orb_true_iff, !andb_true_iff, !orb_true_iff, !andb_true_iff,
    !andb_false_iff.
  rewrite !Nat.eqb_eq, !Nat.leb_le, !Nat.leb_gt. lia.
Qed.

Lemma is_blank_spaces s : all_chars ascii_space s = true → is_blank s = true.
Proof.
  induction s as [|c s IH]; [done|]. simpl. unfold ascii_space.
  rewrite andb_true_iff. intros [-> ?]. by apply IH.
Qed.

Lemma is_blank_printable_aux n s :
  (String.length s ≤ n)%nat → is_blank s = true → some_char printable s = false.
Proof.
  revert s. induction n as [|n IH]; intros s Hlen.
  { destruct s; simpl in *; [done|lia]. }
  destruct s as [|c1 r1]; [done|]. simpl in Hlen. simpl.
  destruct (space1 (nat_of_ascii c1)) eqn:H1.
  { intros Hb. unfold printable at 1. rewrite (space1_not_printable _ H1). simpl.
    apply IH; [lia|done]. }
  destruct r1 as [|c2 r2]; [done|]. simpl in Hlen.
  destruct (space2 (nat_of_ascii c1) (nat_of_ascii c2)) eqn:H2.
  { intros Hb. destruct (space2_not_printable _ _ H2) as [Hc1 Hc2].
    simpl. unfold printable at 1 2. rewrite Hc1, Hc2. simpl.
    apply IH; [lia|done]. }
  destruct r2 as [|c3 r3]; [done|]. simpl in Hlen.
  destruct (space3 (nat_of_ascii c1) (nat_of_ascii c2) (nat_of_ascii c3)) eqn:H3;
    [|done].
  intros Hb. destruct (space3_not_printable _ _ _ H3) as (Hc1 & Hc2 & Hc3).
  simpl. unfold printable at 1 2 3. rewrite Hc1, Hc2, Hc3. simpl.
  apply IH; [lia|done].
Qed.

Lemma is_blank_printable s : some_char printable s = true → is_blank s = false.
Proof.
  intros Hsome. destruct (is_blank s) eqn:Hb; [|done].
  apply (is_blank_printable_aux (String.length s)) in Hb; [congruence|lia].
Qed.

(** X16. A definition file that holds a printable character draws no
    error from [validatePolicyDefinition]; one that holds nothing but
    blanks, tabs and line ends, or nothing at all, is reported as
    empty. *)
Theorem definition_must_not_be_blank dir errs content :
  fileExists (path_join dir "policy-definition.yaml") = true →
  readFile (path_join dir "policy-definition.yaml") = FileText content →
  (some_char printable (text content) = true →
   validatePolicyDefinition dir errs = errs) ∧
  (all_chars ascii_space (text content) = true →
   validatePolicyDefinition dir errs =
     (errs ++ [{| error_message := "policy-definition.yaml is empty";
                  error_file := "policy-definition.yaml";
                  error_type := "error" |}])%list).
Proof.
  intros Hex Hread. unfold validatePolicyDefinition. cbv zeta.
  rewrite Hex, Hread. simpl. split; intros Htext.
  - by rewrite (is_blank_printable _ Htext).
  - by rewrite (is_blank_spaces _ Htext).
Qed.

End SourceAndDefinition.

Lemma definition_must_not_be_blank_witness :
  (some_char printable "name: x" = true →
   validatePolicyDefinition (host := complete_host) example_dir [] = []) ∧
  (all_chars ascii_space "name: x" = true →
   validatePolicyDefinition (host := complete_host) example_dir [] =
     [{| error_message := "policy-definition.yaml is empty";
         error_file := "policy-definition.yaml";
         error_type := "error" |}]).
Proof.
  apply (definition_must_not_be_blank (host := complete_host) example_dir []
           {| text := "name: x"; json := Throw (SyntaxError "Unexpected token") |});
    vm_compute; reflexivity.
Defined.

(** ** The action as a whole *)

Section Action.
Context {rt : Runtime} {host : Host}.

Lemma quiet_readJsonFile filePath : quiet (readJsonFile filePath).
Proof. unfold readJsonFile. by destruct (readFile filePath). Qed.

Lemma quiet_validateMetadata policyDir policyName policyVersion errors :
  quiet (validateMetadata policyDir policyName policyVersion errors).
Proof.
  unfold validateMetadata. pose proof quiet_readJsonFile. quiet_steps.
Qed.

Lemma quiet_requireDocs docsDir docs errors : quiet (requireDocs docsDir docs errors).
Proof.
  revert errors. induction docs as [|doc docs IH]; intros errors; simpl; [done|].
  destruct doc; done.
Qed.

Lemma quiet_validateDocumentation policyDir config errors :
  quiet (validateDocumentation policyDir config errors).
Proof.
  unfold validateDocumentation. pose proof quiet_requireDocs. quiet_steps.
Qed.

(** The validation only sets outputs. *)
Lemma quiet_validatePolicy workspace : quiet (validatePolicy workspace).
Proof.
  unfold validatePolicy.
  pose proof quiet_readJsonFile. pose proof quiet_validateMetadata.
  pose proof quiet_validateDocumentation. pose proof quiet_requireDocs.
  quiet_steps.
Qed.

Lemma preserves_failed_checkApiExistence workspace :
  preserves failed (checkApiExistence workspace).
Proof.
  unfold checkApiExistence, checkPolicyExistsInApi, updateStateForExistingPolicy.
  preserves_steps.
Qed.

Lemma preserves_updateDeliveryState workspace env st :
  sent (updateDeliveryState workspace env st).2 = sent st ∧
  failed (updateDeliveryState workspace env st).2 = failed st.
Proof.
  assert (preserves sent (updateDeliveryState workspace) ∧
          preserves failed (updateDeliveryState workspace)) as [Hs Hf].
  { unfold updateDeliveryState. split; preserves_steps. }
  split; [apply Hs|apply Hf].
Qed.

Lemma preserves_publishPolicy workspace env st :
  files (publishPolicy workspace env st).2 = files st ∧
  failed (publishPolicy workspace env st).2 = failed st.
Proof. by destruct (publishPolicy_frame workspace env st) as (? & ? & _). Qed.

Lemma supplied_selected env op : supplied env "operation" op → selected env = op.
Proof. intros [Hop _]. unfold selected. by rewrite Hop. Qed.

Ltac frame_of H :=
  match goal with
  | |- context [?m ?ws ?env ?st] =>
      pose proof (H ws env st); destruct (m ws env st) as [[?|?] ?]
  end;
  simpl in *; eexists; (split; [reflexivity|]); simpl;
  split_and!;
  first [ by left; intuition congruence
        | by right; eauto
        | by intros Hd; destruct Hd; intuition congruence
        | by intros _; left
        | by intros _; right ].

(** X12. [run] never throws: what an operation throws becomes the
    failure of the action.  Whatever the inputs, a state file changes only
    under [update-state] or [check-api-existence], a request is sent only
    under [check-api-existence] or [publish], and the failure is either
    left as it was or set to a message that starts with "Operation
    failed". *)
Theorem action_changes_only_its_part env st :
  ∃ st',
    main env st = (Ok tt, st') ∧
    (files st' ≠ files st →
     selected env = "update-state" ∨ selected env = "check-api-existence") ∧
    (sent st' ≠ sent st →
     selected env = "check-api-existence" ∨ selected env = "publish") ∧
    (failed st' = failed st ∨
     ∃ msg, failed st' = Some ("❌ Operation failed: " +:+ msg)).
Proof.
  pose proof quiet_detectChangedPolicies as Hdetect.
  pose proof quiet_checkDeliveryStatus as Hstatus.
  pose proof quiet_validatePolicy as Hvalidate.
  pose proof preserves_failed_checkApiExistence as Hprobe.
  pose proof preserves_updateDeliveryState as Hupdate.
  pose proof preserves_publishPolicy as Hpublish.
  unfold main, run. unfold_M.
  destruct (getInput_required_cases env st "operation")
    as [(op & Hop & ->) | ->];
    [|eexists; split; [reflexivity|]; simpl; split_and!; [done|done|right; eauto]].
  apply supplied_selected in Hop. rewrite Hop.
  destruct (getInput_required_cases env st "workspace")
    as [(ws & Hws & ->) | ->];
    [|eexists; split; [reflexivity|]; simpl; split_and!; [done|done|right; eauto]].
  destruct (String.eqb_spec op "detect") as [->|_]; [frame_of Hdetect|].
  destruct (String.eqb_spec op "validate") as [->|_]; [frame_of Hvalidate|].
  destruct (String.eqb_spec op "check-status") as [->|_]; [frame_of Hstatus|].
  destruct (String.eqb_spec op "check-api-existence") as [->|_]; [frame_of Hprobe|].
  destruct (String.eqb_spec op "publish") as [->|_]; [frame_of Hpublish|].
  destruct (String.eqb_spec op "update-state") as [->|_]; [frame_of Hupdate|].
  eexists; split; [reflexivity|]; simpl; split_and!; [done|done|right; eauto].
Qed.

(** X13. An operation that [run] does not know fails the action with
    "Unknown operation: ...", and nothing else happens: no output is set,
    no request is sent and no state file is written. *)
Theorem unknown_operation_fails env st operation workspace :
  supplied env "operation" operation →
  supplied env "workspace" workspace →
  operation ∉ ["detect"; "validate"; "check-status"; "check-api-existence";
               "publish"; "update-state"] →
  main env st =
    (Ok tt,
     {| files := files st; outputs := outputs st; sent := sent st;
        failed := Some ("❌ Operation failed: Unknown operation: " +:+ operation) |}).
Proof.
  intros Hop Hws Hnot. unfold main, run. unfold_M.
  rewrite (getInput_supplied _ _ _ _ _ Hop), (getInput_supplied _ _ _ _ _ Hws).
  destruct (String.eqb_spec operation "detect") as [->|_]; [set_solver|].
  destruct (String.eqb_spec operation "validate") as [->|_]; [set_solver|].
  destruct (String.eqb_spec operation "check-status") as [->|_]; [set_solver|].
  destruct (String.eqb_spec operation "check-api-existence") as [->|_]; [set_solver|].
  destruct (String.eqb_spec operation "publish") as [->|_]; [set_solver|].
  destruct (String.eqb_spec operation "update-state") as [->|_]; [set_solver|].
  reflexivity.
Qed.

End Action.

Lemma unknown_operation_fails_witness :
  main (rt := example_runtime) (host := complete_host)
    (folder_env "deploy" (Rejected "")) empty_store =
    (Ok tt,
     {| files := ∅; outputs := []; sent := [];
        failed := Some "❌ Operation failed: Unknown operation: deploy" |}).
Proof.
  apply (unknown_operation_fails (rt := example_runtime) (host := complete_host)
           (folder_env "deploy" (Rejected "")) empty_store "deploy" "/repo").
  - split; [vm_compute; reflexivity|discriminate].
  - split; [vm_compute; reflexivity|discriminate].
  - intros Hin. repeat (apply elem_of_cons in Hin as [Hin|Hin]; [discriminate|]).
    by apply elem_of_nil in Hin.
Defined.
